(** * RFM segmentation pipeline ([rfm_package/rfm/main.py])

    A shallow embedding of the scoring pipeline of [rfm_package]:
    [create_rfm_columns], [scale_rfm_columns], [rfm_scores],
    [top_customers], [naming] and [give_names_to_segments].

    Modelling conventions.
    - A pandas DataFrame is a list of named, typed columns (column order
      matters); the row index is left out, every Series the code combines
      being taken from the same frame.
    - DataFrames are Python objects: the functions receive a reference into a
      store of frames, so that [data['R'] = ...] is an update of the store.
    - int64 columns are lists of [Z] (overflow is not modelled);
      datetime64[ns] columns are lists of [Z] nanoseconds since the epoch.
    - Quartile edges are the linear-interpolation quantiles of pandas, which
      for integer data are rationals of denominator 4: the model keeps four
      times each edge, as an exact integer.
    - Python exceptions are an error result, and keep the store as it is at
      the raise. Where pandas' behaviour on an unusual dtype is left out, the
      result is [Unmodelled], which is neither a value nor an exception.
    - The sorting routine behind [sort_values] (numpy's quicksort) is a
      parameter, the class [Argsort], known by its contract; two routines
      that meet it are given, a stable one and numpy's own, embedded from
      numpy's [npy_aquicksort] ([numpy/core/src/npysort/quicksort.cpp]). *)

From Stdlib Require Import ZArith Lia List String Ascii Bool Sorting.Permutation.
From stdpp Require Import base option list gmap strings sorting pretty.

Local Open Scope Z_scope.
Local Open Scope string_scope.

(** ** Exceptions and results *)

Inductive exn : Type :=
| KeyError
| TypeError
| ValueError
| AttributeError.

Definition exn_name (e : exn) : string :=
  match e with
  | KeyError => "KeyError"
  | TypeError => "TypeError"
  | ValueError => "ValueError"
  | AttributeError => "AttributeError"
  end.

(** The outcome of a call: a value, a Python exception, or [Unmodelled]
    where the behaviour of pandas on the input is left out of the model (the
    places are marked at the definitions). *)
Inductive result (A : Type) : Type :=
| Ok (a : A)
| Raise (e : exn)
| Unmodelled.

Arguments Ok {A} a.
Arguments Raise {A} e.
Arguments Unmodelled {A}.

Definition rbind {A B} (m : result A) (k : A → result B) : result B :=
  match m with
  | Ok a => k a
  | Raise e => Raise e
  | Unmodelled => Unmodelled
  end.

Notation "'let?' x := m 'in' k" := (rbind m (fun x => k))
  (at level 10, x pattern, m at level 100, k at level 200).

Fixpoint rmap {A B} (f : A → result B) (l : list A) : result (list B) :=
  match l with
  | [] => Ok []
  | a :: l' => let? b := f a in let? bs := rmap f l' in Ok (b :: bs)
  end.

(** ** Cells, columns and frames *)

(** A cell, as a row-wise [apply] or a scalar reduction sees it. *)
Inductive value : Type :=
| VInt (z : Z)
| VDate (ns : Z)
| VStr (s : string)
| VNaN.

Global Instance value_eq_dec : EqDecision value.
Proof. solve_decision. Defined.

(** The order of two cells of one dtype: numbers and timestamps by value,
    strings lexicographically. *)
Definition value_le (a b : value) : Prop :=
  match a, b with
  | VInt x, VInt y | VDate x, VDate y => (x ≤ y)%Z
  | VStr s, VStr t => String.le s t
  | _, _ => False
  end.

(** A column with its dtype. [ColCat] is an ordered categorical: its
    categories and the cells, [None] being a missing cell (NaN). *)
Inductive column : Type :=
| ColInt (xs : list Z)
| ColDate (xs : list Z)
| ColStr (xs : list string)
| ColCat (cats : list string) (xs : list (option string)).

Definition col_values (c : column) : list value :=
  match c with
  | ColInt xs => VInt <$> xs
  | ColDate xs => VDate <$> xs
  | ColStr xs => VStr <$> xs
  | ColCat _ xs => (λ o, match o with Some s => VStr s | None => VNaN end) <$> xs
  end.

Definition col_len (c : column) : nat := length (col_values c).

Definition frame : Type := list (string * column).

Fixpoint get_col (f : frame) (name : string) : option column :=
  match f with
  | [] => None
  | (n, c) :: f' => if decide (n = name) then Some c else get_col f' name
  end.

(** [data[name] = c]: replaces the column in place when it exists, appends
    it otherwise. *)
Fixpoint set_col (f : frame) (name : string) (c : column) : frame :=
  match f with
  | [] => [(name, c)]
  | (n, c') :: f' =>
      if decide (n = name) then (n, c) :: f' else (n, c') :: set_col f' name c
  end.

Definition col_names (f : frame) : list string := fst <$> f.

Definition nrows (f : frame) : nat :=
  match f with
  | [] => 0%nat
  | (_, c) :: _ => col_len c
  end.

(** A frame all of whose columns have [n] cells, as every DataFrame has. *)
Definition wf_frame (n : nat) (f : frame) : Prop :=
  Forall (λ nc, col_len nc.2 = n) f.

(** A row, as [DataFrame.apply(..., axis=1)] hands it to its function. *)
Definition row : Type := list (string * value).

Fixpoint row_get (r : row) (name : string) : option value :=
  match r with
  | [] => None
  | (n, v) :: r' => if decide (n = name) then Some v else row_get r' name
  end.

Definition row_at (f : frame) (i : nat) : row :=
  omap (λ '(n, c), (λ v, (n, v)) <$> (col_values c !! i)) f.

Definition rows (f : frame) : list row :=
  (row_at f) <$> seq 0 (nrows f).

(** ** The store of frames *)

Definition loc : Type := nat.
Abbreviation store := (gmap nat frame).

Definition M (A : Type) : Type := store → result A * store.

Definition ret {A} (a : A) : M A := λ h, (Ok a, h).
Definition raise {A} (e : exn) : M A := λ h, (Raise e, h).
Definition bind {A B} (m : M A) (k : A → M B) : M B :=
  λ h, match m h with
       | (Ok a, h') => k a h'
       | (Raise e, h') => (Raise e, h')
       | (Unmodelled, h') => (Unmodelled, h')
       end.
Definition lift {A} (r : result A) : M A := λ h, (r, h).

Notation "'do' x <- m ; k" := (bind m (fun x => k))
  (at level 10, x pattern, m at level 100, k at level 200).
Notation "m ;; k" := (bind m (fun _ => k))
  (at level 100, k at level 200, right associativity).

(** Dereference: the frame an object reference points to. A dangling
    reference does not occur in Python; it is given the empty frame. *)
Definition deref (l : loc) : M frame :=
  λ h, (Ok (default ([] : frame) (h !! l)), h).

(** [data[name]] *)
Definition getitem (l : loc) (name : string) : M column :=
  do f <- deref l;
  match get_col f name with
  | Some c => ret c
  | None => raise KeyError
  end.

(** [data[name] = c] *)
Definition setitem (l : loc) (name : string) (c : column) : M unit :=
  λ h, (Ok tt, <[l := set_col (default ([] : frame) (h !! l)) name c]> h).

(** A new DataFrame object. *)
Definition alloc (f : frame) : M loc :=
  λ h, let l := fresh (dom h) in (Ok l, <[l := f]> h).

(** Effects on the store: a computation that leaves the store as it is, and
    one that either fails and leaves the store as it is, or returns a new
    frame it has added to the store. *)
Definition reads_only {A} (m : M A) : Prop := ∀ h, (m h).2 = h.

Definition allocates_only (m : M loc) : Prop :=
  ∀ h, ((m h).2 = h ∧ ∀ l, (m h).1 ≠ Ok l) ∨
       ∃ l f, m h = (Ok l, <[l := f]> h) ∧ h !! l = None.

(** ** Segment classifier *)

(** [v >= k] and [v < k] for a cell [v] and an int literal [k]; a NaN
    compares false, a string or timestamp raises [TypeError]. *)
Definition py_ge (v : value) (k : Z) : result bool :=
  match v with
  | VInt z => Ok (k <=? z)%Z
  | VNaN => Ok false
  | VDate _ | VStr _ => Raise TypeError
  end.

Definition py_lt (v : value) (k : Z) : result bool :=
  match v with
  | VInt z => Ok (z <? k)%Z
  | VNaN => Ok false
  | VDate _ | VStr _ => Raise TypeError
  end.

(** [df[name]] on a row *)
Definition row_getitem (df : row) (name : string) : result value :=
  match row_get df name with
  | Some v => Ok v
  | None => Raise KeyError
  end.

(** [(df['RFM_Score'] >= lo) and (df['RFM_Score'] < hi)], with the
    short-circuit of [and]. *)
Definition in_range (df : row) (lo hi : Z) : result bool :=
  let? a := row_getitem df "RFM_Score" in
  let? c := py_ge a lo in
  if c then (let? b := row_getitem df "RFM_Score" in py_lt b hi) else Ok false.

Definition naming (df : row) : result string :=
  let? s := row_getitem df "RFM_Score" in
  let? c9 := py_ge s 9 in
  if c9 then Ok "Can't Loose Them" else
  let? c8 := in_range df 8 9 in
  if c8 then Ok "Champions" else
  let? c7 := in_range df 7 8 in
  if c7 then Ok "Loyal/Commited" else
  let? c6 := in_range df 6 7 in
  if c6 then Ok "Potential" else
  let? c5 := in_range df 5 6 in
  if c5 then Ok "Promising" else
  let? c4 := in_range df 4 5 in
  if c4 then Ok "Requires Attention" else
  Ok "Demands Activation".

Definition segment_names : list string :=
  ["Can't Loose Them"; "Champions"; "Loyal/Commited"; "Potential";
   "Promising"; "Requires Attention"; "Demands Activation"].

(** [data.apply(naming, axis=1)]: [naming] on every row, in row order. On a
    frame without rows pandas returns a DataFrame, not a Series: that case
    is outside the model. *)
Definition apply_naming (f : frame) : result column :=
  if decide (nrows f = 0%nat) then Unmodelled
  else let? names := rmap naming (rows f) in Ok (ColStr names).

Definition give_names_to_segments (data : loc) : M loc :=
  do f <- deref data;
  do c <- lift (apply_naming f);
  setitem data "Segment_Name" c;;
  ret data.

(** ** Metric deriver *)

(** Nanoseconds in a day: [Timedelta.days] is the floor of the difference
    by this. *)
Definition ns_per_day : Z := 86400 * 1000000000.

Definition timedelta_days (delta : Z) : Z := delta `div` ns_per_day.

(** Days since 1970-01-01 of a proleptic Gregorian date, and the midnight
    timestamp of it. *)
Definition days_from_civil (y m d : Z) : Z :=
  let y' := if (m <=? 2)%Z then y - 1 else y in
  let era := y' `div` 400 in
  let yoe := y' - era * 400 in
  let mp := (m + 9) `mod` 12 in
  let doy := (153 * mp + 2) `div` 5 + d - 1 in
  let doe := yoe * 365 + yoe `div` 4 - yoe `div` 100 + doy in
  era * 146097 + doe - 719468.

Definition timestamp (y m d : Z) : Z := days_from_civil y m d * ns_per_day.

Definition zmax_list (xs : list Z) : option Z :=
  match xs with
  | [] => None
  | x :: xs' => Some (foldr Z.max x xs')
  end.

Definition str_max (a b : string) : string := if String.leb a b then b else a.

Definition strmax_list (xs : list string) : option string :=
  match xs with
  | [] => None
  | x :: xs' => Some (foldr str_max x xs')
  end.

Definition zsum (xs : list Z) : Z := foldr Z.add 0 xs.

(** Position of a category in the category order (an ordered categorical
    compares by it). *)
Fixpoint cat_rank (cats : list string) (s : string) : nat :=
  match cats with
  | [] => 0%nat
  | c :: cats' => if decide (c = s) then 0%nat else S (cat_rank cats' s)
  end.

Definition cat_max (cats : list string) (a b : string) : string :=
  if decide (cat_rank cats a ≤ cat_rank cats b)%nat then b else a.

Definition catmax_list (cats : list string) (xs : list (option string))
  : option string :=
  match omap id xs with
  | [] => None
  | x :: xs' => Some (foldr (cat_max cats) x xs')
  end.

(** [Series.max()]: NaN (NaT) on a column without cells. *)
Definition col_max (c : column) : value :=
  match c with
  | ColInt xs => from_option VInt VNaN (zmax_list xs)
  | ColDate xs => from_option VDate VNaN (zmax_list xs)
  | ColStr xs => from_option VStr VNaN (strmax_list xs)
  | ColCat cats xs => from_option VStr VNaN (catmax_list cats xs)
  end.

(** [(max_date - m).days] *)
Definition days_between (max_date m : value) : result Z :=
  match max_date, m with
  | VDate a, VDate b => Ok (timedelta_days (a - b))
  | VInt _, VInt _ => Raise AttributeError
  | _, _ => Raise TypeError
  end.

(** The cells of [vals] on the rows whose key is [k]. *)
Definition group_of {K V} `{EqDecision K} (keys : list K) (vals : list V) (k : K)
  : list V :=
  snd <$> filter (λ p, p.1 = k) (zip keys vals).

(** The group keys of [groupby]: the distinct keys, sorted. *)
Definition group_keys {K} `{EqDecision K} (R : relation K)
    `{∀ x y, Decision (R x y)} (keys : list K) : list K :=
  merge_sort R (remove_dups keys).

(** The sub-column of [c] on the rows whose key is [k]. *)
Definition col_group {K} `{EqDecision K} (keys : list K) (c : column) (k : K)
  : column :=
  match c with
  | ColInt xs => ColInt (group_of keys xs k)
  | ColDate xs => ColDate (group_of keys xs k)
  | ColStr xs => ColStr (group_of keys xs k)
  | ColCat cats xs => ColCat cats (group_of keys xs k)
  end.

(** The three aggregations of the dict handed to [agg]. *)
Inductive aggfun : Type :=
| AggRecency   (* lambda date: (max_date - date.max()).days *)
| AggLen       (* lambda num: len(num) *)
| AggSum.      (* lambda price: price.sum() *)

(** A dict literal: a later entry of the same key replaces the value of the
    earlier one, at the place of the earlier one. *)
Fixpoint dict_set {V} (d : list (string * V)) (k : string) (v : V)
  : list (string * V) :=
  match d with
  | [] => [(k, v)]
  | (k', v') :: d' =>
      if decide (k' = k) then (k', v) :: d' else (k', v') :: dict_set d' k v
  end.

Definition dict_of {V} (entries : list (string * V)) : list (string * V) :=
  foldl (λ d e, dict_set d e.1 e.2) [] entries.

(** [price.sum()] over the groups: int64 cells add up, str cells
    concatenate, timestamps and categoricals have no sum. *)
Definition agg_sum {K} `{EqDecision K} (keys gks : list K) (price : column)
  : result column :=
  match price with
  | ColInt xs => Ok (ColInt ((λ k, zsum (group_of keys xs k)) <$> gks))
  | ColStr xs => Ok (ColStr ((λ k, String.concat "" (group_of keys xs k)) <$> gks))
  | ColDate _ | ColCat _ _ => Raise TypeError
  end.

(** One aggregation over the groups [gks] of the key column [keys]. *)
Definition agg_one {K} `{EqDecision K} (keys gks : list K) (max_date : value)
    (c : column) (fn : aggfun) : result column :=
  match fn with
  | AggRecency =>
      let? r := rmap (λ k, days_between max_date (col_max (col_group keys c k))) gks in
      Ok (ColInt r)
  | AggLen =>
      Ok (ColInt ((λ k, Z.of_nat (col_len (col_group keys c k))) <$> gks))
  | AggSum => agg_sum keys gks c
  end.

(** [data.groupby(id).agg({...})]: the key column of the groups and one
    aggregate per entry of the dict. Grouping by a categorical key (whose
    unobserved categories pandas keeps as empty groups) is outside the
    model. *)
Definition groupby_agg (max_date : value) (cid : column)
    (spec : list (column * aggfun)) : result (column * list column) :=
  match cid with
  | ColInt ks =>
      let gks := group_keys Z.le ks in
      let? a := rmap (λ e, agg_one ks gks max_date e.1 e.2) spec in
      Ok (ColInt gks, a)
  | ColDate ks =>
      let gks := group_keys Z.le ks in
      let? a := rmap (λ e, agg_one ks gks max_date e.1 e.2) spec in
      Ok (ColDate gks, a)
  | ColStr ks =>
      let gks := group_keys String.le ks in
      let? a := rmap (λ e, agg_one ks gks max_date e.1 e.2) spec in
      Ok (ColStr gks, a)
  | ColCat _ _ => Unmodelled
  end.

Fixpoint mapM {A B} (f : A → M B) (l : list A) : M (list B) :=
  match l with
  | [] => ret []
  | a :: l' => do b <- f a; do bs <- mapM f l'; ret (b :: bs)
  end.

Definition rfm_column_names : list string := ["Recency"; "Frequency"; "Monetary"].

Definition create_rfm_columns (data : loc) (id dates revenue : string) : M loc :=
  do cdates <- getitem data dates;
  let max_date := col_max cdates in
  do cid <- getitem data id;
  let spec := dict_of [(dates, AggRecency); (id, AggLen); (revenue, AggSum)] in
  do cols <- mapM (λ e, do c <- getitem data e.1; ret (c, e.2)) spec;
  do df <- lift (groupby_agg max_date cid cols);
  (* df.columns = ['Recency', 'Frequency', 'Monetary'] *)
  match df.2 with
  | [rec; freq; mon] =>
      (* df.reset_index(inplace=True): the key becomes the first column,
         unless a column of its name is there already *)
      if bool_decide (id ∈ rfm_column_names) then raise ValueError else
      alloc [(id, df.1); ("Recency", rec); ("Frequency", freq); ("Monetary", mon)]
  | _ => raise ValueError
  end.

(** The transactions of the example: customer, date, revenue. *)
Definition example_transactions : frame :=
  [("customer", ColStr ["C1"; "C1"; "C2"]);
   ("date", ColDate [timestamp 2023 1 1; timestamp 2023 2 1; timestamp 2023 2 10]);
   ("revenue", ColInt [100; 50; 500])].

(** ** Quartile encoder *)

(** Four times the quantile of level [q/4] of the sorted cells [s], by
    linear interpolation between the two cells around the virtual index
    [(n-1)·q/4]. *)
Definition quantile4 (s : list Z) (q : Z) : Z :=
  let n := Z.of_nat (length s) in
  let h := (n - 1) * q in
  let lo := Z.to_nat (h `div` 4) in
  let hi := Nat.min (S lo) (length s - 1) in
  let a := nth lo s 0 in
  let b := nth hi s 0 in
  4 * a + (h `mod` 4) * (b - a).

(** The five bin edges of a 4-quantile cut (four times each). *)
Definition quartile_edges (xs : list Z) : list Z :=
  quantile4 (merge_sort Z.le xs) <$> [0; 1; 2; 3; 4].

(** The bin of a cell: [searchsorted(bins, x, side='left')], the lowest
    edge being included in the first bin. *)
Definition bin_id (bins : list Z) (x : Z) : nat :=
  if decide (Some (4 * x) = head bins) then 1%nat
  else length (filter (λ e, e < 4 * x) bins).

(** The label of a cell; a cell outside the edges is missing. *)
Definition bin_label (bins : list Z) (labels : list string) (x : Z)
  : option string :=
  let i := bin_id bins x in
  if decide (i = 0%nat ∨ i = length bins) then None else labels !! (i - 1)%nat.

(** [pd.qcut(x, 4, labels)] on int64 cells: refused when two edges
    coincide, a column without cells having NaN edges only. *)
Definition qcut (xs : list Z) (labels : list string) : result column :=
  let bins := quartile_edges xs in
  if decide (xs = []) then Raise ValueError else
  if negb (bool_decide (NoDup bins)) then Raise ValueError else
  if negb (bool_decide (length labels = 4%nat)) then Raise ValueError else
  if negb (bool_decide (NoDup labels)) then Raise ValueError else
  Ok (ColCat labels (bin_label bins labels <$> xs)).

(** [pd.qcut] on a column: strings and categoricals have no quantiles; the
    rounding of timestamp quantiles is outside the model. *)
Definition qcut_col (c : column) (labels : list string) : result column :=
  match c with
  | ColInt xs => qcut xs labels
  | ColDate _ => Unmodelled
  | ColStr _ | ColCat _ _ => Raise TypeError
  end.

(** A metric table of eight customers, and one of two. *)
Definition example_metrics : frame :=
  [("id", ColInt [1; 2; 3; 4; 5; 6; 7; 8]);
   ("Recency", ColInt [0; 10; 20; 30; 40; 50; 60; 70]);
   ("Frequency", ColInt [1; 2; 3; 4; 5; 6; 7; 8]);
   ("Monetary", ColInt [10; 20; 30; 40; 50; 60; 70; 80])].

Definition example_two_customers : frame :=
  [("id", ColInt [1; 2]); ("Recency", ColInt [0; 4]);
   ("Frequency", ColInt [1; 5]); ("Monetary", ColInt [10; 50])].

(** Twelve customers, nine of them with the same Recency. *)
Definition example_skewed : frame :=
  [("id", ColInt [1; 2; 3; 4; 5; 6; 7; 8; 9; 10; 11; 12]);
   ("Recency", ColInt [1; 1; 1; 1; 1; 1; 1; 1; 1; 2; 3; 4]);
   ("Frequency", ColInt [1; 2; 3; 4; 5; 6; 7; 8; 9; 10; 11; 12]);
   ("Monetary", ColInt [1; 2; 3; 4; 5; 6; 7; 8; 9; 10; 11; 12])].

(** Four customers, the first the most recent, most frequent and highest
    paying, the last the opposite. *)
Definition example_ranked : frame :=
  [("id", ColInt [1; 2; 3; 4]); ("Recency", ColInt [0; 10; 20; 30]);
   ("Frequency", ColInt [4; 3; 2; 1]); ("Monetary", ColInt [40; 30; 20; 10])].

(** Twenty customers, numbered by falling value: each later one bought
    longer ago, less often and for less. *)
Definition example_twenty : frame :=
  [("id", ColInt [1; 2; 3; 4; 5; 6; 7; 8; 9; 10; 11; 12; 13; 14; 15; 16; 17; 18;
                  19; 20]);
   ("Recency", ColInt [0; 10; 20; 30; 40; 50; 60; 70; 80; 90; 100; 110; 120;
                       130; 140; 150; 160; 170; 180; 190]);
   ("Frequency", ColInt [20; 19; 18; 17; 16; 15; 14; 13; 12; 11; 10; 9; 8; 7; 6;
                         5; 4; 3; 2; 1]);
   ("Monetary", ColInt [200; 190; 180; 170; 160; 150; 140; 130; 120; 110; 100;
                        90; 80; 70; 60; 50; 40; 30; 20; 10])].

Definition scale_rfm_columns (data : loc) : M loc :=
  do rc <- getitem data "Recency";
  do r <- lift (qcut_col rc ["1"; "2"; "3"; "4"]);
  setitem data "R" r;;
  do fc <- getitem data "Frequency";
  do f <- lift (qcut_col fc ["4"; "3"; "2"; "1"]);
  setitem data "F" f;;
  do mc <- getitem data "Monetary";
  do m <- lift (qcut_col mc ["4"; "3"; "2"; "1"]);
  setitem data "M" m;;
  ret data.

(** ** Score aggregator *)

Definition digit_of (c : ascii) : option Z :=
  let n := Z.of_nat (nat_of_ascii c) in
  if decide (48 ≤ n ≤ 57)%Z then Some (n - 48)%Z else None.

Fixpoint parse_digits (acc : Z) (s : string) : option Z :=
  match s with
  | EmptyString => Some acc
  | String c s' =>
      match digit_of c with
      | Some d => parse_digits (10 * acc + d) s'
      | None => None
      end
  end.

Definition parse_nat (s : string) : option Z :=
  match s with
  | EmptyString => None
  | _ => parse_digits 0 s
  end.

(** Characters [int] skips or accepts besides a sign and ASCII digits:
    blanks, the underscore, and anything outside ASCII. *)
Definition lenient_char (c : ascii) : bool :=
  let n := nat_of_ascii c in
  bool_decide (n = 32 ∨ 9 ≤ n ≤ 13 ∨ n = 95 ∨ 128 ≤ n)%nat.

Fixpoint has_lenient (s : string) : bool :=
  match s with
  | EmptyString => false
  | String c s' => lenient_char c || has_lenient s'
  end.

(** [int(s)] on a str: a plain decimal numeral with an optional sign;
    [ValueError] otherwise. The numerals with blanks, underscores or
    non-ASCII digits are outside the model. *)
Definition py_int (s : string) : result Z :=
  let r := match s with
           | String "+" s' => parse_nat s'
           | String "-" s' => Z.opp <$> parse_nat s'
           | _ => parse_nat s
           end in
  match r with
  | Some z => Ok z
  | None => if has_lenient s then Unmodelled else Raise ValueError
  end.

(** The integer a label converts to. *)
Definition label_digit (l : string) : Z :=
  match py_int l with
  | Ok z => z
  | _ => 0
  end.

(** [Series.astype(int)]. A categorical converts its categories, all of
    them, and has no integer for a missing cell. The conversion of
    timestamps is outside the model. *)
Definition astype_int (c : column) : result (list Z) :=
  match c with
  | ColInt xs => Ok xs
  | ColDate _ => Unmodelled
  | ColStr xs => rmap py_int xs
  | ColCat cats xs =>
      if bool_decide (None ∈ xs) then Raise ValueError else
      if decide (xs = [] ∨ cats = []) then Ok [] else
      let? _ := rmap py_int cats in
      rmap py_int (omap id xs)
  end.

(** [Series.astype(str)]. The text of a timestamp is outside the model. *)
Definition astype_str (c : column) : result (list string) :=
  match c with
  | ColInt xs => Ok (pretty <$> xs)
  | ColDate _ => Unmodelled
  | ColStr xs => Ok xs
  | ColCat _ xs => Ok (from_option id "nan" <$> xs)
  end.

(** [data.name]: attribute access to a column. *)
Definition getattr (l : loc) (name : string) : M column :=
  do f <- deref l;
  match get_col f name with
  | Some c => ret c
  | None => raise AttributeError
  end.

(** [ndarray.take]: the cells at the positions [idx], in that order. *)
Definition take_idx {A} (l : list A) (idx : list nat) : list A :=
  omap (λ i, l !! i) idx.

Definition col_take (c : column) (idx : list nat) : column :=
  match c with
  | ColInt xs => ColInt (take_idx xs idx)
  | ColDate xs => ColDate (take_idx xs idx)
  | ColStr xs => ColStr (take_idx xs idx)
  | ColCat cats xs => ColCat cats (take_idx xs idx)
  end.

Definition frame_take (f : frame) (idx : list nat) : frame :=
  (λ '(n, c), (n, col_take c idx)) <$> f.

(** The sorting routine behind [sort_values]: numpy's [argsort] of the
    default kind (quicksort), which pandas documents as not stable. It is
    taken by its contract: the positions of the cells in an ascending
    order. *)
Class Argsort : Type := {
  argsort : ∀ {K : Type} (le : relation K) `{∀ x y, Decision (le x y)},
      list K → list nat;
  argsort_perm : ∀ {K : Type} (le : relation K) `{∀ x y, Decision (le x y)}
      (l : list K), argsort le l ≡ₚ seq 0 (length l);
  argsort_sorted : ∀ {K : Type} (le : relation K) `{∀ x y, Decision (le x y)},
      Transitive le → Total le →
      ∀ l : list K, Sorted le (take_idx l (argsort le l))
}.

(** A sorting routine that meets the contract: the positions are sorted by
    their cells, and positions of equal cells by [tie]. With [le] on the
    positions the routine is stable. *)
Definition keyed_le {K : Type} (le : relation K) (tie : relation nat)
  : relation (nat * K) :=
  λ p q, le p.2 q.2 ∧ (le q.2 p.2 → tie p.1 q.1).

Definition argsort_by (tie : relation nat) `{∀ i j, Decision (tie i j)}
    {K : Type} (le : relation K) `{∀ x y, Decision (le x y)} (l : list K)
  : list nat :=
  (merge_sort (keyed_le le tie) (zip (seq 0 (length l)) l)).*1.

(** *** numpy's quicksort

    [ndarray.argsort(kind='quicksort')] on an array of Python objects, as
    the RFM_Segment column is: numpy's generic [npy_aquicksort]
    ([numpy/core/src/npysort/quicksort.cpp]), an introsort on the array
    [tosort] of positions, first [0 .. num-1]. Pointers into [tosort] are
    positions in the list [t]; the loops take fuel, of which the length of
    the array is enough. *)

Section npy_aquicksort.
Context {K : Type} (le : relation K) `{∀ x y, Decision (le x y)}.
Context (v : list K).

(** [cmp(v + a*elsize, v + b*elsize, arr) < 0]: the cell at [a] is below the
    cell at [b]. *)
Definition cmp_lt (a b : nat) : bool :=
  match v !! a, v !! b with
  | Some x, Some y => bool_decide (le x y ∧ ¬ le y x)
  | _, _ => false
  end.

(** [INTP_SWAP(t[i], t[j])] *)
Definition intp_swap (t : list nat) (i j : nat) : list nat :=
  <[j := t !!! i]> (<[i := t !!! j]> t).

(** [do { ++pi; } while (cmp(v + *pi * elsize, vp, arr) < 0);] *)
Fixpoint scan_up (fuel : nat) (t : list nat) (vp pi : nat) : nat :=
  match fuel with
  | O => pi
  | S fuel =>
      let pi := S pi in
      if cmp_lt (t !!! pi) vp then scan_up fuel t vp pi else pi
  end.

(** [do { --pj; } while (cmp(vp, v + *pj * elsize, arr) < 0);] *)
Fixpoint scan_down (fuel : nat) (t : list nat) (vp pj : nat) : nat :=
  match fuel with
  | O => pj
  | S fuel =>
      let pj := pred pj in
      if cmp_lt vp (t !!! pj) then scan_down fuel t vp pj else pj
  end.

(** [for (;;) { scan up; scan down; if (pi >= pj) break;
    INTP_SWAP( *pi, *pj); }] *)
Fixpoint exchange (fuel : nat) (t : list nat) (vp pi pj : nat)
  : list nat * nat :=
  match fuel with
  | O => (t, pi)
  | S fuel =>
      let pi := scan_up (length t) t vp pi in
      let pj := scan_down (length t) t vp pj in
      if decide (pj ≤ pi)%nat then (t, pi)
      else exchange fuel (intp_swap t pi pj) vp pi pj
  end.

(** One partition of [t[pl..pr]]: the median of the first, middle and last
    cell is the pivot, kept at [pr - 1] during the exchanges and put at
    [pi] after them. *)
Definition partition (t : list nat) (pl pr : nat) : list nat * nat :=
  let pm := (pl + (pr - pl) / 2)%nat in
  let t := if cmp_lt (t !!! pm) (t !!! pl) then intp_swap t pm pl else t in
  let t := if cmp_lt (t !!! pr) (t !!! pm) then intp_swap t pr pm else t in
  let t := if cmp_lt (t !!! pm) (t !!! pl) then intp_swap t pm pl else t in
  let vp := t !!! pm in
  let pj := (pr - 1)%nat in
  let t := intp_swap t pm pj in
  let '(t, pi) := exchange (length t) t vp pl pj in
  (intp_swap t pi (pr - 1)%nat, pi).

(** The stack of the parts still to sort, each with the depth left for it
    ([stack] and [depth] of the C code, pushed and popped together). *)
Definition qs_stack : Type := list (nat * nat * Z).

(** [while ((pr - pl) > SMALL_QUICKSORT) { partition; push the larger part;
    *psdepth++ = --cdepth; }], with [SMALL_QUICKSORT] 16. *)
Fixpoint partitions (fuel : nat) (t : list nat) (pl pr : nat) (cdepth : Z)
    (stack : qs_stack) : list nat * nat * nat * qs_stack :=
  match fuel with
  | O => (t, pl, pr, stack)
  | S fuel =>
      if decide (16 < pr - pl)%nat then
        let '(t, pi) := partition t pl pr in
        let cdepth := (cdepth - 1)%Z in
        if decide (pi - pl < pr - pi)%nat
        then partitions fuel t pl (pi - 1)%nat cdepth ((S pi, pr, cdepth) :: stack)
        else partitions fuel t (S pi) pr cdepth ((pl, (pi - 1)%nat, cdepth) :: stack)
      else (t, pl, pr, stack)
  end.

(** [while (pj > pl && cmp(vp, v + *pk * elsize, arr) < 0) { *pj-- = *pk--; }
    *pj = vi;] with [pk = pj - 1]. *)
Fixpoint shift_up (fuel : nat) (t : list nat) (pl vi pj : nat) : list nat :=
  match fuel with
  | O => <[pj := vi]> t
  | S fuel =>
      if bool_decide (pl < pj)%nat && cmp_lt vi (t !!! (pj - 1)%nat)
      then shift_up fuel (<[pj := t !!! (pj - 1)%nat]> t) pl vi (pj - 1)%nat
      else <[pj := vi]> t
  end.

(** The insertion sort of a part of at most 17 cells:
    [for (pi = pl + 1; pi <= pr; ++pi)]. *)
Definition insertion_sort (t : list nat) (pl pr : nat) : list nat :=
  foldl (λ t pi, shift_up (length t) t pl (t !!! pi) pi) t
        (seq (S pl) (pr - pl)).

(** [npy_aheapsort] ([heapsort.cpp]), which sorts a part whose depth is
    used up; [a] is the part, counted from 1. The inner loop
    [for (i, j; j <= n;)] sifts [tmp] down from [i]. *)
Fixpoint sift_down (fuel : nat) (t : list nat) (a : nat → nat) (n tmp i j : nat)
  : list nat :=
  match fuel with
  | O => <[a i := tmp]> t
  | S fuel =>
      if decide (j ≤ n)%nat then
        let j := if bool_decide (j < n)%nat
                      && cmp_lt (t !!! a j) (t !!! a (S j))
                 then S j else j in
        if cmp_lt tmp (t !!! a j)
        then sift_down fuel (<[a i := t !!! a j]> t) a n tmp j (j + j)%nat
        else <[a i := tmp]> t
      else <[a i := tmp]> t
  end.

(** [for (; n > 1;) { tmp = a[n]; a[n] = a[1]; n -= 1; sift tmp down; }] *)
Fixpoint sort_down (fuel : nat) (t : list nat) (a : nat → nat) (n : nat)
  : list nat :=
  match fuel with
  | O => t
  | S fuel =>
      if decide (1 < n)%nat then
        let tmp := t !!! a n in
        let t := <[a n := t !!! a 1%nat]> t in
        let n := (n - 1)%nat in
        sort_down fuel (sift_down (length t) t a n tmp 1 2) a n
      else t
  end.

Definition npy_aheapsort (t : list nat) (pl n : nat) : list nat :=
  let a := λ k, (pl + k - 1)%nat in
  let t := foldl (λ t l, sift_down (length t) t a n (t !!! a l) l (l + l)%nat) t
             (reverse (seq 1 (n / 2))) in
  sort_down n t a n.

(** The outer loop [while (1)]: a part whose depth is used up goes to the
    heapsort, another one is partitioned down to at most 17 cells, which
    the insertion sort sorts; then the next part is popped. *)
Fixpoint qs_loop (fuel : nat) (t : list nat) (pl pr : nat) (cdepth : Z)
    (stack : qs_stack) : list nat :=
  match fuel with
  | O => t
  | S fuel =>
      let '(t, stack) :=
        if decide (cdepth < 0)%Z then (npy_aheapsort t pl (pr - pl + 1), stack)
        else
          let '(t, pl, pr, stack) := partitions (length t) t pl pr cdepth stack in
          (insertion_sort t pl pr, stack) in
      match stack with
      | [] => t
      | (pl, pr, cdepth) :: stack => qs_loop fuel t pl pr cdepth stack
      end
  end.

(** [cdepth = npy_get_msb(num) * 2] *)
Definition npy_aquicksort : list nat :=
  let num := length v in
  qs_loop (S num) (seq 0 num) 0 (num - 1) (Z.log2 (Z.of_nat num) * 2) [].
End npy_aquicksort.

(** A routine as one that meets the contract for every relation: its
    result where that is a sorting permutation of the positions, the stable
    order where it is not (on a relation that is no total order the C
    routine may read outside the array). For numpy's routine on a total
    order the first is the case wherever numpy sorts, a fact of numpy that
    is not proved here; the examples below show it on their cells. *)
Definition checked {K : Type} (le : relation K) `{∀ x y, Decision (le x y)}
    (l : list K) (r : list nat) : list nat :=
  if decide (merge_sort Nat.le r = seq 0 (length l) ∧ Sorted le (take_idx l r))
  then r else argsort_by Nat.le le l.

(** pandas' [nargsort]: for a descending order the cells are reversed,
    sorted ascending, and the positions found are mapped back and
    reversed. *)
Definition nargsort `{Argsort} {K : Type} (le : relation K)
    `{∀ x y, Decision (le x y)} (items : list K) (ascending : bool) : list nat :=
  if ascending then argsort le items
  else reverse ((λ i, length items - 1 - i)%nat <$> argsort le (reverse items)).

(** The sort key of a column. The order of a categorical (by code, missing
    cells last) is outside the model. *)
Definition col_argsort `{Argsort} (c : column) (ascending : bool)
  : result (list nat) :=
  match c with
  | ColInt xs | ColDate xs => Ok (nargsort Z.le xs ascending)
  | ColStr xs => Ok (nargsort String.le xs ascending)
  | ColCat _ _ => Unmodelled
  end.

(** [data.sort_values(by, ascending=...)]: a new frame. *)
Definition sort_values `{Argsort} (data : loc) (by_ : string) (ascending : bool)
  : M loc :=
  do f <- deref data;
  do k <- getitem data by_;
  do idx <- lift (col_argsort k ascending);
  alloc (frame_take f idx).

Definition zip3_with {A B C D} (f : A → B → C → D)
    (l1 : list A) (l2 : list B) (l3 : list C) : list D :=
  zip_with (λ ab c, f ab.1 ab.2 c) (zip l1 l2) l3.

(** Two customers whose R labels are 9 and 10 (a table no encoder returns,
    but one [rfm_scores] accepts). *)
Definition example_wide_labels : frame :=
  [("id", ColInt [1; 2]); ("R", ColInt [10; 9]); ("F", ColInt [1; 1]);
   ("M", ColInt [1; 1])].

Definition rfm_scores `{Argsort} (data : loc) : M loc :=
  do r <- getattr data "R"; do ri <- lift (astype_int r);
  do f <- getattr data "F"; do fi <- lift (astype_int f);
  do m <- getattr data "M"; do mi <- lift (astype_int m);
  setitem data "RFM_Score" (ColInt (zip3_with (λ a b c, a + b + c) ri fi mi));;
  do r <- getattr data "R"; do rs <- lift (astype_str r);
  do f <- getattr data "F"; do fs <- lift (astype_str f);
  do m <- getattr data "M"; do ms <- lift (astype_str m);
  setitem data "RFM_Segment" (ColStr (zip3_with (λ a b c, a ++ b ++ c) rs fs ms));;
  do data' <- sort_values data "RFM_Segment" false;
  ret data'.

Definition top_customers `{Argsort} (data : loc) : M loc :=
  do data' <- sort_values data "RFM_Segment" false;
  ret data'.

(** * Properties *)

(** ** Results and the store monad *)

Lemma rmap_Forall2 {A B} (f : A → result B) (l : list A) (l' : list B) :
  rmap f l = Ok l' → Forall2 (λ a b, f a = Ok b) l l'.
Proof.
  revert l'. induction l as [|a l IH]; simpl; intros l' E.
  - injection E as <-. constructor.
  - destruct (f a) as [b| |] eqn:Ea; simpl in E; try discriminate.
    destruct (rmap f l) as [bs| |]; simpl in E; try discriminate.
    injection E as <-. constructor; auto.
Qed.

Lemma rmap_ok {A B} (f : A → result B) (g : A → B) (l : list A) :
  (∀ a, a ∈ l → f a = Ok (g a)) → rmap f l = Ok (g <$> l).
Proof.
  induction l as [|a l IH]; simpl; intros Hf; [done|].
  rewrite Hf by left. simpl. rewrite IH; [done|].
  intros b Hb. apply Hf. by right.
Qed.

(** ** Frames *)

Lemma get_set_col_eq (f : frame) (n : string) (c : column) :
  get_col (set_col f n c) n = Some c.
Proof.
  induction f as [|[n' c'] f IH]; simpl.
  - by rewrite decide_True.
  - destruct (decide (n' = n)) as [->|Hne]; simpl.
    + by rewrite decide_True.
    + by rewrite decide_False.
Qed.

Lemma get_set_col_ne (f : frame) (n n' : string) (c : column) :
  n ≠ n' → get_col (set_col f n c) n' = get_col f n'.
Proof.
  intros Hne. induction f as [|[n0 c0] f IH]; simpl.
  - by rewrite decide_False.
  - destruct (decide (n0 = n)) as [->|Hn0]; simpl.
    + by rewrite !decide_False.
    + by rewrite IH.
Qed.

(** ** Segment classifier *)

Lemma naming_int (df : row) (score : Z) :
  row_get df "RFM_Score" = Some (VInt score) →
  naming df = Ok (if (9 <=? score)%Z then "Can't Loose Them"
                  else if (score =? 8)%Z then "Champions"
                  else if (score =? 7)%Z then "Loyal/Commited"
                  else if (score =? 6)%Z then "Potential"
                  else if (score =? 5)%Z then "Promising"
                  else if (score =? 4)%Z then "Requires Attention"
                  else "Demands Activation").
Proof.
  intros Hs. unfold naming, in_range, row_getitem. rewrite Hs. simpl.
  repeat match goal with
  | |- context [(?a <=? ?b)%Z] => destruct (Z.leb_spec a b); simpl
  | |- context [(?a <? ?b)%Z] => destruct (Z.ltb_spec a b); simpl
  | |- context [(?a =? ?b)%Z] => destruct (Z.eqb_spec a b); simpl
  end; try reflexivity; lia.
Qed.

Lemma naming_score_only (df df' : row) :
  row_get df "RFM_Score" = row_get df' "RFM_Score" → naming df = naming df'.
Proof.
  intros E. unfold naming, in_range, row_getitem. rewrite E. reflexivity.
Qed.

Lemma apply_naming_rows (f : frame) (c : column) :
  apply_naming f = Ok c →
  ∃ names, c = ColStr names ∧ Forall2 (λ r n, naming r = Ok n) (rows f) names.
Proof.
  unfold apply_naming. case_decide; [done|].
  destruct (rmap naming (rows f)) as [names| |] eqn:E; simpl; try done.
  intros [= <-]. exists names. split; [done|]. by apply rmap_Forall2.
Qed.

(** C1. The segment classifier is a total function of RFM_Score alone: on
    an integer score it returns one of the seven labels, "Can't Loose Them"
    iff the score is at least 9, "Champions" iff 8, "Loyal/Commited" iff 7,
    "Potential" iff 6, "Promising" iff 5, "Requires Attention" iff 4 and
    "Demands Activation" iff below 4; two rows of the same RFM_Score get the
    same name; and [give_names_to_segments] stores, for each row, the name
    [naming] gives it. *)
Theorem C1_naming_total_by_score :
  (∀ (df : row) (score : Z),
     row_get df "RFM_Score" = Some (VInt score) →
     ∃ name, naming df = Ok name ∧ name ∈ segment_names ∧
       (name = "Can't Loose Them" ↔ (9 ≤ score)%Z) ∧
       (name = "Champions" ↔ score = 8) ∧
       (name = "Loyal/Commited" ↔ score = 7) ∧
       (name = "Potential" ↔ score = 6) ∧
       (name = "Promising" ↔ score = 5) ∧
       (name = "Requires Attention" ↔ score = 4) ∧
       (name = "Demands Activation" ↔ (score < 4)%Z)) ∧
  (∀ df df' : row,
     row_get df "RFM_Score" = row_get df' "RFM_Score" → naming df = naming df') ∧
  (∀ (data : loc) (h h' : store) (r : loc),
     give_names_to_segments data h = (Ok r, h') →
     ∃ f names, h' !! r = Some f ∧
       get_col f "Segment_Name" = Some (ColStr names) ∧
       Forall2 (λ df n, naming df = Ok n) (rows (default [] (h !! data))) names).
Proof.
  split; [|split].
  - intros df score Hs. eexists. split; [by apply naming_int|].
    unfold segment_names.
    repeat match goal with
    | |- context [(?a <=? ?b)%Z] => destruct (Z.leb_spec a b)
    | |- context [(?a =? ?b)%Z] => destruct (Z.eqb_spec a b)
    end;
    (split; [set_solver|]); repeat split; intros; try discriminate; try lia; try done.
  - apply naming_score_only.
  - intros data h h' r. unfold give_names_to_segments, bind, deref, lift, setitem, ret.
    destruct (apply_naming _) as [c| |] eqn:E; try done.
    intros [= <- <-]. apply apply_naming_rows in E as (names & -> & HF).
    eexists _, names. rewrite lookup_insert_eq. split; [done|]. split; [|done].
    apply get_set_col_eq.
Qed.

Lemma C1_naming_total_by_score_witness :
  ∃ name, naming [("id", VStr "C1"); ("RFM_Score", VInt 8)] = Ok name ∧
          name = "Champions".
Proof.
  destruct (proj1 C1_naming_total_by_score
              [("id", VStr "C1"); ("RFM_Score", VInt 8)] 8 eq_refl)
    as (name & Hn & _ & _ & Hc & _).
  exists name. split; [exact Hn|]. apply Hc. reflexivity.
Defined.

(** ** Metric deriver *)

Lemma zmax_list_spec (xs : list Z) (m : Z) :
  zmax_list xs = Some m → m ∈ xs ∧ ∀ x, x ∈ xs → (x ≤ m)%Z.
Proof.
  destruct xs as [|x xs]; simpl; [done|]. intros [= <-].
  induction xs as [|y xs [IH1 IH2]]; simpl.
  - split; [left|]. intros z ->%list_elem_of_singleton. lia.
  - split.
    + destruct (Z.max_spec y (foldr Z.max x xs)) as [[_ ->]|[_ ->]].
      * apply elem_of_cons in IH1 as [E|E]; [rewrite E; left|right; by right].
      * right; left.
    + intros z Hz. apply elem_of_cons in Hz as [->|Hz].
      * specialize (IH2 x (ltac:(left))). lia.
      * apply elem_of_cons in Hz as [->|Hz]; [lia|].
        specialize (IH2 z (ltac:(by right))). lia.
Qed.

Lemma zmax_list_is_Some (xs : list Z) : xs ≠ [] → is_Some (zmax_list xs).
Proof. destruct xs; [done|]. simpl. eauto. Qed.

Lemma timedelta_days_nonneg (d : Z) : (0 ≤ d)%Z → (0 ≤ timedelta_days d)%Z.
Proof. intros. unfold timedelta_days, ns_per_day. apply Z.div_pos; lia. Qed.

Section groups.
Context {K : Type} `{EqDecision K}.

Lemma elem_of_group_of {V} (ks : list K) (vs : list V) (k : K) (v : V) :
  v ∈ group_of ks vs k → v ∈ vs.
Proof.
  unfold group_of. intros ([k' v'] & -> & Hin)%list_elem_of_fmap.
  apply list_elem_of_filter in Hin as [_ Hin].
  revert vs Hin. induction ks as [|k0 ks IH]; intros [|v0 vs]; simpl;
    try (by intros ?%elem_of_nil).
  intros [[= _ ->]|Hin]%elem_of_cons; [left|right; eauto].
Qed.

Lemma group_of_nonempty {V} (ks : list K) (vs : list V) (k : K) :
  length ks = length vs → k ∈ ks → group_of ks vs k ≠ [].
Proof.
  unfold group_of. revert vs. induction ks as [|k0 ks IH]; intros [|v0 vs]; simpl;
    try done; try (by intros _ ?%elem_of_nil).
  intros [= Hl] Hin. rewrite filter_cons. simpl.
  destruct (decide (k0 = k)) as [->|Hne]; simpl; [done|].
  apply elem_of_cons in Hin as [->|Hin]; [done|]. by apply IH.
Qed.

Lemma group_of_self_length (ks : list K) (k : K) :
  length (group_of ks ks k) = length (filter (λ k', k' = k) ks).
Proof.
  unfold group_of. rewrite length_fmap.
  induction ks as [|k0 ks IH]; simpl; [done|].
  rewrite !filter_cons. simpl. destruct (decide (k0 = k)); simpl; by rewrite IH.
Qed.

Context (R : relation K) `{∀ x y, Decision (R x y)}.

Lemma group_keys_NoDup (ks : list K) : NoDup (group_keys R ks).
Proof.
  unfold group_keys. rewrite merge_sort_Permutation. apply NoDup_remove_dups.
Qed.

Lemma elem_of_group_keys (ks : list K) (k : K) : k ∈ group_keys R ks ↔ k ∈ ks.
Proof.
  unfold group_keys. rewrite merge_sort_Permutation. apply elem_of_remove_dups.
Qed.

Lemma group_keys_Sorted `{!Total R} (ks : list K) : Sorted R (group_keys R ks).
Proof. apply Sorted_merge_sort, _. Qed.
End groups.

(** ** Running the store monad *)

Lemma bind_run {A B} (m : M A) (k : A → M B) (h h' : store) (a : A) :
  m h = (Ok a, h') → bind m k h = k a h'.
Proof. unfold bind. by intros ->. Qed.

Lemma bind_raise {A B} (m : M A) (k : A → M B) (h h' : store) (e : exn) :
  m h = (Raise e, h') → bind m k h = (Raise e, h').
Proof. unfold bind. by intros ->. Qed.

Lemma bind_ok_inv {A B} (m : M A) (k : A → M B) (h h' : store) (b : B) :
  bind m k h = (Ok b, h') → ∃ a h1, m h = (Ok a, h1) ∧ k a h1 = (Ok b, h').
Proof.
  unfold bind. destruct (m h) as [[a| |] h1]; try done. eauto.
Qed.

Lemma getitem_run (h : store) (l : loc) (f : frame) (n : string) (c : column) :
  h !! l = Some f → get_col f n = Some c → getitem l n h = (Ok c, h).
Proof. intros Hl Hc. unfold getitem, bind, deref. simpl. rewrite Hl. simpl. by rewrite Hc. Qed.

Lemma getitem_missing (h : store) (l : loc) (f : frame) (n : string) :
  h !! l = Some f → get_col f n = None → getitem l n h = (Raise KeyError, h).
Proof. intros Hl Hc. unfold getitem, bind, deref. simpl. rewrite Hl. simpl. by rewrite Hc. Qed.

Lemma getitem_ok_inv (h h' : store) (l : loc) (n : string) (c : column) :
  getitem l n h = (Ok c, h') → h' = h ∧ get_col (default [] (h !! l)) n = Some c.
Proof.
  unfold getitem, bind, deref. simpl. destruct (get_col _ n); simpl; [|done].
  by intros [= -> ->].
Qed.

Lemma getattr_run (h : store) (l : loc) (f : frame) (n : string) (c : column) :
  h !! l = Some f → get_col f n = Some c → getattr l n h = (Ok c, h).
Proof. intros Hl Hc. unfold getattr, bind, deref. simpl. rewrite Hl. simpl. by rewrite Hc. Qed.

Lemma setitem_run (h : store) (l : loc) (f : frame) (n : string) (c : column) :
  h !! l = Some f → setitem l n c h = (Ok tt, <[l := set_col f n c]> h).
Proof. intros Hl. unfold setitem. by rewrite Hl. Qed.

Lemma alloc_fresh (h : store) (f : frame) :
  ∃ l, alloc f h = (Ok l, <[l := f]> h) ∧ h !! l = None.
Proof.
  exists (fresh (dom h)). split; [done|].
  apply not_elem_of_dom, is_fresh.
Qed.

Lemma dict_of_distinct {V} (a b c : string) (x y z : V) :
  NoDup [a; b; c] → dict_of [(a, x); (b, y); (c, z)] = [(a, x); (b, y); (c, z)].
Proof.
  intros Hnd. apply NoDup_cons in Hnd as [Ha Hnd].
  apply NoDup_cons in Hnd as [Hb _].
  unfold dict_of. simpl.
  rewrite (decide_False (P := a = b)) by set_solver. simpl.
  rewrite (decide_False (P := a = c)) by set_solver.
  rewrite (decide_False (P := b = c)) by set_solver. done.
Qed.

Section aggregation.
Context {K : Type} `{EqDecision K}.
Context (cell : K → value) `{!Inj (=) (=) cell}.
Context (ks : list K) (ds rs : list Z).
Hypothesis Hds : length ks = length ds.
Hypothesis Hrs : length ks = length rs.

Lemma group_of_inj {V} (vs : list V) (k : K) :
  group_of (cell <$> ks) vs (cell k) = group_of ks vs k.
Proof.
  unfold group_of. clear Hds Hrs. revert vs.
  induction ks as [|k0 l IH]; intros [|v0 vs]; simpl; try done.
  rewrite !filter_cons. simpl.
  destruct (decide (k0 = k)) as [->|Hne].
  - rewrite decide_True by done. simpl. f_equal. apply IH.
  - rewrite decide_False by (intros E; by apply (inj cell) in E). apply IH.
Qed.

Lemma filter_eq_inj_length (k : K) :
  length (filter (λ v, v = cell k) (cell <$> ks)) = length (group_of ks ks k).
Proof.
  rewrite group_of_self_length. clear Hds Hrs.
  induction ks as [|k0 l IH]; simpl; [done|].
  rewrite !filter_cons.
  destruct (decide (k0 = k)) as [->|Hne].
  - rewrite decide_True by done. simpl. f_equal. apply IH.
  - rewrite decide_False by (intros E; by apply (inj cell) in E). apply IH.
Qed.

Lemma agg_recency_run (gks : list K) :
  (∀ k, k ∈ gks → k ∈ ks) →
  agg_one ks gks (col_max (ColDate ds)) (ColDate ds) AggRecency =
  Ok (ColInt ((λ k, timedelta_days (default 0 (zmax_list ds)
                     - default 0 (zmax_list (group_of ks ds k)))) <$> gks)).
Proof using Hds.
  intros Hsub. unfold agg_one.
  erewrite rmap_ok; [done|]. intros k Hk%Hsub. simpl.
  destruct (zmax_list_is_Some (group_of ks ds k)) as [cmax Hc];
    [by apply group_of_nonempty|].
  destruct (zmax_list_is_Some ds) as [gmax Hg].
  { intros E. rewrite E in Hds. apply nil_length_inv in Hds.
    rewrite Hds in Hk. by apply elem_of_nil in Hk. }
  rewrite Hc, Hg. done.
Qed.

(** What the aggregates say, row by row, in terms of the cells of the key
    column. *)
Lemma agg_rows (gks : list K) (i : nat) (v : value) :
  (∀ k, k ∈ gks → k ∈ ks) →
  (cell <$> gks) !! i = Some v →
  let keys := cell <$> ks in
  ((λ k, Z.of_nat (length (group_of ks ks k))) <$> gks) !! i
    = Some (Z.of_nat (length (filter (λ k, k = v) keys))) ∧
  ((λ k, zsum (group_of ks rs k)) <$> gks) !! i
    = Some (zsum (group_of keys rs v)) ∧
  ∃ gmax cmax,
    zmax_list ds = Some gmax ∧ zmax_list (group_of keys ds v) = Some cmax ∧
    ((λ k, timedelta_days (default 0 (zmax_list ds)
             - default 0 (zmax_list (group_of ks ds k)))) <$> gks) !! i
      = Some (timedelta_days (gmax - cmax)) ∧
    (cmax ≤ gmax)%Z.
Proof.
  intros Hsub Hi. simpl.
  apply list_lookup_fmap_Some in Hi as (k & -> & Hk).
  assert (k ∈ ks) as Hin by (apply Hsub; by eapply list_elem_of_lookup_2).
  rewrite !list_lookup_fmap, Hk. simpl.
  rewrite filter_eq_inj_length, !group_of_inj. split; [done|]. split; [done|].
  destruct (zmax_list_is_Some (group_of ks ds k)) as [cmax Hc];
    [by apply group_of_nonempty|].
  destruct (zmax_list_is_Some ds) as [gmax Hg].
  { intros ->. destruct ks; [by apply elem_of_nil in Hin|done]. }
  exists gmax, cmax. rewrite Hc, Hg. simpl. repeat split; try done.
  apply zmax_list_spec in Hc as [Hc _]. apply zmax_list_spec in Hg as [_ Hg].
  apply Hg. by eapply elem_of_group_of.
Qed.
End aggregation.

Lemma create_rfm_columns_run (h : store) (data : loc) (f : frame)
    (id dates revenue : string) (cid cdates crev : column) :
  h !! data = Some f →
  NoDup [dates; id; revenue] →
  get_col f id = Some cid → get_col f dates = Some cdates →
  get_col f revenue = Some crev →
  create_rfm_columns data id dates revenue h =
  bind (lift (groupby_agg (col_max cdates) cid
                [(cdates, AggRecency); (cid, AggLen); (crev, AggSum)]))
    (λ df, match df.2 with
           | [rec; freq; mon] =>
               if bool_decide (id ∈ rfm_column_names) then raise ValueError else
               alloc [(id, df.1); ("Recency", rec); ("Frequency", freq);
                      ("Monetary", mon)]
           | _ => raise ValueError
           end) h.
Proof.
  intros Hh Hnd Hid Hdates Hrev. unfold create_rfm_columns.
  rewrite (bind_run _ _ h h cdates) by by eapply getitem_run.
  rewrite (bind_run _ _ h h cid) by by eapply getitem_run.
  rewrite dict_of_distinct by done.
  erewrite (bind_run (mapM _ _) _ h h); [done|].
  simpl.
  rewrite (bind_run _ _ h h (cdates, AggRecency))
    by (by rewrite (bind_run _ _ h h cdates) by by eapply getitem_run).
  rewrite (bind_run _ _ h h [(cid, AggLen); (crev, AggSum)]); [done|].
  rewrite (bind_run _ _ h h (cid, AggLen))
    by (by rewrite (bind_run _ _ h h cid) by by eapply getitem_run).
  rewrite (bind_run _ _ h h [(crev, AggSum)]); [done|].
  rewrite (bind_run _ _ h h (crev, AggSum))
    by (by rewrite (bind_run _ _ h h crev) by by eapply getitem_run).
  done.
Qed.

Lemma agg_three_run {K : Type} `{EqDecision K} (ks gks : list K) (ds rs : list Z)
    (cid : column) :
  length ks = length ds →
  (∀ k, k ∈ gks → k ∈ ks) →
  (∀ k, col_len (col_group ks cid k) = length (group_of ks ks k)) →
  rmap (λ e, agg_one ks gks (col_max (ColDate ds)) e.1 e.2)
    [(ColDate ds, AggRecency); (cid, AggLen); (ColInt rs, AggSum)] =
  Ok [ColInt ((λ k, timedelta_days (default 0 (zmax_list ds)
                      - default 0 (zmax_list (group_of ks ds k)))) <$> gks);
      ColInt ((λ k, Z.of_nat (length (group_of ks ks k))) <$> gks);
      ColInt ((λ k, zsum (group_of ks rs k)) <$> gks)].
Proof.
  intros Hds Hsub Hlen. cbn [rmap fst snd].
  rewrite agg_recency_run by done. cbn [rbind agg_one agg_sum].
  do 3 f_equal. f_equal. apply list_fmap_ext. intros _ k _. by rewrite Hlen.
Qed.

Local Instance VInt_inj : Inj (=) (=) VInt.
Proof. by intros ?? [= ->]. Qed.
Local Instance VDate_inj : Inj (=) (=) VDate.
Proof. by intros ?? [= ->]. Qed.
Local Instance VStr_inj : Inj (=) (=) VStr.
Proof. by intros ?? [= ->]. Qed.

(** C4. On a transaction table whose date column holds timestamps and
    whose revenue column holds integers, [create_rfm_columns] returns a new
    table with one row per distinct customer identifier, whose Frequency is
    the number of rows of that customer, whose Monetary is the sum of their
    revenues and whose Recency is the whole days from the customer's latest
    date to the latest date of the table, which is never negative; on the
    three transactions of the example it gives C1: 9, 2, 150 and
    C2: 0, 1, 500. *)
Theorem C4_create_rfm_columns_metrics :
  (∀ (h : store) (data : loc) (f : frame) (id dates revenue : string)
     (cid : column) (ds rs : list Z),
     h !! data = Some f →
     NoDup [dates; id; revenue] → id ∉ rfm_column_names →
     get_col f id = Some cid → (∀ cats xs, cid ≠ ColCat cats xs) →
     get_col f dates = Some (ColDate ds) →
     get_col f revenue = Some (ColInt rs) →
     col_len cid = length ds → col_len cid = length rs →
     ∃ (l : loc) (key : column) (rec freq mon : list Z),
       create_rfm_columns data id dates revenue h =
         (Ok l, <[l := [(id, key); ("Recency", ColInt rec);
                        ("Frequency", ColInt freq); ("Monetary", ColInt mon)]]> h) ∧
       h !! l = None ∧
       NoDup (col_values key) ∧
       (∀ v, v ∈ col_values key ↔ v ∈ col_values cid) ∧
       length rec = col_len key ∧ length freq = col_len key ∧
       length mon = col_len key ∧
       ∀ (i : nat) (v : value), col_values key !! i = Some v →
         freq !! i = Some (Z.of_nat (length (filter (λ k, k = v) (col_values cid)))) ∧
         mon !! i = Some (zsum (group_of (col_values cid) rs v)) ∧
         ∃ gmax cmax : Z,
           zmax_list ds = Some gmax ∧
           zmax_list (group_of (col_values cid) ds v) = Some cmax ∧
           rec !! i = Some (timedelta_days (gmax - cmax)) ∧
           (0 ≤ timedelta_days (gmax - cmax))%Z) ∧
  (create_rfm_columns 0%nat "customer" "date" "revenue"
     {[ 0%nat := example_transactions ]}).1 = Ok 1%nat ∧
  (create_rfm_columns 0%nat "customer" "date" "revenue"
     {[ 0%nat := example_transactions ]}).2 !! 1%nat =
    Some [("customer", ColStr ["C1"; "C2"]); ("Recency", ColInt [9; 0]);
          ("Frequency", ColInt [2; 1]); ("Monetary", ColInt [150; 500])].
Proof.
  split; [|split; vm_compute; reflexivity].
  intros h data f id dates revenue cid ds rs Hh Hnd Hid Hcid Hcat Hdates Hrev Hl1 Hl2.
  erewrite create_rfm_columns_run by done.
  assert (∀ (K : Type) `{EqDecision K} (cell : K → value) `{!Inj (=) (=) cell}
            (ks gks : list K) (C : list K → column),
    (∀ l, col_values (C l) = cell <$> l) →
    cid = C ks → NoDup gks → (∀ k, k ∈ gks ↔ k ∈ ks) →
    (∀ k, col_len (col_group ks cid k) = length (group_of ks ks k)) →
    let rec := (λ k, timedelta_days (default 0 (zmax_list ds)
                      - default 0 (zmax_list (group_of ks ds k)))) <$> gks in
    let freq := (λ k, Z.of_nat (length (group_of ks ks k))) <$> gks in
    let mon := (λ k, zsum (group_of ks rs k)) <$> gks in
    rmap (λ e, agg_one ks gks (col_max (ColDate ds)) e.1 e.2)
      [(ColDate ds, AggRecency); (cid, AggLen); (ColInt rs, AggSum)] =
    Ok [ColInt rec; ColInt freq; ColInt mon] ∧
    NoDup (col_values (C gks)) ∧
    (∀ v, v ∈ col_values (C gks) ↔ v ∈ col_values cid) ∧
    length rec = col_len (C gks) ∧ length freq = col_len (C gks) ∧
    length mon = col_len (C gks) ∧
    ∀ (i : nat) (v : value), col_values (C gks) !! i = Some v →
      freq !! i = Some (Z.of_nat (length (filter (λ k, k = v) (col_values cid)))) ∧
      mon !! i = Some (zsum (group_of (col_values cid) rs v)) ∧
      ∃ gmax cmax : Z,
        zmax_list ds = Some gmax ∧
        zmax_list (group_of (col_values cid) ds v) = Some cmax ∧
        rec !! i = Some (timedelta_days (gmax - cmax)) ∧
        (0 ≤ timedelta_days (gmax - cmax))%Z) as Hgen.
  { intros K ? cell ? ks gks C HC -> Hnd' Hsub Hlen rec freq mon.
    assert (length ks = length ds) as Hds.
    { revert Hl1. unfold col_len. rewrite HC, length_fmap. done. }
    assert (length ks = length rs) as Hrs.
    { revert Hl2. unfold col_len. rewrite HC, length_fmap. done. }
    split; [apply agg_three_run; [done| |done]; intros k; apply Hsub|].
    unfold col_len, rec, freq, mon. rewrite !HC, !length_fmap.
    split; [by apply (NoDup_fmap_2 _)|].
    split; [intros v; rewrite !list_elem_of_fmap; naive_solver|].
    do 3 (split; [reflexivity|]).
    intros i v Hi.
    destruct (agg_rows cell ks ds rs Hds Hrs gks i v)
      as (Hf & Hm & gmax & cmax & Hg & Hc & Hr & Hle);
      [intros k; apply Hsub|done|].
    split; [done|]. split; [done|]. exists gmax, cmax.
    repeat split; try done. apply timedelta_days_nonneg. lia. }
  assert (∀ key rec freq mon, ∃ l,
    (if bool_decide (id ∈ rfm_column_names) then raise ValueError else
       alloc [(id, key); ("Recency", rec); ("Frequency", freq); ("Monetary", mon)]) h
    = (Ok l, <[l := [(id, key); ("Recency", rec); ("Frequency", freq);
                     ("Monetary", mon)]]> h) ∧ h !! l = None) as Hal.
  { intros. rewrite bool_decide_eq_false_2 by done. apply alloc_fresh. }
  destruct cid as [ks|ks|ks|cats xs]; [| | |by destruct (Hcat cats xs)].
  - destruct (Hgen Z _ VInt _ ks (group_keys Z.le ks) ColInt)
      as (Hrun & H1 & H2 & H3 & H4 & H5 & H6);
      [done|done|apply group_keys_NoDup|apply elem_of_group_keys| |].
    { intros k. unfold col_len. simpl. by rewrite !length_fmap. }
    unfold bind, lift, groupby_agg. rewrite Hrun. cbn [rbind snd fst].
    edestruct Hal as (l & -> & Hfresh). eexists l, _, _, _, _. done.
  - destruct (Hgen Z _ VDate _ ks (group_keys Z.le ks) ColDate)
      as (Hrun & H1 & H2 & H3 & H4 & H5 & H6);
      [done|done|apply group_keys_NoDup|apply elem_of_group_keys| |].
    { intros k. unfold col_len. simpl. by rewrite !length_fmap. }
    unfold bind, lift, groupby_agg. rewrite Hrun. cbn [rbind snd fst].
    edestruct Hal as (l & -> & Hfresh). eexists l, _, _, _, _. done.
  - destruct (Hgen string _ VStr _ ks (group_keys String.le ks) ColStr)
      as (Hrun & H1 & H2 & H3 & H4 & H5 & H6);
      [done|done|apply group_keys_NoDup|apply elem_of_group_keys| |].
    { intros k. unfold col_len. simpl. by rewrite !length_fmap. }
    unfold bind, lift, groupby_agg. rewrite Hrun. cbn [rbind snd fst].
    edestruct Hal as (l & -> & Hfresh). eexists l, _, _, _, _. done.
Qed.

Lemma C4_create_rfm_columns_metrics_witness :
  ∃ (l : loc) (key : column) (rec freq mon : list Z),
    create_rfm_columns 0%nat "customer" "date" "revenue"
      {[ 0%nat := example_transactions ]} =
      (Ok l, <[l := [("customer", key); ("Recency", ColInt rec);
                     ("Frequency", ColInt freq); ("Monetary", ColInt mon)]]>
               {[ 0%nat := example_transactions ]}) ∧
    NoDup (col_values key) ∧ length freq = col_len key.
Proof.
  destruct (proj1 C4_create_rfm_columns_metrics
              {[ 0%nat := example_transactions ]} 0%nat example_transactions
              "customer" "date" "revenue" (ColStr ["C1"; "C1"; "C2"])
              [timestamp 2023 1 1; timestamp 2023 2 1; timestamp 2023 2 10]
              [100; 50; 500])
    as (l & key & rec & freq & mon & Hrun & _ & Hnd & _ & _ & Hlen & _).
  - reflexivity.
  - apply (bool_decide_unpack _). vm_compute. exact I.
  - apply (bool_decide_unpack _). vm_compute. exact I.
  - reflexivity.
  - intros cats xs. discriminate.
  - reflexivity.
  - reflexivity.
  - reflexivity.
  - reflexivity.
  - exists l, key, rec, freq, mon. split; [exact Hrun|]. split; [exact Hnd|exact Hlen].
Defined.

(** *** Failures of the metric deriver *)

Lemma rmap_raise_inv {A B} (f : A → result B) (l : list A) (e : exn) :
  rmap f l = Raise e → ∃ a, a ∈ l ∧ f a = Raise e.
Proof.
  induction l as [|a l IH]; simpl; [done|].
  destruct (f a) as [b|e'|] eqn:Ea; simpl; try done.
  - destruct (rmap f l) as [bs|e'|]; simpl; try done.
    intros [= ->]. destruct IH as (a' & Hin & Ha'); [done|].
    exists a'. split; [by right|done].
  - intros [= ->]. exists a. split; [left|done].
Qed.

Lemma rmap_cons_raise {A B} (f : A → result B) (a : A) (l : list A) (e : exn) :
  f a = Raise e → rmap f (a :: l) = Raise e.
Proof. simpl. by intros ->. Qed.

Lemma days_between_not_KeyError (a b : value) : days_between a b ≠ Raise KeyError.
Proof. destruct a, b; simpl; congruence. Qed.

Lemma agg_one_not_KeyError {K} `{EqDecision K} (ks gks : list K) (md : value)
    (c : column) (fn : aggfun) :
  agg_one ks gks md c fn ≠ Raise KeyError.
Proof.
  destruct fn; simpl; try done.
  - destruct (rmap _ gks) as [r|e|] eqn:E; simpl; try done.
    apply rmap_raise_inv in E as (k & _ & E). intros [= ->].
    by apply days_between_not_KeyError in E.
  - destruct c; simpl; congruence.
Qed.

Lemma groupby_agg_not_KeyError (md : value) (cid : column)
    (spec : list (column * aggfun)) :
  groupby_agg md cid spec ≠ Raise KeyError.
Proof.
  destruct cid; simpl; try done;
    (destruct (rmap _ spec) as [r|e|] eqn:E; simpl; try done;
     apply rmap_raise_inv in E as (k & _ & E); intros [= ->];
     by apply agg_one_not_KeyError in E).
Qed.

(** The entries of the dict are read from the table in turn. *)
Lemma mapM_getitem_ok (h : store) (data : loc) (f : frame)
    (spec : list (string * aggfun)) :
  h !! data = Some f →
  (∀ e, e ∈ spec → is_Some (get_col f e.1)) →
  ∃ cols, mapM (λ e, do c <- getitem data e.1; ret (c, e.2)) spec h = (Ok cols, h).
Proof.
  intros Hh. induction spec as [|e spec IH]; intros Hall; simpl.
  - by eexists.
  - destruct (Hall e) as [c Hc]; [left|].
    destruct IH as [cols Hcols]; [intros e' He'; apply Hall; by right|].
    exists ((c, e.2) :: cols).
    rewrite (bind_run _ _ h h (c, e.2))
      by (by rewrite (bind_run _ _ h h c) by by eapply getitem_run).
    by rewrite (bind_run _ _ h h cols).
Qed.

Lemma mapM_getitem_missing (h : store) (data : loc) (f : frame)
    (spec : list (string * aggfun)) (e0 : string * aggfun) :
  h !! data = Some f →
  e0 ∈ spec → get_col f e0.1 = None →
  mapM (λ e, do c <- getitem data e.1; ret (c, e.2)) spec h = (Raise KeyError, h).
Proof.
  intros Hh Hin Hmiss. induction spec as [|e spec IH]; simpl.
  - by apply elem_of_nil in Hin.
  - destruct (get_col f e.1) as [c|] eqn:Hc.
    + rewrite (bind_run _ _ h h (c, e.2))
        by (by rewrite (bind_run _ _ h h c) by by eapply getitem_run).
      apply elem_of_cons in Hin as [->|Hin]; [congruence|].
      by rewrite (bind_raise _ _ h h KeyError) by by apply IH.
    + rewrite (bind_raise _ _ h h KeyError); [done|].
      by rewrite (bind_raise _ _ h h KeyError) by by eapply getitem_missing.
Qed.

Lemma dict_of_keys (a b c : string) (x y z : aggfun) (e : string * aggfun) :
  e ∈ dict_of [(a, x); (b, y); (c, z)] → e.1 = a ∨ e.1 = b ∨ e.1 = c.
Proof.
  unfold dict_of. simpl. repeat (case_decide; simpl); set_solver.
Qed.

Lemma dict_of_has_key (a b c : string) (x y z : aggfun) (k : string) :
  k ∈ [a; b; c] → k ∈ (dict_of [(a, x); (b, y); (c, z)]).*1.
Proof.
  unfold dict_of. simpl. repeat (case_decide; simpl); set_solver.
Qed.

Lemma exn_name_not_spec_kind (e : exn) :
  exn_name e ≠ "InvalidInputError" ∧ exn_name e ≠ "InsufficientDataError".
Proof. by destruct e. Qed.

Lemma strmax_list_is_Some (xs : list string) : xs ≠ [] → is_Some (strmax_list xs).
Proof. destruct xs; [done|]. simpl. eauto. Qed.

(** A date column of strings: the first group already fails, on the
    subtraction of two strings. *)
Lemma agg_recency_str {K} `{EqDecision K} (ks gks : list K) (ds : list string) :
  length ks = length ds → gks ≠ [] → (∀ k, k ∈ gks → k ∈ ks) →
  agg_one ks gks (col_max (ColStr ds)) (ColStr ds) AggRecency = Raise TypeError.
Proof.
  intros Hl Hne Hsub. destruct gks as [|k gks]; [done|].
  unfold agg_one. rewrite (rmap_cons_raise _ _ _ TypeError); [done|].
  assert (k ∈ ks) as Hk by (apply Hsub; left).
  simpl. destruct (strmax_list_is_Some (group_of ks ds k)) as [m ->];
    [by apply group_of_nonempty|].
  destruct (strmax_list_is_Some ds) as [g ->]; [|done].
  intros ->. destruct ks; [by apply elem_of_nil in Hk|done].
Qed.

(** C7, as stated, fails: a missing field is reported by a KeyError. *)
Lemma C7_missing_field_is_KeyError :
  get_col example_transactions "client" = None ∧
  ∃ e, (create_rfm_columns 0%nat "client" "date" "revenue"
          {[ 0%nat := example_transactions ]}).1 = Raise e ∧
       exn_name e ≠ "InvalidInputError".
Proof.
  split; [reflexivity|]. exists KeyError. split; [vm_compute; reflexivity|done].
Qed.

(** C7 (amended). [create_rfm_columns] raises KeyError exactly when one of
    the three required fields is missing from the table, and leaves the
    store as it was; no error it raises is an InvalidInputError. It does not
    parse the date field: on a table with rows whose date column holds
    strings it raises TypeError. *)
Theorem C7_create_rfm_columns_errors :
  (∀ (h : store) (data : loc) (f : frame) (id dates revenue : string),
     h !! data = Some f →
     ((get_col f id = None ∨ get_col f dates = None ∨ get_col f revenue = None)
      ↔ (create_rfm_columns data id dates revenue h).1 = Raise KeyError) ∧
     ((create_rfm_columns data id dates revenue h).1 = Raise KeyError →
      (create_rfm_columns data id dates revenue h).2 = h) ∧
     (∀ e, (create_rfm_columns data id dates revenue h).1 = Raise e →
           exn_name e ≠ "InvalidInputError")) ∧
  (∀ (h : store) (data : loc) (f : frame) (id dates revenue : string)
     (cid crev : column) (ds : list string),
     h !! data = Some f → NoDup [dates; id; revenue] →
     get_col f id = Some cid → (∀ cats xs, cid ≠ ColCat cats xs) →
     get_col f dates = Some (ColStr ds) → get_col f revenue = Some crev →
     col_len cid = length ds → ds ≠ [] →
     create_rfm_columns data id dates revenue h = (Raise TypeError, h)).
Proof.
  split.
  - intros h data f id dates revenue Hh.
    assert ((get_col f id = None ∨ get_col f dates = None ∨ get_col f revenue = None)
            → create_rfm_columns data id dates revenue h = (Raise KeyError, h)) as Hmiss.
    { intros Hm. unfold create_rfm_columns.
      destruct (get_col f dates) as [cdates|] eqn:Hdates; cycle 1.
      { by rewrite (bind_raise _ _ h h KeyError) by by eapply getitem_missing. }
      rewrite (bind_run _ _ h h cdates) by by eapply getitem_run.
      destruct (get_col f id) as [cid|] eqn:Hid; cycle 1.
      { by rewrite (bind_raise _ _ h h KeyError) by by eapply getitem_missing. }
      rewrite (bind_run _ _ h h cid) by by eapply getitem_run.
      destruct Hm as [?|[?|Hrev]]; try done.
      destruct (proj1 (list_elem_of_fmap _ _ _)
                  (dict_of_has_key dates id revenue AggRecency AggLen AggSum
                     revenue ltac:(set_solver))) as (e0 & He0 & Hin).
      rewrite (bind_raise _ _ h h KeyError); [done|].
      eapply mapM_getitem_missing; [done|done|]. by rewrite <- He0. }
    split; [split; [intros Hm; by rewrite Hmiss|]|split; [|intros e _; apply exn_name_not_spec_kind]].
    + intros Hk.
      destruct (get_col f dates) as [cdates|] eqn:Hdates; [|tauto].
      destruct (get_col f id) as [cid|] eqn:Hid; [|tauto].
      destruct (get_col f revenue) as [crev|] eqn:Hrev; [|tauto].
      exfalso. revert Hk. unfold create_rfm_columns.
      rewrite (bind_run _ _ h h cdates) by by eapply getitem_run.
      rewrite (bind_run _ _ h h cid) by by eapply getitem_run.
      destruct (mapM_getitem_ok h data f
                  (dict_of [(dates, AggRecency); (id, AggLen); (revenue, AggSum)]))
        as [cols Hcols]; [done| |].
      { intros e [-> | [-> | ->]]%dict_of_keys; by eexists. }
      rewrite (bind_run _ _ h h cols) by done.
      unfold bind at 1, lift.
      destruct (groupby_agg _ cid cols) as [[key aggs]|e|] eqn:Hg; simpl; try done.
      * destruct aggs as [|? [|? [|? [|]]]]; try done.
        case_bool_decide; [done|]. unfold alloc. simpl. done.
      * intros [= ->]. by apply groupby_agg_not_KeyError in Hg.
    + intros Hk.
      destruct (get_col f dates) as [cdates|] eqn:Hdates; [|by rewrite Hmiss by tauto].
      destruct (get_col f id) as [cid|] eqn:Hid; [|by rewrite Hmiss by tauto].
      destruct (get_col f revenue) as [crev|] eqn:Hrev; [|by rewrite Hmiss by tauto].
      exfalso. revert Hk. unfold create_rfm_columns.
      rewrite (bind_run _ _ h h cdates) by by eapply getitem_run.
      rewrite (bind_run _ _ h h cid) by by eapply getitem_run.
      destruct (mapM_getitem_ok h data f
                  (dict_of [(dates, AggRecency); (id, AggLen); (revenue, AggSum)]))
        as [cols Hcols]; [done| |].
      { intros e [-> | [-> | ->]]%dict_of_keys; by eexists. }
      rewrite (bind_run _ _ h h cols) by done.
      unfold bind at 1, lift.
      destruct (groupby_agg _ cid cols) as [[key aggs]|e|] eqn:Hg; simpl; try done.
      * destruct aggs as [|? [|? [|? [|]]]]; try done.
        case_bool_decide; [done|]. unfold alloc. simpl. done.
      * intros [= ->]. by apply groupby_agg_not_KeyError in Hg.
  - intros h data f id dates revenue cid crev ds Hh Hnd Hid Hcat Hdates Hrev Hlen Hne.
    erewrite create_rfm_columns_run by done.
    assert (∀ (K : Type) `{EqDecision K} (R : relation K) `{∀ x y, Decision (R x y)}
              (ks : list K),
      length ks = length ds →
      rmap (λ e, agg_one ks (group_keys R ks) (col_max (ColStr ds)) e.1 e.2)
        [(ColStr ds, AggRecency); (cid, AggLen); (crev, AggSum)] = Raise TypeError)
      as Hgen.
    { intros K ? R ? ks Hl. apply rmap_cons_raise. simpl fst. simpl snd.
      apply agg_recency_str; [done| |intros k; apply elem_of_group_keys].
      intros E. destruct ks as [|k ks]; [by destruct ds|].
      assert (k ∈ group_keys R (k :: ks)) as Hk by (apply elem_of_group_keys; left).
      rewrite E in Hk. by apply elem_of_nil in Hk. }
    unfold bind, lift.
    destruct cid as [ks|ks|ks|cats xs]; [| | |by destruct (Hcat cats xs)];
      unfold groupby_agg; rewrite Hgen; try done;
      revert Hlen; unfold col_len; simpl; by rewrite length_fmap.
Qed.

Lemma C7_create_rfm_columns_errors_witness :
  (create_rfm_columns 0%nat "client" "date" "revenue"
     {[ 0%nat := example_transactions ]}).1 = Raise KeyError.
Proof.
  destruct (proj1 C7_create_rfm_columns_errors
              {[ 0%nat := example_transactions ]} 0%nat example_transactions
              "client" "date" "revenue") as [Hiff _].
  - reflexivity.
  - apply Hiff. left. reflexivity.
Defined.

(** ** Quartile encoder *)

Lemma StronglySorted_nth_last (s : list Z) (y : Z) :
  StronglySorted Z.le s → y ∈ s → (y ≤ nth (length s - 1) s 0)%Z.
Proof.
  intros Hsort. revert y.
  induction Hsort as [|a s Hs IH Hall]; intros y; [by intros ?%elem_of_nil|].
  destruct s as [|b s]; [intros ->%list_elem_of_singleton; simpl; lia|].
  replace (length (a :: b :: s) - 1)%nat with (S (length (b :: s) - 1))
    by (simpl; lia).
  cbn [nth]. intros [->|Hy]%elem_of_cons; [|by apply IH].
  etrans; [|apply IH; left].
  eapply Forall_forall in Hall; [exact Hall|left].
Qed.

Lemma StronglySorted_nth_first (s : list Z) (y : Z) :
  StronglySorted Z.le s → y ∈ s → (nth 0 s 0 ≤ y)%Z.
Proof.
  destruct 1 as [|a s Hs Hall]; [by intros ?%elem_of_nil|].
  intros [->|Hy]%elem_of_cons; simpl; [lia|].
  eapply Forall_forall in Hall; eauto.
Qed.

Lemma nth_elem_of (s : list Z) (i : nat) : (i < length s)%nat → nth i s 0 ∈ s.
Proof.
  intros Hi. apply list_elem_of_lookup. exists i.
  destruct (nth_lookup_or_length s i 0) as [E|E]; [done|lia].
Qed.

Section sorted_cells.
Context (xs : list Z) (s : list Z).
Hypothesis Hs : s = merge_sort Z.le xs.
Hypothesis Hne : xs ≠ [].

Lemma sorted_cells_sorted : StronglySorted Z.le s.
Proof using Hs. rewrite Hs. apply StronglySorted_merge_sort; apply _. Qed.

Lemma sorted_cells_elem (y : Z) : y ∈ s ↔ y ∈ xs.
Proof using Hs. by rewrite Hs, merge_sort_Permutation. Qed.

Lemma sorted_cells_length : length s = length xs.
Proof using Hs. by rewrite Hs, merge_sort_Permutation. Qed.

Lemma sorted_cells_pos : (0 < length s)%nat.
Proof using Hs Hne. rewrite sorted_cells_length. destruct xs; [done|simpl; lia]. Qed.

(** The lowest edge is the least cell, the highest edge the greatest. *)
Lemma quantile4_0 : quantile4 s 0 = (4 * nth 0 s 0)%Z.
Proof using Type.
  unfold quantile4. rewrite Z.mul_0_r.
  change (0 `div` 4)%Z with 0%Z. change (0 `mod` 4)%Z with 0%Z.
  change (Z.to_nat 0) with 0%nat. lia.
Qed.

Lemma quantile4_4 : quantile4 s 4 = (4 * nth (length s - 1) s 0)%Z.
Proof using Hs Hne.
  pose proof sorted_cells_pos as Hpos. unfold quantile4.
  replace (((Z.of_nat (length s) - 1) * 4) `div` 4)%Z
    with (Z.of_nat (length s) - 1)%Z by (rewrite Z.div_mul; lia).
  replace (((Z.of_nat (length s) - 1) * 4) `mod` 4)%Z with 0%Z
    by (rewrite Z.mod_mul; lia).
  replace (Z.to_nat (Z.of_nat (length s) - 1)) with (length s - 1)%nat by lia.
  lia.
Qed.

(** Every edge lies between the least and the greatest cell. *)
Lemma quantile4_bounds (q : Z) :
  (0 ≤ q ≤ 4)%Z →
  (4 * nth 0 s 0 ≤ quantile4 s q ≤ 4 * nth (length s - 1) s 0)%Z.
Proof using Hs Hne.
  intros Hq. pose proof sorted_cells_pos as Hpos.
  pose proof sorted_cells_sorted as Hsort.
  unfold quantile4.
  set (h := ((Z.of_nat (length s) - 1) * q)%Z).
  assert (0 ≤ h `div` 4 ≤ Z.of_nat (length s) - 1)%Z as Hlo.
  { split; [apply Z.div_pos; unfold h; nia|].
    apply Z.div_le_upper_bound; unfold h; nia. }
  pose proof (Z.mod_pos_bound h 4 ltac:(lia)) as Hr.
  set (lo := Z.to_nat (h `div` 4)).
  set (hi := Nat.min (S lo) (length s - 1)).
  assert (lo < length s)%nat as Hlo' by (unfold lo; lia).
  assert (hi < length s)%nat as Hhi' by (unfold hi; lia).
  pose proof (StronglySorted_nth_first s _ Hsort (nth_elem_of s lo Hlo')).
  pose proof (StronglySorted_nth_first s _ Hsort (nth_elem_of s hi Hhi')).
  pose proof (StronglySorted_nth_last s _ Hsort (nth_elem_of s lo Hlo')).
  pose proof (StronglySorted_nth_last s _ Hsort (nth_elem_of s hi Hhi')).
  nia.
Qed.

Lemma sorted_cells_min (y : Z) : y ∈ xs → (nth 0 s 0 ≤ y)%Z.
Proof using Hs.
  intros Hy. apply StronglySorted_nth_first;
    [apply sorted_cells_sorted|by apply sorted_cells_elem].
Qed.

Lemma sorted_cells_max (y : Z) : y ∈ xs → (y ≤ nth (length s - 1) s 0)%Z.
Proof using Hs.
  intros Hy. apply StronglySorted_nth_last;
    [apply sorted_cells_sorted|by apply sorted_cells_elem].
Qed.

Lemma sorted_cells_min_eq (x : Z) :
  x ∈ xs → (∀ y, y ∈ xs → (x ≤ y)%Z) → nth 0 s 0 = x.
Proof using Hs Hne.
  intros Hx Hmin. pose proof (sorted_cells_min x Hx).
  assert (nth 0 s 0 ∈ xs) as Hin
    by (apply sorted_cells_elem, nth_elem_of, sorted_cells_pos).
  specialize (Hmin _ Hin). lia.
Qed.

Lemma sorted_cells_max_eq (x : Z) :
  x ∈ xs → (∀ y, y ∈ xs → (y ≤ x)%Z) → nth (length s - 1) s 0 = x.
Proof using Hs Hne.
  intros Hx Hmax. pose proof (sorted_cells_max x Hx).
  pose proof sorted_cells_pos.
  assert (nth (length s - 1) s 0 ∈ xs) as Hin
    by (apply sorted_cells_elem, nth_elem_of; lia).
  specialize (Hmax _ Hin). lia.
Qed.
End sorted_cells.

(** *** Bins and labels *)

Lemma bin_id_first (e1 e2 e3 e4 x : Z) :
  bin_id [4 * x; e1; e2; e3; e4]%Z x = 1%nat.
Proof. unfold bin_id. simpl. by rewrite decide_True. Qed.

Lemma bin_id_range (e0 e1 e2 e3 e4 x : Z) :
  (e0 ≤ 4 * x ≤ e4)%Z → (1 ≤ bin_id [e0; e1; e2; e3; e4] x ≤ 4)%nat.
Proof.
  intros Hx. unfold bin_id. simpl. case_decide as E; [lia|].
  assert (e0 < 4 * x)%Z by (assert (e0 ≠ 4 * x)%Z by congruence; lia).
  rewrite !filter_cons, filter_nil.
  repeat case_decide; simpl; lia.
Qed.

Lemma bin_id_last (e0 e1 e2 e3 x : Z) :
  NoDup [e0; e1; e2; e3; 4 * x]%Z →
  (e0 ≤ 4 * x)%Z → (e1 ≤ 4 * x)%Z → (e2 ≤ 4 * x)%Z → (e3 ≤ 4 * x)%Z →
  bin_id [e0; e1; e2; e3; 4 * x]%Z x = 4%nat.
Proof.
  intros Hnd H0 H1 H2 H3.
  assert (e0 ≠ 4 * x ∧ e1 ≠ 4 * x ∧ e2 ≠ 4 * x ∧ e3 ≠ 4 * x)%Z as (?&?&?&?).
  { repeat (apply NoDup_cons in Hnd as [? Hnd]). set_solver. }
  unfold bin_id. simpl. rewrite decide_False by congruence.
  rewrite !filter_cons, filter_nil.
  repeat case_decide; simpl; lia.
Qed.

Lemma quartile_edges_unfold (xs : list Z) :
  quartile_edges xs =
  let s := merge_sort Z.le xs in
  [quantile4 s 0; quantile4 s 1; quantile4 s 2; quantile4 s 3; quantile4 s 4].
Proof. reflexivity. Qed.

Section labels.
Context (xs : list Z) (labels : list string).
Hypothesis Hne : xs ≠ [].
Hypothesis Hnd : NoDup (quartile_edges xs).
Hypothesis Hlab : length labels = 4%nat.

(** Every cell of the column falls into one of the four bins. *)
Lemma bin_label_cell (x : Z) :
  x ∈ xs →
  ∃ i, (i < 4)%nat ∧
       bin_label (quartile_edges xs) labels x = labels !! i ∧
       is_Some (labels !! i).
Proof using Hne Hlab.
  intros Hx. rewrite quartile_edges_unfold. simpl.
  set (s := merge_sort Z.le xs).
  pose proof (quantile4_0 s) as H0.
  pose proof (quantile4_4 xs s eq_refl Hne) as H4.
  pose proof (sorted_cells_min xs s eq_refl x Hx).
  pose proof (sorted_cells_max xs s eq_refl x Hx).
  pose proof (bin_id_range (quantile4 s 0) (quantile4 s 1) (quantile4 s 2)
                (quantile4 s 3) (quantile4 s 4) x ltac:(lia)) as Hr.
  unfold bin_label. simpl length. rewrite decide_False by lia.
  eexists. split; [|split; [reflexivity|]]; [lia|].
  apply lookup_lt_is_Some. lia.
Qed.

(** A least cell is in the first bin. *)
Lemma bin_label_least (x : Z) :
  x ∈ xs → (∀ y, y ∈ xs → (x ≤ y)%Z) →
  bin_label (quartile_edges xs) labels x = labels !! 0%nat.
Proof using Hne Hlab.
  intros Hx Hmin. rewrite quartile_edges_unfold. simpl.
  set (s := merge_sort Z.le xs).
  rewrite (quantile4_0 s), (sorted_cells_min_eq xs s eq_refl Hne x Hx Hmin).
  unfold bin_label. rewrite bin_id_first. simpl. try rewrite decide_False by lia. done.
Qed.

(** A greatest cell is in the last bin. *)
Lemma bin_label_greatest (x : Z) :
  x ∈ xs → (∀ y, y ∈ xs → (y ≤ x)%Z) →
  bin_label (quartile_edges xs) labels x = labels !! 3%nat.
Proof using Hne Hnd Hlab.
  intros Hx Hmax. revert Hnd. rewrite quartile_edges_unfold. simpl.
  set (s := merge_sort Z.le xs). intros Hnd'.
  pose proof (quantile4_bounds xs s eq_refl Hne 0 ltac:(lia)) as [_ B0].
  pose proof (quantile4_bounds xs s eq_refl Hne 1 ltac:(lia)) as [_ B1].
  pose proof (quantile4_bounds xs s eq_refl Hne 2 ltac:(lia)) as [_ B2].
  pose proof (quantile4_bounds xs s eq_refl Hne 3 ltac:(lia)) as [_ B3].
  revert Hnd' B0 B1 B2 B3.
  rewrite (quantile4_4 xs s eq_refl Hne),
    (sorted_cells_max_eq xs s eq_refl Hne x Hx Hmax).
  intros Hnd' B0 B1 B2 B3.
  unfold bin_label. rewrite bin_id_last by done. simpl.
  try rewrite decide_False by lia. done.
Qed.
End labels.

Lemma quartile_edges_nil : ¬ NoDup (quartile_edges []).
Proof. vm_compute. intros Hnd. apply NoDup_cons in Hnd as [Hn _]. set_solver. Qed.

Lemma qcut_ok_inv (xs : list Z) (labels : list string) (c : column) :
  qcut xs labels = Ok c →
  xs ≠ [] ∧ NoDup (quartile_edges xs) ∧ length labels = 4%nat ∧ NoDup labels ∧
  c = ColCat labels (bin_label (quartile_edges xs) labels <$> xs).
Proof.
  unfold qcut. case_decide; [done|].
  repeat (case_bool_decide; simpl; [|done]). by intros [= <-].
Qed.

Lemma qcut_run (xs : list Z) (labels : list string) :
  length labels = 4%nat → NoDup labels →
  qcut xs labels =
  if bool_decide (NoDup (quartile_edges xs))
  then Ok (ColCat labels (bin_label (quartile_edges xs) labels <$> xs))
  else Raise ValueError.
Proof.
  intros Hl Hnd. unfold qcut. case_decide as E.
  - subst. rewrite bool_decide_eq_false_2; [done|apply quartile_edges_nil].
  - case_bool_decide; simpl; [|done].
    by rewrite !bool_decide_eq_true_2.
Qed.

(** *** Running the encoder *)

Lemma lift_ok_inv {A} (r : result A) (h h' : store) (a : A) :
  lift r h = (Ok a, h') → r = Ok a ∧ h' = h.
Proof. unfold lift. by intros [= -> ->]. Qed.

Lemma setitem_inv (l : loc) (n : string) (c : column) (h h' : store) (u : unit) :
  setitem l n c h = (Ok u, h') →
  h' = <[l := set_col (default ([] : frame) (h !! l)) n c]> h.
Proof. unfold setitem. by intros [= _ <-]. Qed.

Lemma qcut_col_ok_inv (c r : column) (labels : list string) :
  qcut_col c labels = Ok r → ∃ xs, c = ColInt xs ∧ qcut xs labels = Ok r.
Proof. destruct c; simpl; try done. eauto. Qed.

Lemma labels_up_ok :
  length ["1"; "2"; "3"; "4"] = 4%nat ∧ NoDup ["1"; "2"; "3"; "4"].
Proof. split; [done|]. apply (bool_decide_unpack _). by vm_compute. Qed.

Lemma labels_down_ok :
  length ["4"; "3"; "2"; "1"] = 4%nat ∧ NoDup ["4"; "3"; "2"; "1"].
Proof. split; [done|]. apply (bool_decide_unpack _). by vm_compute. Qed.

(** A successful run of the encoder: the three metric columns are int64
    columns whose quartile edges are distinct, the reference returned is the
    argument, and the frame it points to has got the three label columns. *)
Lemma scale_rfm_columns_ok_inv (data r : loc) (h h' : store) :
  scale_rfm_columns data h = (Ok r, h') →
  ∃ (xr xf xm : list Z) (cr cf cm : column) (f : frame),
    f = default ([] : frame) (h !! data) ∧
    r = data ∧
    get_col f "Recency" = Some (ColInt xr) ∧
    get_col f "Frequency" = Some (ColInt xf) ∧
    get_col f "Monetary" = Some (ColInt xm) ∧
    qcut xr ["1"; "2"; "3"; "4"] = Ok cr ∧
    qcut xf ["4"; "3"; "2"; "1"] = Ok cf ∧
    qcut xm ["4"; "3"; "2"; "1"] = Ok cm ∧
    h' = <[data := set_col (set_col (set_col f "R" cr) "F" cf) "M" cm]> h.
Proof.
  unfold scale_rfm_columns. intros H.
  apply bind_ok_inv in H as (rc & h1 & [-> Hrc]%getitem_ok_inv & H).
  apply bind_ok_inv in H as (cr & h1 & [Hcr ->]%lift_ok_inv & H).
  apply bind_ok_inv in H as (u1 & h1 & ->%setitem_inv & H).
  apply bind_ok_inv in H as (fc & h2 & [-> Hfc]%getitem_ok_inv & H).
  apply bind_ok_inv in H as (cf & h2 & [Hcf ->]%lift_ok_inv & H).
  apply bind_ok_inv in H as (u2 & h2 & ->%setitem_inv & H).
  apply bind_ok_inv in H as (mc & h3 & [-> Hmc]%getitem_ok_inv & H).
  apply bind_ok_inv in H as (cm & h3 & [Hcm ->]%lift_ok_inv & H).
  apply bind_ok_inv in H as (u3 & h3 & ->%setitem_inv & H).
  injection H as <- <-.
  apply qcut_col_ok_inv in Hcr as (xr & -> & Hcr).
  apply qcut_col_ok_inv in Hcf as (xf & -> & Hcf).
  apply qcut_col_ok_inv in Hcm as (xm & -> & Hcm).
  rewrite !lookup_insert_eq in *. simpl in *.
  rewrite get_set_col_ne in Hfc by done.
  rewrite !get_set_col_ne in Hmc by done.
  rewrite !insert_insert_eq.
  by eexists xr, xf, xm, cr, cf, cm, _.
Qed.

Lemma scale_rfm_columns_run (data : loc) (h : store) (f : frame) (xr xf xm : list Z) :
  h !! data = Some f →
  get_col f "Recency" = Some (ColInt xr) →
  get_col f "Frequency" = Some (ColInt xf) →
  get_col f "Monetary" = Some (ColInt xm) →
  scale_rfm_columns data h =
  match qcut xr ["1"; "2"; "3"; "4"] with
  | Ok cr =>
      match qcut xf ["4"; "3"; "2"; "1"] with
      | Ok cf =>
          match qcut xm ["4"; "3"; "2"; "1"] with
          | Ok cm =>
              (Ok data,
               <[data := set_col (set_col (set_col f "R" cr) "F" cf) "M" cm]> h)
          | Raise e => (Raise e, <[data := set_col (set_col f "R" cr) "F" cf]> h)
          | Unmodelled => (Unmodelled, <[data := set_col (set_col f "R" cr) "F" cf]> h)
          end
      | Raise e => (Raise e, <[data := set_col f "R" cr]> h)
      | Unmodelled => (Unmodelled, <[data := set_col f "R" cr]> h)
      end
  | Raise e => (Raise e, h)
  | Unmodelled => (Unmodelled, h)
  end.
Proof.
  intros Hh Hr Hf Hm. unfold scale_rfm_columns.
  rewrite (bind_run _ _ h h (ColInt xr)) by by eapply getitem_run.
  unfold bind at 1, lift. simpl qcut_col.
  destruct (qcut xr _) as [cr|e|]; [|done|done].
  rewrite (bind_run _ _ h (<[data := set_col f "R" cr]> h) tt)
    by by apply setitem_run.
  set (h1 := <[data := set_col f "R" cr]> h).
  assert (h1 !! data = Some (set_col f "R" cr)) as Hh1 by apply lookup_insert_eq.
  rewrite (bind_run _ _ h1 h1 (ColInt xf))
    by (eapply getitem_run; [done|by rewrite get_set_col_ne]).
  unfold bind at 1, lift. simpl qcut_col.
  destruct (qcut xf _) as [cf|e|]; [|done|done].
  rewrite (bind_run _ _ h1 (<[data := set_col (set_col f "R" cr) "F" cf]> h1) tt)
    by by apply setitem_run.
  unfold h1 at 1. rewrite insert_insert_eq. clear h1 Hh1.
  set (h2 := <[data := set_col (set_col f "R" cr) "F" cf]> h).
  assert (h2 !! data = Some (set_col (set_col f "R" cr) "F" cf)) as Hh2
    by apply lookup_insert_eq.
  rewrite (bind_run _ _ h2 h2 (ColInt xm))
    by (eapply getitem_run; [done|by rewrite !get_set_col_ne]).
  unfold bind at 1, lift. simpl qcut_col.
  destruct (qcut xm _) as [cm|e|]; [|done|done].
  rewrite (bind_run _ _ h2
             (<[data := set_col (set_col (set_col f "R" cr) "F" cf) "M" cm]> h2) tt)
    by by apply setitem_run.
  unfold h2 at 1. by rewrite insert_insert_eq.
Qed.

(** The labels of the least and of the greatest cells of a column. *)
Lemma qcut_extremes (xs : list Z) (labels : list string) (c : column) :
  qcut xs labels = Ok c →
  ∃ rs, c = ColCat labels rs ∧ length rs = length xs ∧
    ∀ (i : nat) (x : Z), xs !! i = Some x →
      ((∀ y, y ∈ xs → (x ≤ y)%Z) → rs !! i = Some (labels !! 0%nat)) ∧
      ((∀ y, y ∈ xs → (y ≤ x)%Z) → rs !! i = Some (labels !! 3%nat)) ∧
      ∃ j, (j < 4)%nat ∧ rs !! i = Some (labels !! j) ∧ is_Some (labels !! j).
Proof.
  intros (Hne & Hnd & Hlab & _ & ->)%qcut_ok_inv.
  eexists. split; [reflexivity|]. split; [by rewrite length_fmap|].
  intros i x Hi. rewrite list_lookup_fmap, Hi. simpl.
  assert (x ∈ xs) as Hx by by eapply list_elem_of_lookup_2.
  split; [|split].
  - intros Hmin. f_equal. by apply bin_label_least.
  - intros Hmax. f_equal. by apply bin_label_greatest.
  - destruct (bin_label_cell xs labels Hne Hlab x Hx) as (j & Hj & -> & Hs).
    by exists j.
Qed.

(** C2: what the code does. In every table the encoder returns, a customer
    whose Recency is the least of the table (the most recent one) has the R
    label "1", and a customer whose Recency is the greatest has "4". *)
Theorem C2_recency_labels_follow_days (data r : loc) (h h' : store) :
  scale_rfm_columns data h = (Ok r, h') →
  ∃ (f : frame) (xs : list Z) (rs : list (option string)),
    h' !! r = Some f ∧
    get_col f "Recency" = Some (ColInt xs) ∧
    get_col f "R" = Some (ColCat ["1"; "2"; "3"; "4"] rs) ∧
    length rs = length xs ∧
    ∀ (i : nat) (x : Z), xs !! i = Some x →
      ((∀ y, y ∈ xs → (x ≤ y)%Z) → rs !! i = Some (Some "1")) ∧
      ((∀ y, y ∈ xs → (y ≤ x)%Z) → rs !! i = Some (Some "4")).
Proof.
  intros (xr & xf & xm & cr & cf & cm & f & Hfdef & -> & Hr & Hf & Hm & Hcr & Hcf & Hcm & ->)
    %scale_rfm_columns_ok_inv.
  apply qcut_extremes in Hcr as (rs & -> & Hlen & Hrs).
  eexists _, xr, rs. rewrite lookup_insert_eq. split; [done|].
  rewrite !get_set_col_ne by done. split; [done|].
  rewrite get_set_col_eq. split; [done|]. split; [done|].
  intros i x Hi. destruct (Hrs i x Hi) as (H1 & H2 & _). split; done.
Qed.

(** C3: what the code does. In every table the encoder returns, a customer
    whose Frequency is the greatest of the table has the F label "1" and one
    whose Frequency is the least has "4"; the same holds of Monetary and the
    M label. *)
Theorem C3_frequency_monetary_labels_reversed (data r : loc) (h h' : store) :
  scale_rfm_columns data h = (Ok r, h') →
  ∃ (f : frame) (xf xm : list Z) (fs ms : list (option string)),
    h' !! r = Some f ∧
    get_col f "Frequency" = Some (ColInt xf) ∧
    get_col f "Monetary" = Some (ColInt xm) ∧
    get_col f "F" = Some (ColCat ["4"; "3"; "2"; "1"] fs) ∧
    get_col f "M" = Some (ColCat ["4"; "3"; "2"; "1"] ms) ∧
    length fs = length xf ∧ length ms = length xm ∧
    (∀ (i : nat) (x : Z), xf !! i = Some x →
      ((∀ y, y ∈ xf → (y ≤ x)%Z) → fs !! i = Some (Some "1")) ∧
      ((∀ y, y ∈ xf → (x ≤ y)%Z) → fs !! i = Some (Some "4"))) ∧
    (∀ (i : nat) (x : Z), xm !! i = Some x →
      ((∀ y, y ∈ xm → (y ≤ x)%Z) → ms !! i = Some (Some "1")) ∧
      ((∀ y, y ∈ xm → (x ≤ y)%Z) → ms !! i = Some (Some "4"))).
Proof.
  intros (xr & xf & xm & cr & cf & cm & f & Hfdef & -> & Hr & Hf & Hm & Hcr & Hcf & Hcm & ->)
    %scale_rfm_columns_ok_inv.
  apply qcut_extremes in Hcf as (fs & -> & Hlf & Hfs).
  apply qcut_extremes in Hcm as (ms & -> & Hlm & Hms).
  eexists _, xf, xm, fs, ms. rewrite lookup_insert_eq. split; [done|].
  rewrite !get_set_col_ne by done. do 2 (split; [done|]).
  rewrite !get_set_col_eq.
  do 4 (split; [done|]).
  split; intros i x Hi.
  - destruct (Hfs i x Hi) as (H1 & H2 & _). split; done.
  - destruct (Hms i x Hi) as (H1 & H2 & _). split; done.
Qed.

Lemma C2_recency_labels_follow_days_witness :
  ∃ (f : frame) (xs : list Z) (rs : list (option string)),
    (scale_rfm_columns 0%nat {[ 0%nat := example_metrics ]}).2 !! 0%nat = Some f ∧
    get_col f "Recency" = Some (ColInt xs) ∧
    get_col f "R" = Some (ColCat ["1"; "2"; "3"; "4"] rs) ∧
    length rs = length xs ∧
    ∀ (i : nat) (x : Z), xs !! i = Some x →
      ((∀ y, y ∈ xs → (x ≤ y)%Z) → rs !! i = Some (Some "1")) ∧
      ((∀ y, y ∈ xs → (y ≤ x)%Z) → rs !! i = Some (Some "4")).
Proof.
  apply (C2_recency_labels_follow_days 0%nat 0%nat {[ 0%nat := example_metrics ]}).
  vm_compute. reflexivity.
Defined.

(** The encoded example: Recency 0 and 10 (the two most recent customers)
    get the label "1", Recency 60 and 70 the label "4". *)
Example encoded_example_R :
  get_col (default [] ((scale_rfm_columns 0%nat {[ 0%nat := example_metrics ]}).2
                         !! 0%nat)) "R" =
  Some (ColCat ["1"; "2"; "3"; "4"]
          [Some "1"; Some "1"; Some "2"; Some "2";
           Some "3"; Some "3"; Some "4"; Some "4"]).
Proof. vm_compute. reflexivity. Qed.

Lemma C3_frequency_monetary_labels_reversed_witness :
  ∃ (f : frame) (xf xm : list Z) (fs ms : list (option string)),
    (scale_rfm_columns 0%nat {[ 0%nat := example_metrics ]}).2 !! 0%nat = Some f ∧
    get_col f "Frequency" = Some (ColInt xf) ∧
    get_col f "Monetary" = Some (ColInt xm) ∧
    get_col f "F" = Some (ColCat ["4"; "3"; "2"; "1"] fs) ∧
    get_col f "M" = Some (ColCat ["4"; "3"; "2"; "1"] ms) ∧
    length fs = length xf ∧ length ms = length xm ∧
    (∀ (i : nat) (x : Z), xf !! i = Some x →
      ((∀ y, y ∈ xf → (y ≤ x)%Z) → fs !! i = Some (Some "1")) ∧
      ((∀ y, y ∈ xf → (x ≤ y)%Z) → fs !! i = Some (Some "4"))) ∧
    (∀ (i : nat) (x : Z), xm !! i = Some x →
      ((∀ y, y ∈ xm → (y ≤ x)%Z) → ms !! i = Some (Some "1")) ∧
      ((∀ y, y ∈ xm → (x ≤ y)%Z) → ms !! i = Some (Some "4"))).
Proof.
  apply (C3_frequency_monetary_labels_reversed 0%nat 0%nat
           {[ 0%nat := example_metrics ]}).
  vm_compute. reflexivity.
Defined.

(** The encoded example: the two highest Frequency and Monetary values get
    the label "1", the two lowest the label "4". *)
Example encoded_example_F_M :
  let f := default [] ((scale_rfm_columns 0%nat {[ 0%nat := example_metrics ]}).2
                         !! 0%nat) in
  get_col f "F" =
    Some (ColCat ["4"; "3"; "2"; "1"]
            [Some "4"; Some "4"; Some "3"; Some "3";
             Some "2"; Some "2"; Some "1"; Some "1"]) ∧
  get_col f "M" =
    Some (ColCat ["4"; "3"; "2"; "1"]
            [Some "4"; Some "4"; Some "3"; Some "3";
             Some "2"; Some "2"; Some "1"; Some "1"]).
Proof. vm_compute. split; reflexivity. Qed.

(** *** Failures of the encoder *)

(** C8, as stated, fails: a table whose three metric columns have two
    distinct values each is encoded; a table whose Recency has four distinct
    values is refused, and by a ValueError. *)
Lemma C8_distinct_values_do_not_decide :
  ((length (remove_dups [0; 4]) < 4)%nat ∧
   (length (remove_dups [1; 5]) < 4)%nat ∧
   (length (remove_dups [10; 50]) < 4)%nat ∧
   (scale_rfm_columns 0%nat {[ 0%nat := example_two_customers ]}).1 = Ok 0%nat) ∧
  ((4 ≤ length (remove_dups [1; 1; 1; 1; 1; 1; 1; 1; 1; 2; 3; 4]))%nat ∧
   (4 ≤ length (remove_dups [1; 2; 3; 4; 5; 6; 7; 8; 9; 10; 11; 12]))%nat ∧
   ∃ e, (scale_rfm_columns 0%nat {[ 0%nat := example_skewed ]}).1 = Raise e ∧
        exn_name e ≠ "InsufficientDataError").
Proof.
  split.
  - repeat split; vm_compute; (reflexivity || lia).
  - split; [vm_compute; lia|]. split; [vm_compute; lia|].
    exists ValueError. split; [vm_compute; reflexivity|done].
Qed.

(** C8 (amended). On a table whose Recency, Frequency and Monetary columns
    are integer columns, [scale_rfm_columns] fails exactly when two of the
    five quartile edges of one of the three columns coincide (as they do on
    a table without rows); the error is a ValueError, never an
    InsufficientDataError; and when the edges of each column are distinct
    the table is encoded. *)
Theorem C8_scale_rfm_columns_errors (data : loc) (h : store) (f : frame)
    (xr xf xm : list Z) :
  h !! data = Some f →
  get_col f "Recency" = Some (ColInt xr) →
  get_col f "Frequency" = Some (ColInt xf) →
  get_col f "Monetary" = Some (ColInt xm) →
  ((scale_rfm_columns data h).1 = Raise ValueError ↔
     ¬ NoDup (quartile_edges xr) ∨ ¬ NoDup (quartile_edges xf) ∨
     ¬ NoDup (quartile_edges xm)) ∧
  ((scale_rfm_columns data h).1 = Ok data ↔
     NoDup (quartile_edges xr) ∧ NoDup (quartile_edges xf) ∧
     NoDup (quartile_edges xm)) ∧
  (∀ e, (scale_rfm_columns data h).1 = Raise e →
        e = ValueError ∧ exn_name e ≠ "InsufficientDataError") ∧
  (scale_rfm_columns data h).1 ≠ Unmodelled.
Proof.
  intros Hh Hr Hf Hm.
  rewrite (scale_rfm_columns_run data h f xr xf xm) by done.
  destruct labels_up_ok as [Hu1 Hu2]. destruct labels_down_ok as [Hd1 Hd2].
  rewrite !qcut_run by done.
  repeat case_bool_decide; simpl; (split; [|split; [|split]]);
    try (split; intros; try done; try tauto; naive_solver);
    try done; intros e [= <-]; done.
Qed.

Lemma C8_scale_rfm_columns_errors_witness :
  (scale_rfm_columns 0%nat {[ 0%nat := example_skewed ]}).1 = Raise ValueError.
Proof.
  destruct (C8_scale_rfm_columns_errors 0%nat {[ 0%nat := example_skewed ]}
              example_skewed
              [1; 1; 1; 1; 1; 1; 1; 1; 1; 2; 3; 4]
              [1; 2; 3; 4; 5; 6; 7; 8; 9; 10; 11; 12]
              [1; 2; 3; 4; 5; 6; 7; 8; 9; 10; 11; 12]) as [Hiff _].
  - reflexivity.
  - reflexivity.
  - reflexivity.
  - reflexivity.
  - apply Hiff. left. apply (bool_decide_unpack _). vm_compute. exact I.
Defined.

(** ** Sorting *)

Section take.
Context {A : Type}.
Implicit Types (l : list A) (idx : list nat).

Lemma take_idx_in_range_fmap l idx :
  (∀ i, i ∈ idx → (i < length l)%nat) →
  Some <$> take_idx l idx = (λ i, l !! i) <$> idx.
Proof.
  unfold take_idx. induction idx as [|i idx IH]; intros Hr; simpl; [done|].
  destruct (lookup_lt_is_Some_2 l i) as [x Hx]; [apply Hr; left|].
  rewrite Hx. simpl. f_equal. apply IH. intros j Hj. apply Hr. by right.
Qed.

(** With positions in range, the cell at place [j] of the result is the
    cell of [l] at the [j]-th position. *)
Lemma take_idx_lookup l idx (j : nat) :
  (∀ i, i ∈ idx → (i < length l)%nat) →
  take_idx l idx !! j = idx !! j ≫= (l !!.).
Proof.
  intros Hr. pose proof (take_idx_in_range_fmap l idx Hr) as E.
  apply (f_equal (.!! j)) in E. rewrite !list_lookup_fmap in E.
  destruct (idx !! j) as [i|] eqn:Hi; simpl in *.
  - destruct (take_idx l idx !! j); simpl in E; congruence.
  - by destruct (take_idx l idx !! j).
Qed.

Lemma take_idx_length l idx :
  (∀ i, i ∈ idx → (i < length l)%nat) → length (take_idx l idx) = length idx.
Proof.
  intros Hr. pose proof (take_idx_in_range_fmap l idx Hr) as E.
  apply (f_equal length) in E. by rewrite !length_fmap in E.
Qed.

Lemma take_idx_reverse l idx :
  take_idx l (reverse idx) = reverse (take_idx l idx).
Proof.
  unfold take_idx. induction idx as [|i idx IH]; simpl; [done|].
  rewrite reverse_cons, omap_app, IH. simpl.
  destruct (l !! i); simpl; [by rewrite reverse_cons|by rewrite app_nil_r].
Qed.

Lemma take_idx_mirror l idx :
  (∀ i, i ∈ idx → (i < length l)%nat) →
  take_idx l ((λ i, length l - 1 - i)%nat <$> idx) = take_idx (reverse l) idx.
Proof.
  unfold take_idx. induction idx as [|i idx IH]; intros Hr; simpl; [done|].
  rewrite (reverse_lookup l i) by (apply Hr; left).
  replace (length l - 1 - i)%nat with (length l - S i)%nat by lia.
  assert (∀ j, j ∈ idx → (j < length l)%nat) as Hr'
    by (intros j Hj; apply Hr; by right).
  destruct (l !! (length l - S i)%nat); simpl; [f_equal|]; by apply IH.
Qed.

Lemma take_idx_seq l : take_idx l (seq 0 (length l)) = l.
Proof.
  apply list_eq. intros j. rewrite take_idx_lookup.
  - destruct (decide (j < length l)%nat).
    + by rewrite lookup_seq_lt.
    + rewrite lookup_seq_ge by lia. simpl. symmetry. apply lookup_ge_None. lia.
  - intros i Hi%elem_of_seq. lia.
Qed.

Lemma take_idx_Permutation l idx :
  idx ≡ₚ seq 0 (length l) → take_idx l idx ≡ₚ l.
Proof.
  intros Hp. rewrite <- (take_idx_seq l) at 2. unfold take_idx. by rewrite Hp.
Qed.
End take.

Lemma mirror_Permutation (n : nat) (idx : list nat) :
  idx ≡ₚ seq 0 n → (λ i, n - 1 - i)%nat <$> idx ≡ₚ seq 0 n.
Proof.
  intros Hp. rewrite Hp. apply NoDup_Permutation.
  - apply NoDup_fmap_2_strong; [|apply NoDup_seq].
    intros i j Hi%elem_of_seq Hj%elem_of_seq. lia.
  - apply NoDup_seq.
  - intros x. rewrite list_elem_of_fmap, elem_of_seq. split.
    + intros (i & -> & Hi%elem_of_seq). lia.
    + intros Hx. exists (n - 1 - x)%nat. rewrite elem_of_seq. lia.
Qed.

Section nargsort.
Context `{Argsort} {K : Type} (le : relation K) `{∀ x y, Decision (le x y)}.

Lemma nargsort_Permutation (items : list K) (ascending : bool) :
  nargsort le items ascending ≡ₚ seq 0 (length items).
Proof.
  unfold nargsort. destruct ascending; [apply argsort_perm|].
  rewrite reverse_Permutation. apply mirror_Permutation.
  rewrite <- (length_reverse items). apply argsort_perm.
Qed.

Lemma nargsort_in_range (items : list K) (ascending : bool) (i : nat) :
  i ∈ nargsort le items ascending → (i < length items)%nat.
Proof. rewrite nargsort_Permutation, elem_of_seq. lia. Qed.

(** The cells taken in the descending order are a descending list. *)
Lemma nargsort_descending `{!Transitive le, !Total le} (items : list K) :
  Sorted (flip le) (take_idx items (nargsort le items false)).
Proof.
  unfold nargsort. rewrite take_idx_reverse, take_idx_mirror.
  - apply Sorted_reverse, argsort_sorted; apply _.
  - intros i. rewrite argsort_perm, length_reverse, elem_of_seq. lia.
Qed.

Lemma nargsort_take_Permutation (items : list K) (ascending : bool) :
  take_idx items (nargsort le items ascending) ≡ₚ items.
Proof. apply take_idx_Permutation, nargsort_Permutation. Qed.
End nargsort.

Section argsort_by.
Context (tie : relation nat) `{∀ i j, Decision (tie i j)} `{!Total tie}.
Context {K : Type} (le : relation K) `{∀ x y, Decision (le x y)}.

Lemma argsort_by_perm (l : list K) : argsort_by tie le l ≡ₚ seq 0 (length l).
Proof.
  unfold argsort_by. rewrite merge_sort_Permutation.
  rewrite fst_zip; [done|]. by rewrite length_seq.
Qed.

Local Instance keyed_le_total `{!Total le} : Total (keyed_le le tie).
Proof.
  intros [i a] [j b]. unfold keyed_le. simpl.
  destruct (decide (le a b)) as [Hab|Hab], (decide (le b a)) as [Hba|Hba].
  - destruct (total tie i j); [left|right]; done.
  - left. done.
  - right. done.
  - destruct (total le a b); done.
Qed.

Lemma argsort_by_sorted `{!Total le} (l : list K) :
  Sorted le (take_idx l (argsort_by tie le l)).
Proof.
  unfold argsort_by.
  set (ps := merge_sort (keyed_le le tie) (zip (seq 0 (length l)) l)).
  assert (∀ p, p ∈ ps → l !! p.1 = Some p.2) as Hps.
  { intros [i a]. unfold ps. rewrite merge_sort_Permutation.
    intros (j & Hj)%list_elem_of_lookup_1.
    apply lookup_zip_Some in Hj as [Hi%lookup_seq Ha]. simpl.
    destruct Hi as [-> _]. done. }
  assert (take_idx l ps.*1 = ps.*2) as ->.
  { clearbody ps. unfold take_idx. induction ps as [|[i a] ps IH]; simpl; [done|].
    pose proof (Hps (i, a) ltac:(left)) as Hia. simpl in Hia.
    rewrite Hia. simpl. f_equal. apply IH.
    intros p Hp. apply Hps. by right. }
  apply (Sorted_fmap snd (keyed_le le tie)); [by intros p q [Hle _]|].
  apply Sorted_merge_sort, _.
Qed.
End argsort_by.

(** The stable routine, and numpy's. *)
Definition stable_argsort : Argsort :=
  {| argsort K le _ l := argsort_by Nat.le le l;
     argsort_perm K le _ l := argsort_by_perm Nat.le le l;
     argsort_sorted K le _ _ _ l := argsort_by_sorted Nat.le le l |}.

Lemma checked_perm {K : Type} (le : relation K) `{∀ x y, Decision (le x y)}
    (l : list K) (r : list nat) :
  checked le l r ≡ₚ seq 0 (length l).
Proof.
  unfold checked. case_decide as Hc; [|apply (argsort_by_perm Nat.le)].
  destruct Hc as [Hc _]. by rewrite <- Hc, merge_sort_Permutation.
Qed.

Lemma checked_sorted {K : Type} (le : relation K) `{∀ x y, Decision (le x y)}
    `{!Transitive le, !Total le} (l : list K) (r : list nat) :
  Sorted le (take_idx l (checked le l r)).
Proof.
  unfold checked. case_decide as Hc; [by destruct Hc|].
  apply (argsort_by_sorted Nat.le); apply _.
Qed.

Definition numpy_argsort : Argsort :=
  {| argsort K le _ l := checked le l (npy_aquicksort le l);
     argsort_perm K le _ l := checked_perm le l _;
     argsort_sorted K le _ _ _ l := checked_sorted le l _ |}.

(** ** Score aggregator *)

Lemma getattr_ok_inv (h h' : store) (l : loc) (n : string) (c : column) :
  getattr l n h = (Ok c, h') →
  h' = h ∧ get_col (default ([] : frame) (h !! l)) n = Some c.
Proof.
  unfold getattr, bind, deref. simpl. destruct (get_col _ n); simpl; [|done].
  by intros [= -> ->].
Qed.

Lemma alloc_inv (f : frame) (h h' : store) (l : loc) :
  alloc f h = (Ok l, h') → h !! l = None ∧ h' = <[l := f]> h.
Proof.
  unfold alloc. intros [= <- <-]. split; [|done].
  apply not_elem_of_dom, is_fresh.
Qed.

Lemma get_col_frame_take (f : frame) (idx : list nat) (n : string) :
  get_col (frame_take f idx) n = (λ c, col_take c idx) <$> get_col f n.
Proof.
  unfold frame_take. induction f as [|[n' c] f IH]; simpl; [done|].
  by destruct (decide (n' = n)).
Qed.

Section sort_values.
Context `{Argsort}.

(** [sort_values] makes a new frame out of the rows of its argument,
    which it leaves as it is. *)
Lemma sort_values_ok_inv (data l : loc) (by_ : string) (ascending : bool)
    (h h' : store) :
  sort_values data by_ ascending h = (Ok l, h') →
  ∃ (k : column) (idx : list nat),
    get_col (default ([] : frame) (h !! data)) by_ = Some k ∧
    col_argsort k ascending = Ok idx ∧
    h !! l = None ∧
    h' = <[l := frame_take (default ([] : frame) (h !! data)) idx]> h.
Proof.
  unfold sort_values, deref. intros Hs.
  apply bind_ok_inv in Hs as (f & h1 & [= <- <-] & Hs).
  apply bind_ok_inv in Hs as (k & h1 & [-> Hk]%getitem_ok_inv & Hs).
  apply bind_ok_inv in Hs as (idx & h1 & [Hidx ->]%lift_ok_inv & Hs).
  apply alloc_inv in Hs as [Hl ->]. by exists k, idx.
Qed.

Lemma sort_values_store (data : loc) (by_ : string) (ascending : bool)
    (h : store) (l0 : loc) (f0 : frame) :
  h !! l0 = Some f0 → (sort_values data by_ ascending h).2 !! l0 = Some f0.
Proof.
  intros Hl0. unfold sort_values, getitem, bind, deref, lift, ret, raise. simpl.
  destruct (get_col _ by_) as [k|]; simpl; [|done].
  destruct (col_argsort k ascending) as [idx| |]; simpl; [|done|done].
  destruct (alloc_fresh h (frame_take (default ([] : frame) (h !! data)) idx))
    as (l & Hal & Hfresh).
  unfold alloc in Hal. injection Hal as Hl _.
  rewrite lookup_insert_ne; [done|]. rewrite Hl. intros <-. congruence.
Qed.

Lemma rfm_scores_ok_inv (data l : loc) (h h' : store) :
  rfm_scores data h = (Ok l, h') →
  ∃ (f : frame) (r fc m : column) (ri fi mi : list Z) (rs fs ms : list string),
    f = default ([] : frame) (h !! data) ∧
    get_col f "R" = Some r ∧ get_col f "F" = Some fc ∧ get_col f "M" = Some m ∧
    astype_int r = Ok ri ∧ astype_int fc = Ok fi ∧ astype_int m = Ok mi ∧
    astype_str r = Ok rs ∧ astype_str fc = Ok fs ∧ astype_str m = Ok ms ∧
    let sc := zip3_with (λ a b c, a + b + c)%Z ri fi mi in
    let sg := zip3_with (λ a b c, a ++ b ++ c) rs fs ms in
    let f2 := set_col (set_col f "RFM_Score" (ColInt sc)) "RFM_Segment" (ColStr sg) in
    let idx := nargsort String.le sg false in
    (<[data := f2]> h) !! l = None ∧
    h' = <[l := frame_take f2 idx]> (<[data := f2]> h).
Proof.
  unfold rfm_scores. intros Hs.
  apply bind_ok_inv in Hs as (r & h1 & [-> Hr]%getattr_ok_inv & Hs).
  apply bind_ok_inv in Hs as (ri & h1 & [Hri ->]%lift_ok_inv & Hs).
  apply bind_ok_inv in Hs as (fc & h1 & [-> Hf]%getattr_ok_inv & Hs).
  apply bind_ok_inv in Hs as (fi & h1 & [Hfi ->]%lift_ok_inv & Hs).
  apply bind_ok_inv in Hs as (m & h1 & [-> Hm]%getattr_ok_inv & Hs).
  apply bind_ok_inv in Hs as (mi & h1 & [Hmi ->]%lift_ok_inv & Hs).
  apply bind_ok_inv in Hs as (u1 & h1 & ->%setitem_inv & Hs).
  apply bind_ok_inv in Hs as (r' & h2 & [-> Hr']%getattr_ok_inv & Hs).
  apply bind_ok_inv in Hs as (rs & h2 & [Hrs ->]%lift_ok_inv & Hs).
  apply bind_ok_inv in Hs as (fc' & h2 & [-> Hf']%getattr_ok_inv & Hs).
  apply bind_ok_inv in Hs as (fs & h2 & [Hfs ->]%lift_ok_inv & Hs).
  apply bind_ok_inv in Hs as (m' & h2 & [-> Hm']%getattr_ok_inv & Hs).
  apply bind_ok_inv in Hs as (ms & h2 & [Hms ->]%lift_ok_inv & Hs).
  apply bind_ok_inv in Hs as (u2 & h2 & ->%setitem_inv & Hs).
  apply bind_ok_inv in Hs as (l' & h3 & Hsort & [= -> ->]).
  rewrite lookup_insert_eq in Hr', Hf', Hm'. simpl in Hr', Hf', Hm'.
  rewrite get_set_col_ne in Hr', Hf', Hm' by done.
  assert (r' = r) as -> by congruence. assert (fc' = fc) as -> by congruence.
  assert (m' = m) as -> by congruence.
  rewrite lookup_insert_eq, insert_insert_eq in Hsort. simpl in Hsort.
  apply sort_values_ok_inv in Hsort as (k & idx & Hk & Hidx & Hl & ->).
  rewrite lookup_insert_eq in Hk. simpl in Hk. rewrite get_set_col_eq in Hk.
  injection Hk as <-. simpl in Hidx. injection Hidx as <-.
  rewrite lookup_insert_eq. simpl.
  by eexists _, r, fc, m, ri, fi, mi, rs, fs, ms.
Qed.

Lemma top_customers_ok_inv (data l : loc) (h h' : store) :
  top_customers data h = (Ok l, h') →
  ∃ (k : column) (idx : list nat),
    get_col (default ([] : frame) (h !! data)) "RFM_Segment" = Some k ∧
    col_argsort k false = Ok idx ∧
    h !! l = None ∧
    h' = <[l := frame_take (default ([] : frame) (h !! data)) idx]> h.
Proof.
  unfold top_customers. intros Hs.
  apply bind_ok_inv in Hs as (l' & h1 & Hs & [= -> ->]).
  by apply sort_values_ok_inv.
Qed.
End sort_values.

(** *** The label columns of an encoded table *)

Lemma label_int (labels : list string) (l : string) :
  labels = ["1"; "2"; "3"; "4"] ∨ labels = ["4"; "3"; "2"; "1"] →
  l ∈ labels →
  py_int l = Ok (label_digit l) ∧ (1 ≤ label_digit l ≤ 4)%Z ∧ String.length l = 1%nat.
Proof.
  intros [-> | ->] Hl;
    repeat (apply elem_of_cons in Hl as [-> | Hl]);
    try (by apply elem_of_nil in Hl); vm_compute; (split; [done|split; [split|]; congruence]).
Qed.

(** The cells of a label column: no cell is missing, every cell is one of
    the four labels. *)
Lemma qcut_cells (xs : list Z) (labels : list string) (c : column) :
  qcut xs labels = Ok c →
  ∃ ls, c = ColCat labels (Some <$> ls) ∧ length ls = length xs ∧
        ls ≠ [] ∧ Forall (λ l, l ∈ labels) ls.
Proof.
  intros (Hne & Hnd & Hlab & _ & ->)%qcut_ok_inv.
  assert (∀ x, x ∈ xs → ∃ l, bin_label (quartile_edges xs) labels x = Some l ∧
                              l ∈ labels) as Hcell.
  { intros x Hx. destruct (bin_label_cell xs labels Hne Hlab x Hx)
      as (j & _ & -> & [l Hl]). exists l. split; [done|].
    by eapply list_elem_of_lookup_2. }
  clear Hnd. assert (∃ ls, bin_label (quartile_edges xs) labels <$> xs = Some <$> ls ∧
            length ls = length xs ∧ Forall (λ l, l ∈ labels) ls) as (ls & E & Hl & Hall).
  { clear Hne. generalize (quartile_edges xs) Hcell. intros bins. clear Hcell.
    induction xs as [|x xs IH]; intros Hcell.
    - by exists [].
    - destruct (Hcell x) as (l & Hl & Hin); [left|].
      destruct IH as (ls & E & Hlen & Hall); [intros y Hy; apply Hcell; by right|].
      exists (l :: ls). rewrite !fmap_cons, Hl, E. simpl. rewrite Hlen.
      split; [done|]. split; [done|]. by constructor. }
  exists ls. rewrite E. split; [done|]. split; [done|]. split; [|done].
  intros ->. by destruct xs.
Qed.

Lemma omap_id_Some {A} (ls : list A) : omap id (Some <$> ls) = ls.
Proof. induction ls as [|l ls IH]; simpl; [done|]. f_equal. apply IH. Qed.

Lemma astype_int_labels (labels : list string) (ls : list string) :
  labels = ["1"; "2"; "3"; "4"] ∨ labels = ["4"; "3"; "2"; "1"] →
  Forall (λ l, l ∈ labels) ls →
  astype_int (ColCat labels (Some <$> ls)) = Ok (label_digit <$> ls).
Proof.
  intros Hlab Hall. unfold astype_int.
  rewrite bool_decide_eq_false_2
    by (rewrite list_elem_of_fmap; by intros (? & ? & ?)).
  case_decide as Hd.
  - destruct Hd as [Hd| ->]; [|by destruct Hlab].
    by destruct ls.
  - assert (∃ cs, rmap py_int labels = Ok cs) as [cs ->]
      by (destruct Hlab as [-> | ->]; by eexists).
    simpl. rewrite omap_id_Some. apply rmap_ok.
    intros l Hl. eapply label_int; [done|].
    by eapply Forall_forall in Hall.
Qed.

Lemma astype_str_labels (labels : list string) (ls : list string) :
  astype_str (ColCat labels (Some <$> ls)) = Ok ls.
Proof.
  simpl. f_equal. induction ls as [|l ls IH]; simpl; [done|]. f_equal. apply IH.
Qed.

Lemma zip3_with_lookup {A B C D} (g : A → B → C → D)
    (l1 : list A) (l2 : list B) (l3 : list C) (i : nat) (d : D) :
  zip3_with g l1 l2 l3 !! i = Some d ↔
  ∃ x y z, l1 !! i = Some x ∧ l2 !! i = Some y ∧ l3 !! i = Some z ∧ d = g x y z.
Proof.
  unfold zip3_with. rewrite lookup_zip_with_Some. split.
  - intros ([x y] & z & -> & [Hx Hy]%lookup_zip_Some & Hz). by exists x, y, z.
  - intros (x & y & z & Hx & Hy & Hz & ->). exists (x, y), z.
    split; [done|]. split; [|done]. by apply lookup_zip_Some.
Qed.

Section rfm_scores.
Context `{Argsort}.

Lemma rfm_scores_run (data : loc) (h : store) (f : frame) (r fc m : column)
    (ri fi mi : list Z) (rs fs ms : list string) :
  h !! data = Some f →
  get_col f "R" = Some r → get_col f "F" = Some fc → get_col f "M" = Some m →
  astype_int r = Ok ri → astype_int fc = Ok fi → astype_int m = Ok mi →
  astype_str r = Ok rs → astype_str fc = Ok fs → astype_str m = Ok ms →
  let sc := zip3_with (λ a b c, a + b + c)%Z ri fi mi in
  let sg := zip3_with (λ a b c, a ++ b ++ c) rs fs ms in
  let f2 := set_col (set_col f "RFM_Score" (ColInt sc)) "RFM_Segment" (ColStr sg) in
  let idx := nargsort String.le sg false in
  ∃ l, rfm_scores data h = (Ok l, <[l := frame_take f2 idx]> (<[data := f2]> h)) ∧
       (<[data := f2]> h) !! l = None.
Proof.
  intros Hh Hr Hf Hm Hri Hfi Hmi Hrs Hfs Hms sc sg f2 idx.
  unfold rfm_scores.
  rewrite (bind_run _ _ h h r) by by eapply getattr_run.
  rewrite (bind_run _ _ h h ri) by by rewrite Hri.
  rewrite (bind_run _ _ h h fc) by by eapply getattr_run.
  rewrite (bind_run _ _ h h fi) by by rewrite Hfi.
  rewrite (bind_run _ _ h h m) by by eapply getattr_run.
  rewrite (bind_run _ _ h h mi) by by rewrite Hmi.
  rewrite (bind_run _ _ h (<[data := set_col f "RFM_Score" (ColInt sc)]> h) tt)
    by by apply setitem_run.
  set (h1 := <[data := set_col f "RFM_Score" (ColInt sc)]> h).
  assert (h1 !! data = Some (set_col f "RFM_Score" (ColInt sc))) as Hh1
    by apply lookup_insert_eq.
  rewrite (bind_run _ _ h1 h1 r)
    by (eapply getattr_run; [done|by rewrite get_set_col_ne]).
  rewrite (bind_run _ _ h1 h1 rs) by by rewrite Hrs.
  rewrite (bind_run _ _ h1 h1 fc)
    by (eapply getattr_run; [done|by rewrite get_set_col_ne]).
  rewrite (bind_run _ _ h1 h1 fs) by by rewrite Hfs.
  rewrite (bind_run _ _ h1 h1 m)
    by (eapply getattr_run; [done|by rewrite get_set_col_ne]).
  rewrite (bind_run _ _ h1 h1 ms) by by rewrite Hms.
  rewrite (bind_run _ _ h1 (<[data := f2]> h1) tt) by by apply setitem_run.
  unfold h1 at 1. rewrite insert_insert_eq. clear h1 Hh1.
  set (h2 := <[data := f2]> h).
  assert (h2 !! data = Some f2) as Hh2 by apply lookup_insert_eq.
  destruct (alloc_fresh h2 (frame_take f2 idx)) as (l & Hal & Hfresh).
  exists l. split; [|done].
  rewrite (bind_run _ _ h2 (<[l := frame_take f2 idx]> h2) l); [done|].
  unfold sort_values, deref.
  rewrite (bind_run _ _ h2 h2 f2) by by rewrite Hh2.
  rewrite (bind_run _ _ h2 h2 (ColStr sg))
    by (eapply getitem_run; [done|apply get_set_col_eq]).
  by rewrite (bind_run _ _ h2 h2 idx).
Qed.

(** The rows of the table [rfm_scores] returns, for an encoded table. *)
Lemma rfm_scores_encoded (data r : loc) (h h1 : store) :
  scale_rfm_columns data h = (Ok r, h1) →
  ∃ (l : loc) (h2 : store) (f2 : frame) (rs fs ms : list (option string))
    (sc : list Z) (sg : list string),
    rfm_scores r h1 = (Ok l, h2) ∧ h2 !! l = Some f2 ∧
    get_col f2 "R" = Some (ColCat ["1"; "2"; "3"; "4"] rs) ∧
    get_col f2 "F" = Some (ColCat ["4"; "3"; "2"; "1"] fs) ∧
    get_col f2 "M" = Some (ColCat ["4"; "3"; "2"; "1"] ms) ∧
    get_col f2 "RFM_Score" = Some (ColInt sc) ∧
    get_col f2 "RFM_Segment" = Some (ColStr sg) ∧
    length sc = length sg ∧
    ∀ j : nat, (j < length sc)%nat →
      ∃ rl fl ml : string,
        rs !! j = Some (Some rl) ∧ fs !! j = Some (Some fl) ∧
        ms !! j = Some (Some ml) ∧
        rl ∈ ["1"; "2"; "3"; "4"] ∧ fl ∈ ["4"; "3"; "2"; "1"] ∧
        ml ∈ ["4"; "3"; "2"; "1"] ∧
        sc !! j = Some (label_digit rl + label_digit fl + label_digit ml)%Z ∧
        sg !! j = Some (rl ++ fl ++ ml).
Proof.
  intros (xr & xf & xm & cr & cf & cm & f & Hfdef & -> & Hr & Hf & Hm
          & Hcr & Hcf & Hcm & ->)%scale_rfm_columns_ok_inv.
  apply qcut_cells in Hcr as (lr & -> & Hlr & _ & Hallr).
  apply qcut_cells in Hcf as (lf & -> & Hlf & _ & Hallf).
  apply qcut_cells in Hcm as (lm & -> & Hlm & _ & Hallm).
  set (L1 := ["1"; "2"; "3"; "4"]) in *. set (L2 := ["4"; "3"; "2"; "1"]) in *.
  set (f1 := set_col (set_col (set_col f "R" (ColCat L1 (Some <$> lr))) "F"
                        (ColCat L2 (Some <$> lf))) "M" (ColCat L2 (Some <$> lm))).
  destruct (rfm_scores_run data (<[data := f1]> h) f1
              (ColCat L1 (Some <$> lr)) (ColCat L2 (Some <$> lf))
              (ColCat L2 (Some <$> lm))
              (label_digit <$> lr) (label_digit <$> lf) (label_digit <$> lm)
              lr lf lm) as (l & Hrun & Hfresh).
  { apply lookup_insert_eq. }
  { unfold f1. rewrite !get_set_col_ne by done. apply get_set_col_eq. }
  { unfold f1. rewrite !get_set_col_ne by done. apply get_set_col_eq. }
  { unfold f1. apply get_set_col_eq. }
  { apply astype_int_labels; [by left|done]. }
  { apply astype_int_labels; [by right|done]. }
  { apply astype_int_labels; [by right|done]. }
  { apply astype_str_labels. }
  { apply astype_str_labels. }
  { apply astype_str_labels. }
  rewrite insert_insert_eq in Hrun.
  set (sc := zip3_with (λ a b c, a + b + c)%Z (label_digit <$> lr)
               (label_digit <$> lf) (label_digit <$> lm)) in *.
  set (sg := zip3_with (λ a b c, a ++ b ++ c) lr lf lm) in *.
  set (f2 := set_col (set_col f1 "RFM_Score" (ColInt sc)) "RFM_Segment" (ColStr sg)) in *.
  set (idx := nargsort String.le sg false) in *.
  (* rows, before the sort *)
  assert (∀ i, (i < length sg)%nat → ∃ rl fl ml,
            lr !! i = Some rl ∧ lf !! i = Some fl ∧ lm !! i = Some ml ∧
            sc !! i = Some (label_digit rl + label_digit fl + label_digit ml)%Z ∧
            sg !! i = Some (rl ++ fl ++ ml)) as Hrow.
  { intros i Hi. destruct (lookup_lt_is_Some_2 sg i Hi) as [s Hs].
    pose proof Hs as Hs'.
    apply zip3_with_lookup in Hs' as (rl & fl & ml & Hrl & Hfl & Hml & ->).
    exists rl, fl, ml. repeat split; try done.
    apply zip3_with_lookup. exists (label_digit rl), (label_digit fl), (label_digit ml).
    rewrite !list_lookup_fmap, Hrl, Hfl, Hml. done. }
  assert (length sc = length sg) as Hlen.
  { unfold sc, sg, zip3_with. rewrite !length_zip_with, !length_fmap. done. }
  assert (∀ i, i ∈ idx → (i < length sg)%nat) as Hidx
    by (intros i; apply nargsort_in_range).
  assert (∀ i, i ∈ idx → (i < length lr)%nat ∧ (i < length lf)%nat ∧
                         (i < length lm)%nat ∧ (i < length sc)%nat) as Hidx'.
  { intros i Hi%Hidx. destruct (Hrow i Hi) as (rl & fl & ml & H1 & H2 & H3 & _).
    apply lookup_lt_Some in H1, H2, H3. lia. }
  eexists l, _, (frame_take f2 idx), _, _, _, _, _.
  split; [exact Hrun|]. rewrite lookup_insert_eq. split; [done|].
  rewrite !get_col_frame_take. unfold f2.
  rewrite !(get_set_col_ne _ "RFM_Segment") by done.
  rewrite !(get_set_col_ne _ "RFM_Score") by done.
  rewrite get_set_col_eq. rewrite get_set_col_eq.
  unfold f1. rewrite get_set_col_eq.
  rewrite (get_set_col_ne _ "M" "F") by done. rewrite get_set_col_eq.
  rewrite !(get_set_col_ne _ _ "R") by done. rewrite get_set_col_eq. simpl.
  do 5 (split; [reflexivity|]).
  assert (length (take_idx sc idx) = length idx) as Hl1
    by (apply take_idx_length; intros i Hi; by apply Hidx').
  assert (length (take_idx sg idx) = length idx) as Hl2
    by by apply take_idx_length.
  split; [congruence|].
  intros j Hj. rewrite Hl1 in Hj.
  destruct (lookup_lt_is_Some_2 idx j Hj) as [i Hi].
  assert (i ∈ idx) as Hin by by eapply list_elem_of_lookup_2.
  destruct (Hrow i (Hidx i Hin)) as (rl & fl & ml & H1 & H2 & H3 & H4 & H5).
  exists rl, fl, ml.
  rewrite !take_idx_lookup, Hi; simpl;
    try (intros i' Hi'; rewrite ?length_fmap; by apply Hidx' || by apply Hidx).
  rewrite !list_lookup_fmap, H1, H2, H3, H4, H5. simpl.
  repeat split; try done.
  - eapply Forall_forall in Hallr; [exact Hallr|by eapply list_elem_of_lookup_2].
  - eapply Forall_forall in Hallf; [exact Hallf|by eapply list_elem_of_lookup_2].
  - eapply Forall_forall in Hallm; [exact Hallm|by eapply list_elem_of_lookup_2].
Qed.

End rfm_scores.

(** *** Rows of a table *)

Lemma get_col_elem_of (f : frame) (n : string) (c : column) :
  get_col f n = Some c → (n, c) ∈ f.
Proof.
  induction f as [|[n' c'] f IH]; simpl; [done|].
  destruct (decide (n' = n)) as [->|Hne]; [intros [= ->]; left|right; by apply IH].
Qed.

Lemma wf_frame_col (n : nat) (f : frame) (name : string) (c : column) :
  wf_frame n f → get_col f name = Some c → col_len c = n.
Proof.
  intros Hwf Hc%get_col_elem_of. by eapply Forall_forall in Hwf; [|exact Hc].
Qed.

Lemma wf_frame_set_col (n : nat) (f : frame) (name : string) (c : column) :
  wf_frame n f → col_len c = n → wf_frame n (set_col f name c).
Proof.
  intros Hwf Hc. induction Hwf as [|[n' c'] f Hc' Hwf IH]; simpl.
  - by repeat constructor.
  - destruct (decide (n' = name)); constructor; done.
Qed.

Lemma nrows_wf (n : nat) (f : frame) : wf_frame n f → f ≠ [] → nrows f = n.
Proof. destruct 1 as [|[n' c] f Hc _]; [done|]. done. Qed.

Lemma take_idx_fmap {A B} (g : A → B) (l : list A) (idx : list nat) :
  take_idx (g <$> l) idx = g <$> take_idx l idx.
Proof.
  unfold take_idx. induction idx as [|i idx IH]; [done|].
  simpl. rewrite list_lookup_fmap.
  destruct (l !! i); simpl; [f_equal|]; apply IH.
Qed.

Lemma col_values_take (c : column) (idx : list nat) :
  col_values (col_take c idx) = take_idx (col_values c) idx.
Proof. destruct c; simpl; by rewrite take_idx_fmap. Qed.

Lemma wf_frame_take (n : nat) (f : frame) (idx : list nat) :
  wf_frame n f → (∀ i, i ∈ idx → (i < n)%nat) →
  wf_frame (length idx) (frame_take f idx).
Proof.
  intros Hwf Hidx. unfold wf_frame, frame_take. rewrite Forall_fmap.
  eapply Forall_impl; [exact Hwf|]. intros [name c] Hc. simpl in *.
  unfold col_len in *. rewrite col_values_take. apply take_idx_length.
  intros i Hi. rewrite Hc. by apply Hidx.
Qed.

Lemma col_names_frame_take (f : frame) (idx : list nat) :
  col_names (frame_take f idx) = col_names f.
Proof.
  unfold col_names, frame_take. rewrite <- list_fmap_compose.
  apply list_fmap_ext. by intros _ [n c] _.
Qed.

Lemma row_get_row_at (f : frame) (n : string) (c : column) (j : nat) (v : value) :
  get_col f n = Some c → col_values c !! j = Some v →
  row_get (row_at f j) n = Some v.
Proof.
  intros Hc Hv. unfold row_at. induction f as [|[n' c'] f IH]; simpl in *; [done|].
  destruct (decide (n' = n)) as [->|Hne].
  - injection Hc as ->. rewrite Hv. simpl. by rewrite decide_True.
  - destruct (col_values c' !! j); simpl; [rewrite decide_False by done|]; by apply IH.
Qed.

Lemma row_at_frame_take (n : nat) (f : frame) (idx : list nat) (j i : nat) :
  wf_frame n f → (∀ i, i ∈ idx → (i < n)%nat) → idx !! j = Some i →
  row_at (frame_take f idx) j = row_at f i.
Proof.
  intros Hwf Hidx Hj. unfold row_at, frame_take.
  induction Hwf as [|[name c] f Hc Hwf IH]; [done|].
  assert (∀ i', i' ∈ idx → (i' < length (col_values c))%nat) as Hr.
  { intros i' Hi'. simpl in Hc. unfold col_len in Hc. rewrite Hc. by apply Hidx. }
  simpl. rewrite col_values_take, take_idx_lookup, Hj by done. simpl.
  destruct (col_values c !! i); simpl; [f_equal|]; apply IH.
Qed.

(** Taking the rows of a frame at a permutation of the row positions gives
    the same rows, in the order of the permutation. *)
Lemma rows_frame_take (n : nat) (f : frame) (idx : list nat) :
  wf_frame n f → idx ≡ₚ seq 0 n →
  rows (frame_take f idx) = take_idx (rows f) idx ∧
  rows (frame_take f idx) ≡ₚ rows f.
Proof.
  intros Hwf Hperm.
  assert (∀ i, i ∈ idx → (i < n)%nat) as Hidx
    by (intros i; rewrite Hperm, elem_of_seq; lia).
  assert (length idx = n) as Hlen by (by rewrite Hperm, length_seq).
  destruct (decide (f = [])) as [->|Hne].
  { split; [|done]. unfold rows, take_idx. simpl. clear.
    induction idx as [|i idx IH]; simpl; auto. }
  assert (rows f = row_at f <$> seq 0 n) as Hrows
    by (unfold rows; by rewrite (nrows_wf n f)).
  assert (rows (frame_take f idx) = take_idx (rows f) idx) as E.
  { apply list_eq. intros j.
    rewrite take_idx_lookup
      by (intros i Hi; rewrite Hrows, length_fmap, length_seq; by apply Hidx).
    unfold rows at 1. rewrite (nrows_wf (length idx) (frame_take f idx));
      [|by apply (wf_frame_take n)|by destruct f].
    rewrite list_lookup_fmap.
    destruct (decide (j < length idx)%nat) as [Hj|Hj].
    - rewrite lookup_seq_lt by done. simpl.
      destruct (lookup_lt_is_Some_2 idx j Hj) as [i Hi]. rewrite Hi. simpl.
      rewrite (row_at_frame_take n f idx j i) by done.
      rewrite Hrows, list_lookup_fmap, lookup_seq_lt; [done|].
      apply Hidx. by eapply list_elem_of_lookup_2.
    - rewrite lookup_seq_ge by lia. simpl.
      by rewrite (lookup_ge_None_2 idx j) by lia. }
  split; [done|]. rewrite E. apply take_idx_Permutation.
  by rewrite Hrows, length_fmap, length_seq.
Qed.

Lemma zip3_with_length {A B C D} (g : A → B → C → D)
    (l1 : list A) (l2 : list B) (l3 : list C) (n : nat) :
  length l1 = n → length l2 = n → length l3 = n →
  length (zip3_with g l1 l2 l3) = n.
Proof.
  intros H1 H2 H3. unfold zip3_with. rewrite !length_zip_with. lia.
Qed.

Lemma string_length_app (a b : string) :
  String.length (a ++ b) = (String.length a + String.length b)%nat.
Proof. induction a as [|c a IH]; simpl; [done|]. by rewrite IH. Qed.

(** C5. For every table the quartile encoder returns, [rfm_scores] returns
    a table of as many rows, whose rows are those of the encoded table in
    another order, and in which, on every row, RFM_Score is
    int(R) + int(F) + int(M), a number from 3 to 12, and RFM_Segment is the
    labels R, F and M put together, a string of length 3. *)
Theorem C5_score_sum_and_segment_code `{Argsort} (data r : loc) (h h1 : store)
    (f : frame) (n : nat) :
  h !! data = Some f → wf_frame n f →
  scale_rfm_columns data h = (Ok r, h1) →
  ∃ (l : loc) (h2 : store) (f1 f2 : frame) (rs0 fs0 ms0 : list (option string))
    (idx : list nat) (sc : list Z) (sg : list string),
    h1 !! r = Some f1 ∧ wf_frame n f1 ∧ (0 < n)%nat ∧
    get_col f1 "R" = Some (ColCat ["1"; "2"; "3"; "4"] rs0) ∧
    get_col f1 "F" = Some (ColCat ["4"; "3"; "2"; "1"] fs0) ∧
    get_col f1 "M" = Some (ColCat ["4"; "3"; "2"; "1"] ms0) ∧
    rfm_scores r h1 = (Ok l, h2) ∧ h2 !! l = Some f2 ∧ wf_frame n f2 ∧
    idx ≡ₚ seq 0 n ∧
    (∀ name, name ≠ "RFM_Score" → name ≠ "RFM_Segment" →
       get_col f2 name = (λ c, col_take c idx) <$> get_col f1 name) ∧
    get_col f2 "RFM_Score" = Some (ColInt sc) ∧
    get_col f2 "RFM_Segment" = Some (ColStr sg) ∧
    length sc = n ∧ length sg = n ∧
    ∀ j : nat, (j < n)%nat →
      ∃ (rl fl ml : string) (a b c : Z),
        take_idx rs0 idx !! j = Some (Some rl) ∧
        take_idx fs0 idx !! j = Some (Some fl) ∧
        take_idx ms0 idx !! j = Some (Some ml) ∧
        py_int rl = Ok a ∧ py_int fl = Ok b ∧ py_int ml = Ok c ∧
        sc !! j = Some (a + b + c)%Z ∧ (3 ≤ a + b + c ≤ 12)%Z ∧
        sg !! j = Some (rl ++ fl ++ ml) ∧
        String.length (rl ++ fl ++ ml) = 3%nat.
Proof.
  intros Hh Hwf Hscale.
  apply scale_rfm_columns_ok_inv in Hscale
    as (xr & xf & xm & cr & cf & cm & f0 & Hfdef & -> & Hr & Hf & Hm
        & Hcr & Hcf & Hcm & ->).
  rewrite Hh in Hfdef. simpl in Hfdef. subst f0.
  apply qcut_cells in Hcr as (lr & -> & Hlr & Hlrne & Hallr).
  apply qcut_cells in Hcf as (lf & -> & Hlf & _ & Hallf).
  apply qcut_cells in Hcm as (lm & -> & Hlm & _ & Hallm).
  set (L1 := ["1"; "2"; "3"; "4"]) in *. set (L2 := ["4"; "3"; "2"; "1"]) in *.
  assert (length xr = n) as Hnr
    by (pose proof (wf_frame_col n f _ _ Hwf Hr) as E; unfold col_len in E;
        simpl in E; by rewrite length_fmap in E).
  assert (length xf = n) as Hnf
    by (pose proof (wf_frame_col n f _ _ Hwf Hf) as E; unfold col_len in E;
        simpl in E; by rewrite length_fmap in E).
  assert (length xm = n) as Hnm
    by (pose proof (wf_frame_col n f _ _ Hwf Hm) as E; unfold col_len in E;
        simpl in E; by rewrite length_fmap in E).
  assert (0 < n)%nat as Hpos.
  { destruct lr; [done|simpl in *; lia]. }
  set (f1 := set_col (set_col (set_col f "R" (ColCat L1 (Some <$> lr))) "F"
                        (ColCat L2 (Some <$> lf))) "M" (ColCat L2 (Some <$> lm))).
  assert (wf_frame n f1) as Hwf1.
  { unfold f1. repeat apply wf_frame_set_col; try done;
      unfold col_len; simpl; rewrite !length_fmap; lia. }
  destruct (rfm_scores_run data (<[data := f1]> h) f1
              (ColCat L1 (Some <$> lr)) (ColCat L2 (Some <$> lf))
              (ColCat L2 (Some <$> lm))
              (label_digit <$> lr) (label_digit <$> lf) (label_digit <$> lm)
              lr lf lm) as (l & Hrun & Hfresh).
  { apply lookup_insert_eq. }
  { unfold f1. rewrite !get_set_col_ne by done. apply get_set_col_eq. }
  { unfold f1. rewrite !get_set_col_ne by done. apply get_set_col_eq. }
  { unfold f1. apply get_set_col_eq. }
  { apply astype_int_labels; [by left|done]. }
  { apply astype_int_labels; [by right|done]. }
  { apply astype_int_labels; [by right|done]. }
  { apply astype_str_labels. }
  { apply astype_str_labels. }
  { apply astype_str_labels. }
  rewrite insert_insert_eq in Hrun.
  set (sc := zip3_with (λ a b c, a + b + c)%Z (label_digit <$> lr)
               (label_digit <$> lf) (label_digit <$> lm)) in *.
  set (sg := zip3_with (λ a b c, a ++ b ++ c) lr lf lm) in *.
  set (f2 := set_col (set_col f1 "RFM_Score" (ColInt sc)) "RFM_Segment"
               (ColStr sg)) in *.
  set (idx := nargsort String.le sg false) in *.
  assert (length sc = n) as Hnsc
    by (apply zip3_with_length; rewrite length_fmap; lia).
  assert (length sg = n) as Hnsg by (apply zip3_with_length; lia).
  assert (wf_frame n f2) as Hwf2.
  { unfold f2. repeat apply wf_frame_set_col; try done;
      unfold col_len; simpl; rewrite !length_fmap; lia. }
  assert (idx ≡ₚ seq 0 n) as Hperm
    by (rewrite <- Hnsg; apply nargsort_Permutation).
  assert (∀ i, i ∈ idx → (i < n)%nat) as Hidx
    by (intros i; rewrite Hperm, elem_of_seq; lia).
  assert (length idx = n) as Hlidx by (by rewrite Hperm, length_seq).
  exists l, (<[l := frame_take f2 idx]> (<[data := f2]> h)), f1,
    (frame_take f2 idx), (Some <$> lr), (Some <$> lf), (Some <$> lm), idx,
    (take_idx sc idx), (take_idx sg idx).
  split; [apply lookup_insert_eq|]. do 2 (split; [done|]).
  split; [unfold f1; rewrite !get_set_col_ne by done; apply get_set_col_eq|].
  split; [unfold f1; rewrite !get_set_col_ne by done; apply get_set_col_eq|].
  split; [unfold f1; apply get_set_col_eq|].
  split; [exact Hrun|]. split; [apply lookup_insert_eq|].
  split.
  { pose proof (wf_frame_take n f2 idx Hwf2 Hidx) as Hw. by rewrite Hlidx in Hw. }
  split; [done|].
  split.
  { intros name Hn1 Hn2. rewrite get_col_frame_take. unfold f2.
    by rewrite !get_set_col_ne by done. }
  split.
  { rewrite get_col_frame_take. unfold f2.
    rewrite get_set_col_ne by done. by rewrite get_set_col_eq. }
  split; [rewrite get_col_frame_take; unfold f2; by rewrite get_set_col_eq|].
  split; [rewrite take_idx_length by (rewrite Hnsc; apply Hidx); done|].
  split; [rewrite take_idx_length by (rewrite Hnsg; apply Hidx); done|].
  intros j Hj.
  destruct (lookup_lt_is_Some_2 idx j) as [i Hi]; [lia|].
  assert (i < n)%nat as Hin by (apply Hidx; by eapply list_elem_of_lookup_2).
  destruct (lookup_lt_is_Some_2 lr i) as [rl Hrl]; [lia|].
  destruct (lookup_lt_is_Some_2 lf i) as [fl Hfl]; [lia|].
  destruct (lookup_lt_is_Some_2 lm i) as [ml Hml]; [lia|].
  eapply Forall_lookup_1 in Hallr; [|exact Hrl].
  eapply Forall_lookup_1 in Hallf; [|exact Hfl].
  eapply Forall_lookup_1 in Hallm; [|exact Hml].
  destruct (label_int _ rl (or_introl eq_refl) Hallr) as (Ha & Hra & Hsl).
  destruct (label_int _ fl (or_intror eq_refl) Hallf) as (Hb & Hrb & Hsf).
  destruct (label_int _ ml (or_intror eq_refl) Hallm) as (Hc & Hrc & Hsm).
  exists rl, fl, ml, (label_digit rl), (label_digit fl), (label_digit ml).
  rewrite !take_idx_lookup, Hi
    by (intros i'; rewrite ?length_fmap, ?Hlr, ?Hlf, ?Hlm, ?Hnr, ?Hnf, ?Hnm,
          ?Hnsc, ?Hnsg; apply Hidx).
  simpl. rewrite !list_lookup_fmap, Hrl, Hfl, Hml. simpl.
  do 6 (split; [done|]).
  split.
  { apply zip3_with_lookup. exists (label_digit rl), (label_digit fl),
      (label_digit ml). by rewrite !list_lookup_fmap, Hrl, Hfl, Hml. }
  split; [lia|]. split.
  { apply zip3_with_lookup. by exists rl, fl, ml. }
  rewrite !string_length_app, Hsl, Hsf, Hsm. done.
Qed.

Lemma C5_score_sum_and_segment_code_witness :
  ∃ (l : loc) (h2 : store) (f2 : frame) (sc : list Z) (sg : list string),
    @rfm_scores stable_argsort 0%nat
      (scale_rfm_columns 0%nat {[ 0%nat := example_metrics ]}).2 = (Ok l, h2) ∧
    h2 !! l = Some f2 ∧
    get_col f2 "RFM_Score" = Some (ColInt sc) ∧
    get_col f2 "RFM_Segment" = Some (ColStr sg) ∧
    length sc = 8%nat ∧ length sg = 8%nat.
Proof.
  destruct (@C5_score_sum_and_segment_code stable_argsort 0%nat 0%nat
              {[ 0%nat := example_metrics ]}
              (scale_rfm_columns 0%nat {[ 0%nat := example_metrics ]}).2
              example_metrics 8%nat)
    as (l & h2 & f1 & f2 & rs0 & fs0 & ms0 & idx & sc & sg & _ & _ & _ & _ & _ & _
        & Hrun & Hl & _ & _ & _ & Hsc & Hsg & Hlsc & Hlsg & _).
  - reflexivity.
  - repeat constructor.
  - vm_compute. reflexivity.
  - exists l, h2, f2, sc, sg. repeat split; assumption.
Defined.

(** The scored example: each score is the sum of its three labels. *)
Example scored_example :
  let h2 := (@rfm_scores stable_argsort 0%nat
               (scale_rfm_columns 0%nat {[ 0%nat := example_metrics ]}).2).2 in
  get_col (default [] (h2 !! 1%nat)) "RFM_Segment" =
    Some (ColStr ["411"; "411"; "322"; "322"; "233"; "233"; "144"; "144"]) ∧
  get_col (default [] (h2 !! 1%nat)) "RFM_Score" =
    Some (ColInt [6; 6; 7; 7; 8; 8; 9; 9]).
Proof. vm_compute. split; reflexivity. Qed.

(** *** The order of the returned table *)

Section order.
Context `{Argsort}.

Lemma rfm_scores_segment_sorted (data l : loc) (h h' : store) :
  rfm_scores data h = (Ok l, h') →
  ∃ (f : frame) (sg : list string),
    h' !! l = Some f ∧ get_col f "RFM_Segment" = Some (ColStr sg) ∧
    Sorted (flip String.le) sg.
Proof.
  intros (f & r & fc & m & ri & fi & mi & rs & fs & ms & _ & _ & _ & _ & _ & _ & _
          & _ & _ & _ & Hfresh & ->)%rfm_scores_ok_inv.
  eexists _, _. rewrite lookup_insert_eq. split; [done|].
  rewrite get_col_frame_take, get_set_col_eq. simpl. split; [done|].
  apply nargsort_descending; apply _.
Qed.

Lemma rmap_length {A B} (g : A → result B) (l : list A) (l' : list B) :
  rmap g l = Ok l' → length l' = length l.
Proof. intros Hl%rmap_Forall2. symmetry. by eapply Forall2_length. Qed.

Lemma omap_id_length {A} (l : list (option A)) :
  None ∉ l → length (omap id l) = length l.
Proof.
  induction l as [|[a|] l IH]; intros Hn; [done| |].
  - change (S (length (omap id l)) = S (length l)). f_equal. apply IH.
    intros Hin. apply Hn. by right.
  - destruct Hn. left.
Qed.

(** [astype(int)] and [astype(str)] give one cell per cell of the column;
    a categorical column is taken to have a category for its cells. *)
Lemma astype_int_length (c : column) (xs : list Z) :
  (∀ cats cells, c = ColCat cats cells → cats = [] → cells = []) →
  astype_int c = Ok xs → length xs = col_len c.
Proof.
  intros Hcat. unfold col_len.
  destruct c as [ys|ys|ys|cats cells]; simpl; rewrite ?length_fmap.
  - by intros [= ->].
  - done.
  - apply rmap_length.
  - case_bool_decide as Hnone; [done|].
    destruct (decide (cells = [] ∨ cats = [])) as [[->| ->]|Hne].
    + by intros [= <-].
    + rewrite (Hcat [] cells eq_refl eq_refl). by intros [= <-].
    + destruct (rmap py_int cats); simpl; try done.
      intros Hxs%rmap_length. by rewrite Hxs, omap_id_length.
Qed.

Lemma astype_str_length (c : column) (ss : list string) :
  astype_str c = Ok ss → length ss = col_len c.
Proof.
  unfold col_len. destruct c; simpl; try done; intros [= <-];
    by rewrite ?length_fmap.
Qed.

(** C6. The table [rfm_scores] returns has the columns and the rows of the
    scored table (the table it was given, with RFM_Score and RFM_Segment
    added), the rows in descending order of RFM_Segment, the order being
    that of strings: a row's code is, in the lexicographic order of
    strings, at least the code of every row below it. *)
Theorem C6_sorted_by_segment_descending (data l : loc) (h h' : store)
    (f : frame) (n : nat) :
  h !! data = Some f → wf_frame n f →
  (∀ name cats cells,
     get_col f name = Some (ColCat cats cells) → cats = [] → cells = []) →
  rfm_scores data h = (Ok l, h') →
  ∃ (fs f' : frame) (sg : list string),
    h' !! data = Some fs ∧ h' !! l = Some f' ∧ l ≠ data ∧
    (∀ name, name ≠ "RFM_Score" → name ≠ "RFM_Segment" →
       get_col fs name = get_col f name) ∧
    wf_frame n fs ∧ wf_frame n f' ∧
    col_names f' = col_names fs ∧ rows f' ≡ₚ rows fs ∧
    get_col f' "RFM_Segment" = Some (ColStr sg) ∧ length sg = n ∧
    ∀ (i j : nat) (a b : string),
      (i < j)%nat → sg !! i = Some a → sg !! j = Some b →
      String.leb b a = true.
Proof.
  intros Hh Hwf Hcat Hrun.
  apply rfm_scores_ok_inv in Hrun
    as (f0 & r & fc & m & ri & fi & mi & rs & fs & ms & Hf0 & Hr & Hf & Hm & Hri
        & Hfi & Hmi & Hrs & Hfs & Hms & Hfresh & ->).
  rewrite Hh in Hf0. simpl in Hf0. subst f0.
  set (sc := zip3_with (λ a b c, a + b + c)%Z ri fi mi) in *.
  set (sg := zip3_with (λ a b c, a ++ b ++ c) rs fs ms) in *.
  set (f2 := set_col (set_col f "RFM_Score" (ColInt sc)) "RFM_Segment"
               (ColStr sg)) in *.
  set (idx := nargsort String.le sg false) in *.
  assert (l ≠ data) as Hne by (intros ->; by rewrite lookup_insert_eq in Hfresh).
  assert (length sc = n) as Hnsc.
  { apply zip3_with_length.
    - rewrite (astype_int_length r ri);
        [by eapply wf_frame_col|intros cats cells ->; by eapply Hcat|done].
    - rewrite (astype_int_length fc fi);
        [by eapply wf_frame_col|intros cats cells ->; by eapply Hcat|done].
    - rewrite (astype_int_length m mi);
        [by eapply wf_frame_col|intros cats cells ->; by eapply Hcat|done]. }
  assert (length sg = n) as Hnsg.
  { apply zip3_with_length.
    - rewrite (astype_str_length r rs) by done. by eapply wf_frame_col.
    - rewrite (astype_str_length fc fs) by done. by eapply wf_frame_col.
    - rewrite (astype_str_length m ms) by done. by eapply wf_frame_col. }
  assert (wf_frame n f2) as Hwf2.
  { unfold f2. repeat apply wf_frame_set_col; try done;
      unfold col_len; simpl; by rewrite length_fmap. }
  assert (idx ≡ₚ seq 0 n) as Hperm
    by (rewrite <- Hnsg; apply nargsort_Permutation).
  assert (∀ i, i ∈ idx → (i < n)%nat) as Hidx
    by (intros i; rewrite Hperm, elem_of_seq; lia).
  assert (length idx = n) as Hlidx by (by rewrite Hperm, length_seq).
  exists f2, (frame_take f2 idx), (take_idx sg idx).
  split; [rewrite lookup_insert_ne by done; apply lookup_insert_eq|].
  split; [apply lookup_insert_eq|]. split; [done|].
  split; [intros name Hn1 Hn2; unfold f2; by rewrite !get_set_col_ne by done|].
  split; [done|].
  split.
  { pose proof (wf_frame_take n f2 idx Hwf2 Hidx) as Hw. by rewrite Hlidx in Hw. }
  split; [apply col_names_frame_take|].
  split; [by apply (rows_frame_take n)|].
  split; [rewrite get_col_frame_take; unfold f2; by rewrite get_set_col_eq|].
  split; [rewrite take_idx_length by (rewrite Hnsg; apply Hidx); done|].
  assert (Sorted (flip String.le) (take_idx sg idx)) as Hsorted
    by (apply nargsort_descending; apply _).
  apply (Sorted_StronglySorted _) in Hsorted.
  intros i j a b Hij Ha Hb.
  assert (flip String.le a b) as Hab; [|by apply Is_true_true].
  revert i j Hij Ha Hb. revert Hsorted. generalize (take_idx sg idx). clear.
  intros sg' Hsorted.
  induction Hsorted as [|x sg Hs IH Hall]; intros i j Hij Ha Hb;
    [by rewrite lookup_nil in Ha|].
  destruct j as [|j]; [lia|]. destruct i as [|i]; simpl in *.
  - injection Ha as ->. eapply Forall_forall in Hall; [exact Hall|].
    by eapply list_elem_of_lookup_2.
  - eapply (IH i j); [lia|done|done].
Qed.

End order.

Lemma C6_sorted_by_segment_descending_witness :
  ∃ (fs f' : frame) (sg : list string),
    (@rfm_scores stable_argsort 0%nat
       (scale_rfm_columns 0%nat {[ 0%nat := example_metrics ]}).2).2 !! 1%nat
      = Some f' ∧
    rows f' ≡ₚ rows fs ∧
    get_col f' "RFM_Segment" = Some (ColStr sg) ∧ length sg = 8%nat.
Proof.
  destruct (@C6_sorted_by_segment_descending stable_argsort 0%nat 1%nat
              (scale_rfm_columns 0%nat {[ 0%nat := example_metrics ]}).2
              (@rfm_scores stable_argsort 0%nat
                 (scale_rfm_columns 0%nat {[ 0%nat := example_metrics ]}).2).2
              (default [] ((scale_rfm_columns 0%nat
                              {[ 0%nat := example_metrics ]}).2 !! 0%nat))
              8%nat)
    as (fs & f' & sg & _ & Hf' & _ & _ & _ & _ & _ & Hrows & Hsg & Hlen & _).
  - vm_compute. reflexivity.
  - vm_compute. repeat constructor.
  - intros name cats cells Hc ->. revert Hc. vm_compute.
    repeat (case_match; try discriminate); congruence.
  - vm_compute. reflexivity.
  - exists fs, f', sg. repeat split; assumption.
Defined.

(** The order is that of strings: the code "911" comes before "1011",
    a number though 1011 is the greater. *)
Example segment_order_is_lexicographic :
  let h' := (@rfm_scores stable_argsort 0%nat
               {[ 0%nat := example_wide_labels ]}).2 in
  get_col (default [] (h' !! 1%nat)) "RFM_Segment" = Some (ColStr ["911"; "1011"]) ∧
  get_col (default [] (h' !! 1%nat)) "id" = Some (ColInt [2; 1]).
Proof. vm_compute. split; reflexivity. Qed.

(** *** Sorting a sorted table again *)

Lemma col_take_seq (c : column) : col_take c (seq 0 (col_len c)) = c.
Proof.
  unfold col_len. destruct c; simpl; rewrite length_fmap; by rewrite take_idx_seq.
Qed.

Lemma frame_take_seq (f : frame) (n : nat) :
  Forall (λ nc, col_len nc.2 = n) f → frame_take f (seq 0 n) = f.
Proof.
  unfold frame_take. induction 1 as [|[name c] f Hc _ IH]; [done|].
  rewrite fmap_cons, IH. simpl in Hc. by rewrite <- Hc, col_take_seq.
Qed.

Local Instance flip_string_le_antisymm : AntiSymm (=) (flip String.le).
Proof. intros a b Hab Hba. by apply (anti_symm String.le). Qed.

Section resort.
Context `{Argsort}.

Lemma sort_values_run (data : loc) (h : store) (f : frame) (sg : list string)
    (ascending : bool) :
  h !! data = Some f → get_col f "RFM_Segment" = Some (ColStr sg) →
  ∃ l, sort_values data "RFM_Segment" ascending h =
         (Ok l, <[l := frame_take f (nargsort String.le sg ascending)]> h) ∧
       h !! l = None.
Proof.
  intros Hh Hsg.
  destruct (alloc_fresh h (frame_take f (nargsort String.le sg ascending)))
    as (l & Hal & Hfresh).
  exists l. split; [|done]. unfold sort_values, deref.
  rewrite (bind_run _ _ h h f) by by rewrite Hh.
  rewrite (bind_run _ _ h h (ColStr sg)) by by eapply getitem_run.
  by rewrite (bind_run _ _ h h (nargsort String.le sg ascending)).
Qed.

(** Sorting a descending list again moves cells only among equal ones. *)
Lemma nargsort_sorted_fixes (sg : list string) :
  Sorted (flip String.le) sg →
  let idx := nargsort String.le sg false in
  take_idx sg idx = sg ∧
  (∀ j i, idx !! j = Some i → sg !! i = sg !! j) ∧
  (NoDup sg → idx = seq 0 (length sg)).
Proof.
  intros Hsorted idx.
  assert (take_idx sg idx = sg) as Htake.
  { apply (Sorted_unique (flip String.le)); [|done|].
    - apply nargsort_descending; apply _.
    - apply nargsort_take_Permutation. }
  assert (∀ j i, idx !! j = Some i → sg !! i = sg !! j) as Hties.
  { intros j i Hi. transitivity (take_idx sg idx !! j); [|by rewrite Htake].
    rewrite take_idx_lookup by (intros i'; apply nargsort_in_range).
    by rewrite Hi. }
  split; [done|]. split; [done|].
  intros Hnd. apply list_eq. intros j.
  pose proof (nargsort_Permutation String.le sg false) as Hperm. fold idx in Hperm.
  assert (length idx = length sg) as Hlen
    by (by rewrite Hperm, length_seq).
  destruct (decide (j < length sg)%nat) as [Hj|Hj].
  - rewrite lookup_seq_lt by done. simpl.
    destruct (lookup_lt_is_Some_2 idx j ltac:(lia)) as [i Hi].
    rewrite Hi. f_equal.
    destruct (lookup_lt_is_Some_2 sg j Hj) as [s Hs].
    eapply NoDup_lookup; [done| |done]. by rewrite (Hties j i Hi).
  - rewrite lookup_seq_ge by lia. apply lookup_ge_None. lia.
Qed.

(** C10 (amended). [top_customers] on the table [rfm_scores] returns gives
    a new table with the same rows and the same RFM_Segment column, in which
    rows may have changed places only with rows of the same RFM_Segment;
    when no two rows share an RFM_Segment the rows are in the same order. *)
Theorem C10_top_customers_after_rfm_scores (data l : loc) (h h2 : store) :
  rfm_scores data h = (Ok l, h2) →
  ∃ (l' : loc) (f2 : frame) (sg : list string) (idx : list nat),
    top_customers l h2 = (Ok l', <[l' := frame_take f2 idx]> h2) ∧
    h2 !! l = Some f2 ∧ h2 !! l' = None ∧
    get_col f2 "RFM_Segment" = Some (ColStr sg) ∧
    idx ≡ₚ seq 0 (length sg) ∧
    get_col (frame_take f2 idx) "RFM_Segment" = Some (ColStr sg) ∧
    (∀ j i, idx !! j = Some i → sg !! i = sg !! j) ∧
    (NoDup sg → idx = seq 0 (length sg)) ∧
    (NoDup sg → Forall (λ nc, col_len nc.2 = length sg) f2 →
     frame_take f2 idx = f2).
Proof.
  intros (f2 & sg & Hf2 & Hsg & Hsorted)%rfm_scores_segment_sorted.
  destruct (sort_values_run l h2 f2 sg false Hf2 Hsg) as (l' & Hrun & Hfresh).
  destruct (nargsort_sorted_fixes sg Hsorted) as (Htake & Hties & Hid).
  exists l', f2, sg, (nargsort String.le sg false).
  split; [unfold top_customers; by rewrite (bind_run _ _ _ _ _ Hrun)|].
  do 3 (split; [done|]). split; [apply nargsort_Permutation|].
  split.
  { rewrite get_col_frame_take, Hsg.
    change (Some (ColStr (take_idx sg (nargsort String.le sg false)))
            = Some (ColStr sg)).
    by rewrite Htake. }
  do 2 (split; [done|]).
  intros Hnd Hwf. rewrite Hid by done. by apply frame_take_seq.
Qed.

End resort.

(** The two sorts of [example_twenty]. The RFM_Segment cells are [sg0] in
    the order of the customers and [reverse sg0] after the first sort;
    [nargsort] hands each, reversed, to the routine. The positions
    [numpy_argsort] gives are those numpy's routine returns, and the second
    sort is not the identity: of the twenty cells [sg0] the pivot is the
    middle one (position 9, a "222"), which goes to position 18; the
    exchanges swap the positions 5 and 8, then 6 and 7, the pivot comes
    back to position 7, and the two parts are sorted by insertion. *)
Example numpy_routine_on_example_twenty :
  let sg0 := ["111"; "111"; "111"; "111"; "111"; "222"; "222"; "222"; "222";
              "222"; "333"; "333"; "333"; "333"; "333"; "444"; "444"; "444";
              "444"; "444"] in
  @argsort numpy_argsort _ String.le _ (reverse sg0)
    = npy_aquicksort String.le (reverse sg0) ∧
  @argsort numpy_argsort _ String.le _ sg0 = npy_aquicksort String.le sg0 ∧
  npy_aquicksort String.le (reverse sg0)
    = [19; 17; 16; 15; 18; 14; 13; 12; 11; 10; 9; 7; 6; 5; 8; 4; 3; 2; 1; 0]%nat ∧
  npy_aquicksort String.le sg0
    = [0; 1; 2; 3; 4; 8; 7; 9; 5; 6; 10; 11; 12; 13; 14; 18; 15; 16; 17; 19]%nat ∧
  @nargsort numpy_argsort _ String.le _ sg0 false
    = [19; 18; 17; 16; 15; 11; 14; 13; 12; 10; 9; 8; 7; 6; 5; 1; 4; 3; 2; 0]%nat ∧
  @nargsort numpy_argsort _ String.le _ (reverse sg0) false
    = [0; 2; 3; 4; 1; 5; 6; 7; 8; 9; 13; 14; 10; 12; 11; 15; 16; 17; 18; 19]%nat.
Proof. vm_compute. repeat split; reflexivity. Qed.

(** C10, as stated, fails: of the twenty customers of [example_twenty] five
    share each RFM_Segment, and numpy's quicksort, which partitions an array
    of more than 17 cells, moves customers among those of their
    RFM_Segment, in the first sort and again in the second. *)
Lemma C10_second_sort_moves_rows :
  let h1 := (scale_rfm_columns 0%nat {[ 0%nat := example_twenty ]}).2 in
  let h2 := (@rfm_scores numpy_argsort 0%nat h1).2 in
  let h3 := (@top_customers numpy_argsort 1%nat h2).2 in
  (scale_rfm_columns 0%nat {[ 0%nat := example_twenty ]}).1 = Ok 0%nat ∧
  (@rfm_scores numpy_argsort 0%nat h1).1 = Ok 1%nat ∧
  (@top_customers numpy_argsort 1%nat h2).1 = Ok 2%nat ∧
  get_col (default [] (h3 !! 1%nat)) "RFM_Segment" =
    get_col (default [] (h3 !! 2%nat)) "RFM_Segment" ∧
  get_col (default [] (h3 !! 1%nat)) "id" =
    Some (ColInt [20; 19; 18; 17; 16; 12; 15; 14; 13; 11; 10; 9; 8; 7; 6; 2; 5;
                  4; 3; 1]) ∧
  get_col (default [] (h3 !! 2%nat)) "id" =
    Some (ColInt [20; 18; 17; 16; 19; 12; 15; 14; 13; 11; 7; 6; 10; 8; 9; 2; 5;
                  4; 3; 1]) ∧
  h3 !! 2%nat ≠ h3 !! 1%nat.
Proof.
  vm_compute. repeat split; try reflexivity. discriminate.
Qed.

(** On the eight customers of [example_metrics] numpy's routine is an
    insertion sort, and the second sort changes nothing. *)
Example numpy_resort_small_example :
  let h2 := (@rfm_scores numpy_argsort 0%nat
               (scale_rfm_columns 0%nat {[ 0%nat := example_metrics ]}).2).2 in
  let h3 := (@top_customers numpy_argsort 1%nat h2).2 in
  get_col (default [] (h3 !! 1%nat)) "id" = Some (ColInt [7; 8; 5; 6; 3; 4; 1; 2]) ∧
  h3 !! 2%nat = h3 !! 1%nat.
Proof. vm_compute. split; reflexivity. Qed.

(** With the stable routine the second sort changes nothing on the
    example. *)
Example stable_resort_example :
  let h2 := (@rfm_scores stable_argsort 0%nat
               (scale_rfm_columns 0%nat {[ 0%nat := example_metrics ]}).2).2 in
  let h3 := (@top_customers stable_argsort 1%nat h2).2 in
  h3 !! 2%nat = h3 !! 1%nat.
Proof. vm_compute. reflexivity. Qed.

Lemma C10_top_customers_after_rfm_scores_witness :
  ∃ (l' : loc) (f2 : frame) (sg : list string) (idx : list nat),
    let h2 := (@rfm_scores numpy_argsort 0%nat
                 (scale_rfm_columns 0%nat {[ 0%nat := example_twenty ]}).2).2 in
    @top_customers numpy_argsort 1%nat h2 = (Ok l', <[l' := frame_take f2 idx]> h2) ∧
    h2 !! 1%nat = Some f2 ∧
    get_col f2 "RFM_Segment" = Some (ColStr sg) ∧
    idx ≡ₚ seq 0 (length sg) ∧
    (∀ j i, idx !! j = Some i → sg !! i = sg !! j).
Proof.
  destruct (@C10_top_customers_after_rfm_scores numpy_argsort 0%nat 1%nat
              (scale_rfm_columns 0%nat {[ 0%nat := example_twenty ]}).2
              (@rfm_scores numpy_argsort 0%nat
                 (scale_rfm_columns 0%nat {[ 0%nat := example_twenty ]}).2).2)
    as (l' & f2 & sg & idx & Hrun & Hf2 & _ & Hsg & Hperm & _ & Hties & _).
  - vm_compute. reflexivity.
  - exists l', f2, sg, idx. simpl. repeat split; assumption.
Defined.

(** ** Which stages change the table they are given *)

Lemma reads_only_bind {A B} (m : M A) (k : A → M B) :
  reads_only m → (∀ a, reads_only (k a)) → reads_only (bind m k).
Proof.
  intros Hm Hk h. unfold bind. specialize (Hm h).
  destruct (m h) as [[a|e|] h1]; simpl in *; subst; [apply Hk|done|done].
Qed.

Lemma reads_only_getitem (l : loc) (n : string) : reads_only (getitem l n).
Proof. intros h. unfold getitem, bind, deref. simpl. by destruct (get_col _ n). Qed.

Lemma reads_only_lift {A} (r : result A) : reads_only (lift r).
Proof. by intros h. Qed.

Lemma reads_only_ret {A} (a : A) : reads_only (ret a).
Proof. by intros h. Qed.

Lemma reads_only_mapM {A B} (f : A → M B) (l : list A) :
  (∀ a, reads_only (f a)) → reads_only (mapM f l).
Proof.
  intros Hf. induction l as [|a l IH]; simpl; [apply reads_only_ret|].
  apply reads_only_bind; [done|]. intros b.
  apply reads_only_bind; [done|]. intros bs. apply reads_only_ret.
Qed.

Lemma allocates_only_bind {A} (m : M A) (k : A → M loc) :
  reads_only m → (∀ a, allocates_only (k a)) → allocates_only (bind m k).
Proof.
  intros Hm Hk h. unfold bind. specialize (Hm h).
  destruct (m h) as [[a|e|] h1]; simpl in *; subst; [apply Hk|by left..].
Qed.

Lemma allocates_only_raise (e : exn) : allocates_only (raise e).
Proof. intros h. by left. Qed.

Lemma allocates_only_alloc (f : frame) : allocates_only (alloc f).
Proof.
  intros h. right. destruct (alloc_fresh h f) as (l & Hl & Hfresh). by exists l, f.
Qed.

Lemma allocates_only_keeps (m : M loc) (h : store) (l0 : loc) (f0 : frame) :
  allocates_only m → h !! l0 = Some f0 → (m h).2 !! l0 = Some f0.
Proof.
  intros Hm Hl0. destruct (Hm h) as [[-> _] | (l & f & -> & Hfresh)]; [done|].
  simpl. rewrite lookup_insert_ne; [done|]. congruence.
Qed.

Lemma create_rfm_columns_allocates_only (data : loc) (id dates revenue : string) :
  allocates_only (create_rfm_columns data id dates revenue).
Proof.
  unfold create_rfm_columns.
  apply allocates_only_bind; [apply reads_only_getitem|]. intros cdates.
  apply allocates_only_bind; [apply reads_only_getitem|]. intros cid.
  apply allocates_only_bind.
  { apply reads_only_mapM. intros e.
    apply reads_only_bind; [apply reads_only_getitem|]. intros c. apply reads_only_ret. }
  intros cols. apply allocates_only_bind; [apply reads_only_lift|]. intros df.
  destruct df.2 as [|? [|? [|? [|]]]]; try apply allocates_only_raise.
  case_bool_decide; [apply allocates_only_raise|apply allocates_only_alloc].
Qed.

Lemma sort_values_allocates_only `{Argsort} (data : loc) (by_ : string)
    (ascending : bool) :
  allocates_only (sort_values data by_ ascending).
Proof.
  unfold sort_values.
  apply allocates_only_bind; [by intros h|]. intros f.
  apply allocates_only_bind; [apply reads_only_getitem|]. intros k.
  apply allocates_only_bind; [apply reads_only_lift|]. intros idx.
  apply allocates_only_alloc.
Qed.

Lemma top_customers_allocates_only `{Argsort} (data : loc) :
  allocates_only (top_customers data).
Proof.
  intros h. unfold top_customers, bind, ret.
  destruct (sort_values_allocates_only data "RFM_Segment" false h)
    as [[E Hno] | (l & f & E & Hfresh)].
  - left. destruct (sort_values _ _ _ h) as [[l| |] ?]; simpl in *; [|done..].
    by destruct (Hno l).
  - right. exists l, f. by rewrite E.
Qed.

Lemma give_names_to_segments_ok_inv (data r : loc) (h h' : store) :
  give_names_to_segments data h = (Ok r, h') →
  ∃ names, r = data ∧
    apply_naming (default ([] : frame) (h !! data)) = Ok (ColStr names) ∧
    h' = <[data := set_col (default ([] : frame) (h !! data)) "Segment_Name"
                     (ColStr names)]> h.
Proof.
  unfold give_names_to_segments, deref. intros Hs.
  apply bind_ok_inv in Hs as (f & h1 & [= <- <-] & Hs).
  apply bind_ok_inv in Hs as (c & h1 & [Hc ->]%lift_ok_inv & Hs).
  apply bind_ok_inv in Hs as (u & h1 & ->%setitem_inv & [= <- <-]).
  destruct (apply_naming_rows _ _ Hc) as (names & -> & _). by exists names.
Qed.

(** C9, as stated, fails: the encoder returns the table it was given, with
    three columns more. *)
Lemma C9_encoder_changes_its_argument :
  let h : store := {[ 0%nat := example_metrics ]} in
  (scale_rfm_columns 0%nat h).1 = Ok 0%nat ∧
  h !! 0%nat = Some example_metrics ∧
  (scale_rfm_columns 0%nat h).2 !! 0%nat ≠ Some example_metrics ∧
  col_names (default [] ((scale_rfm_columns 0%nat h).2 !! 0%nat)) =
    ["id"; "Recency"; "Frequency"; "Monetary"; "R"; "F"; "M"].
Proof. vm_compute. repeat split; try reflexivity. discriminate. Qed.

Lemma allocates_only_ok (m : M loc) (h h' : store) (l : loc) :
  allocates_only m → m h = (Ok l, h') → h !! l = None ∧ ∃ f, h' = <[l := f]> h.
Proof.
  intros Hm E. destruct (Hm h) as [[_ Hno] | (l' & f & E' & Hfresh)].
  - rewrite E in Hno. by destruct (Hno l).
  - rewrite E in E'. injection E' as -> ->. split; [done|by exists f].
Qed.

(** C9 (amended). [create_rfm_columns] and [top_customers] leave every
    table of the store as it is, and the table they return is a new one.
    [scale_rfm_columns] and [give_names_to_segments] return the table they
    were given, after adding their columns to it; [rfm_scores] adds
    RFM_Score and RFM_Segment to the table it was given and returns a new
    table, the sorted one. No stage changes any other table. *)
Theorem C9_stage_effects_on_store `{Argsort} :
  (∀ (data : loc) (id dates revenue : string) (h : store),
     (∀ l0 f0, h !! l0 = Some f0 →
        (create_rfm_columns data id dates revenue h).2 !! l0 = Some f0) ∧
     (∀ l h', create_rfm_columns data id dates revenue h = (Ok l, h') →
        h !! l = None ∧ ∃ f, h' = <[l := f]> h)) ∧
  (∀ (data : loc) (h : store),
     (∀ l0 f0, h !! l0 = Some f0 → (top_customers data h).2 !! l0 = Some f0) ∧
     (∀ l h', top_customers data h = (Ok l, h') →
        h !! l = None ∧ ∃ f, h' = <[l := f]> h)) ∧
  (∀ (data r : loc) (h h' : store),
     scale_rfm_columns data h = (Ok r, h') →
     r = data ∧
     ∃ cr cf cm : column,
       h' = <[data := set_col (set_col (set_col (default ([] : frame) (h !! data))
                                          "R" cr) "F" cf) "M" cm]> h) ∧
  (∀ (data r : loc) (h h' : store),
     give_names_to_segments data h = (Ok r, h') →
     r = data ∧
     ∃ c : column,
       h' = <[data := set_col (default ([] : frame) (h !! data))
                        "Segment_Name" c]> h) ∧
  (∀ (data l : loc) (h h' : store),
     rfm_scores data h = (Ok l, h') →
     ∃ (sc sg : column) (idx : list nat),
       let f2 := set_col (set_col (default ([] : frame) (h !! data))
                            "RFM_Score" sc) "RFM_Segment" sg in
       l ≠ data ∧ h !! l = None ∧
       h' = <[l := frame_take f2 idx]> (<[data := f2]> h)).
Proof.
  split; [|split; [|split; [|split]]].
  - intros data id dates revenue h. split.
    + intros l0 f0. apply allocates_only_keeps, create_rfm_columns_allocates_only.
    + intros l h'. apply allocates_only_ok, create_rfm_columns_allocates_only.
  - intros data h. split.
    + intros l0 f0. apply allocates_only_keeps, top_customers_allocates_only.
    + intros l h'. apply allocates_only_ok, top_customers_allocates_only.
  - intros data r h h'
      (xr & xf & xm & cr & cf & cm & f & -> & -> & _ & _ & _ & _ & _ & _ & ->)
      %scale_rfm_columns_ok_inv.
    split; [done|]. by exists cr, cf, cm.
  - intros data r h h' (names & -> & _ & ->)%give_names_to_segments_ok_inv.
    split; [done|]. by eexists.
  - intros data l h h'
      (f & r & fc & m & ri & fi & mi & rs & fs & ms & -> & _ & _ & _ & _ & _ & _
       & _ & _ & _ & Hfresh & ->)%rfm_scores_ok_inv.
    eexists _, _, _. split; [|split; [|reflexivity]].
    + intros ->. by rewrite lookup_insert_eq in Hfresh.
    + destruct (decide (l = data)) as [->|Hne];
        [by rewrite lookup_insert_eq in Hfresh|].
      by rewrite lookup_insert_ne in Hfresh.
Qed.

Lemma C9_stage_effects_on_store_witness :
  ∃ cr cf cm : column,
    (scale_rfm_columns 0%nat {[ 0%nat := example_metrics ]}).2 =
    <[0%nat := set_col (set_col (set_col example_metrics "R" cr) "F" cf) "M" cm]>
      ({[ 0%nat := example_metrics ]} : store).
Proof.
  destruct (proj1 (proj2 (proj2 (@C9_stage_effects_on_store stable_argsort)))
              0%nat 0%nat {[ 0%nat := example_metrics ]}
              (scale_rfm_columns 0%nat {[ 0%nat := example_metrics ]}).2)
    as (_ & cr & cf & cm & E).
  - vm_compute. reflexivity.
  - exists cr, cf, cm. exact E.
Defined.

(** * Further properties *)

(** ** Assigning columns *)

Lemma set_col_same (f : frame) (n : string) (c : column) :
  get_col f n = Some c → set_col f n c = f.
Proof.
  induction f as [|[n' c'] f IH]; simpl; [done|].
  destruct (decide (n' = n)) as [->|Hne]; [by intros [= ->]|].
  intros Hc. by rewrite IH.
Qed.

Lemma set_col_new (f : frame) (n : string) (c : column) :
  get_col f n = None → set_col f n c = (f ++ [(n, c)])%list.
Proof.
  induction f as [|[n' c'] f IH]; simpl; [done|].
  destruct (decide (n' = n)) as [->|Hne]; [done|].
  intros Hc. by rewrite IH.
Qed.

Lemma col_names_set_col_old (f : frame) (n : string) (c : column) :
  is_Some (get_col f n) → col_names (set_col f n c) = col_names f.
Proof.
  unfold col_names. induction f as [|[n' c'] f IH]; simpl; [by intros [? ?]|].
  destruct (decide (n' = n)) as [->|Hne]; [done|].
  intros Hc. rewrite !fmap_cons. simpl. f_equal. by apply IH.
Qed.

(** ** The encoder and the table it is given *)

(** X1. A refused run of the encoder leaves the table encoded up to the
    column that was refused: nothing is added when Recency is refused, R
    stays when Frequency is refused, R and F stay when Monetary is. *)
Theorem encoder_failure_leaves_partial_table (data : loc) (h : store) (f : frame)
    (xr xf xm : list Z) :
  h !! data = Some f →
  get_col f "Recency" = Some (ColInt xr) →
  get_col f "Frequency" = Some (ColInt xf) →
  get_col f "Monetary" = Some (ColInt xm) →
  (¬ NoDup (quartile_edges xr) →
     scale_rfm_columns data h = (Raise ValueError, h)) ∧
  (NoDup (quartile_edges xr) → ¬ NoDup (quartile_edges xf) →
     ∃ cr, qcut xr ["1"; "2"; "3"; "4"] = Ok cr ∧
       scale_rfm_columns data h =
         (Raise ValueError, <[data := set_col f "R" cr]> h)) ∧
  (NoDup (quartile_edges xr) → NoDup (quartile_edges xf) →
   ¬ NoDup (quartile_edges xm) →
     ∃ cr cf, qcut xr ["1"; "2"; "3"; "4"] = Ok cr ∧
       qcut xf ["4"; "3"; "2"; "1"] = Ok cf ∧
       scale_rfm_columns data h =
         (Raise ValueError, <[data := set_col (set_col f "R" cr) "F" cf]> h)).
Proof.
  intros Hh Hr Hf Hm.
  rewrite (scale_rfm_columns_run data h f xr xf xm) by done.
  destruct labels_up_ok as [Hu1 Hu2]. destruct labels_down_ok as [Hd1 Hd2].
  rewrite !qcut_run by done.
  repeat case_bool_decide; repeat split; intros; try done; eauto.
Qed.

Lemma encoder_failure_leaves_partial_table_witness :
  ∃ cr, qcut [1; 2; 3; 4; 5; 6; 7; 8; 9; 10; 11; 12] ["1"; "2"; "3"; "4"] = Ok cr ∧
    scale_rfm_columns 0%nat
      {[ 0%nat := [("Recency", ColInt [1; 2; 3; 4; 5; 6; 7; 8; 9; 10; 11; 12]);
                   ("Frequency", ColInt [1; 1; 1; 1; 1; 1; 1; 1; 1; 2; 3; 4]);
                   ("Monetary", ColInt [1; 2; 3; 4; 5; 6; 7; 8; 9; 10; 11; 12])] ]} =
    (Raise ValueError,
     <[0%nat := set_col
          [("Recency", ColInt [1; 2; 3; 4; 5; 6; 7; 8; 9; 10; 11; 12]);
           ("Frequency", ColInt [1; 1; 1; 1; 1; 1; 1; 1; 1; 2; 3; 4]);
           ("Monetary", ColInt [1; 2; 3; 4; 5; 6; 7; 8; 9; 10; 11; 12])] "R" cr]>
       {[ 0%nat := [("Recency", ColInt [1; 2; 3; 4; 5; 6; 7; 8; 9; 10; 11; 12]);
                    ("Frequency", ColInt [1; 1; 1; 1; 1; 1; 1; 1; 1; 2; 3; 4]);
                    ("Monetary", ColInt [1; 2; 3; 4; 5; 6; 7; 8; 9; 10; 11; 12])] ]}).
Proof.
  refine (proj1 (proj2 (encoder_failure_leaves_partial_table 0%nat _ _ _ _ _
                          _ _ _ _)) _ _).
  - reflexivity.
  - reflexivity.
  - reflexivity.
  - reflexivity.
  - apply (bool_decide_unpack _). vm_compute. exact I.
  - apply (bool_decide_unpack _). vm_compute. exact I.
Defined.

(** X2. Running the encoder again on the table it has returned changes
    nothing: the same labels are written over R, F and M. *)
Theorem encoder_twice_is_once (data r : loc) (h h1 : store) :
  scale_rfm_columns data h = (Ok r, h1) →
  scale_rfm_columns r h1 = (Ok r, h1).
Proof.
  intros (xr & xf & xm & cr & cf & cm & f & Hfdef & -> & Hr & Hf & Hm & Hcr & Hcf
          & Hcm & ->)%scale_rfm_columns_ok_inv.
  set (f1 := set_col (set_col (set_col f "R" cr) "F" cf) "M" cm).
  rewrite (scale_rfm_columns_run data (<[data := f1]> h) f1 xr xf xm).
  - rewrite Hcr, Hcf, Hcm. f_equal. rewrite insert_insert_eq. f_equal.
    assert (get_col f1 "R" = Some cr) as HR
      by (unfold f1; rewrite !get_set_col_ne by done; apply get_set_col_eq).
    rewrite (set_col_same f1 "R" cr HR).
    assert (get_col f1 "F" = Some cf) as HF
      by (unfold f1; rewrite !get_set_col_ne by done; apply get_set_col_eq).
    rewrite (set_col_same f1 "F" cf HF).
    apply set_col_same. unfold f1. apply get_set_col_eq.
  - apply lookup_insert_eq.
  - unfold f1. by rewrite !get_set_col_ne.
  - unfold f1. by rewrite !get_set_col_ne.
  - unfold f1. by rewrite !get_set_col_ne.
Qed.

Lemma encoder_twice_is_once_witness :
  scale_rfm_columns 0%nat (scale_rfm_columns 0%nat {[ 0%nat := example_metrics ]}).2
  = (Ok 0%nat, (scale_rfm_columns 0%nat {[ 0%nat := example_metrics ]}).2).
Proof.
  apply (encoder_twice_is_once 0%nat 0%nat {[ 0%nat := example_metrics ]}).
  vm_compute. reflexivity.
Defined.

(** X3. The encoder changes no column but R, F and M, and on a table that
    has none of the three it appends them, in this order, after the columns
    that are there. *)
Theorem encoder_touches_label_columns_only (data r : loc) (h h1 : store) :
  scale_rfm_columns data h = (Ok r, h1) →
  ∃ (f f1 : frame) (cr cf cm : column),
    f = default ([] : frame) (h !! data) ∧ h1 !! r = Some f1 ∧
    (∀ n, n ≠ "R" → n ≠ "F" → n ≠ "M" → get_col f1 n = get_col f n) ∧
    get_col f1 "R" = Some cr ∧ get_col f1 "F" = Some cf ∧
    get_col f1 "M" = Some cm ∧
    (get_col f "R" = None → get_col f "F" = None → get_col f "M" = None →
     f1 = (f ++ [("R", cr); ("F", cf); ("M", cm)])%list).
Proof.
  intros (xr & xf & xm & cr & cf & cm & f & Hfdef & -> & Hr & Hf & Hm & Hcr & Hcf
          & Hcm & ->)%scale_rfm_columns_ok_inv.
  eexists f, _, cr, cf, cm. rewrite lookup_insert_eq.
  split; [done|]. split; [done|]. split; [|split; [|split; [|split]]].
  - intros n H1 H2 H3. by rewrite !get_set_col_ne.
  - rewrite !get_set_col_ne by done. apply get_set_col_eq.
  - rewrite !get_set_col_ne by done. apply get_set_col_eq.
  - apply get_set_col_eq.
  - intros HR HF HM.
    rewrite (set_col_new f "R") by done.
    rewrite (set_col_new _ "F")
      by (rewrite <- (set_col_new f "R" cr) by done; by rewrite get_set_col_ne).
    rewrite (set_col_new _ "M").
    + by rewrite <- !app_assoc.
    + rewrite <- (set_col_new _ "F" cf)
        by (rewrite <- (set_col_new f "R" cr) by done; by rewrite get_set_col_ne).
      rewrite <- (set_col_new f "R" cr) by done. by rewrite !get_set_col_ne.
Qed.

Lemma encoder_touches_label_columns_only_witness :
  ∃ (f1 : frame) (cr cf cm : column),
    (scale_rfm_columns 0%nat {[ 0%nat := example_metrics ]}).2 !! 0%nat = Some f1 ∧
    f1 = (example_metrics ++ [("R", cr); ("F", cf); ("M", cm)])%list.
Proof.
  destruct (encoder_touches_label_columns_only 0%nat 0%nat
              {[ 0%nat := example_metrics ]}
              (scale_rfm_columns 0%nat {[ 0%nat := example_metrics ]}).2)
    as (f & f1 & cr & cf & cm & Hf & Hf1 & _ & _ & _ & _ & Happ).
  - vm_compute. reflexivity.
  - exists f1, cr, cf, cm. split; [exact Hf1|].
    rewrite Hf in Happ. apply Happ; reflexivity.
Defined.

(** ** Labels and metric values *)

Lemma bin_id_mono (e0 e1 e2 e3 e4 x y : Z) :
  (e0 ≤ 4 * x)%Z → (x ≤ y)%Z →
  (bin_id [e0; e1; e2; e3; e4] x ≤ bin_id [e0; e1; e2; e3; e4] y)%nat.
Proof.
  intros Hx Hxy. unfold bin_id. simpl.
  rewrite !filter_cons, filter_nil.
  destruct (decide (Some (4 * x)%Z = Some e0)) as [Ex|Ex],
    (decide (Some (4 * y)%Z = Some e0)) as [Ey|Ey];
    try (injection Ex as Ex); try (injection Ey as Ey);
    try (assert (4 * x ≠ e0)%Z by congruence);
    try (assert (4 * y ≠ e0)%Z by congruence);
    repeat case_decide; simpl; lia.
Qed.

Lemma label_of_bin (b : nat) :
  (1 ≤ b ≤ 4)%nat →
  (∃ a, ["1"; "2"; "3"; "4"] !! (b - 1)%nat = Some a ∧ label_digit a = Z.of_nat b) ∧
  (∃ a, ["4"; "3"; "2"; "1"] !! (b - 1)%nat = Some a ∧
        label_digit a = (5 - Z.of_nat b)%Z).
Proof.
  intros Hb. destruct b as [|[|[|[|[|b]]]]]; try lia;
    split; eexists; split; try reflexivity.
Qed.

(** The cell of a label column, by the bin of the metric value. *)
Lemma qcut_cell_by_bin (xs : list Z) (labels : list string) (c : column) :
  qcut xs labels = Ok c →
  ∃ cells, c = ColCat labels cells ∧ length cells = length xs ∧
    ∀ (i : nat) (x : Z), xs !! i = Some x →
      (1 ≤ bin_id (quartile_edges xs) x ≤ 4)%nat ∧
      cells !! i = Some (labels !! (bin_id (quartile_edges xs) x - 1)%nat) ∧
      ∀ (j : nat) (y : Z), xs !! j = Some y → (x ≤ y)%Z →
        (bin_id (quartile_edges xs) x ≤ bin_id (quartile_edges xs) y)%nat.
Proof.
  intros (Hne & Hnd & Hlab & _ & ->)%qcut_ok_inv.
  eexists. split; [reflexivity|]. split; [by rewrite length_fmap|].
  intros i x Hi. rewrite list_lookup_fmap, Hi. simpl.
  assert (x ∈ xs) as Hx by by eapply list_elem_of_lookup_2.
  rewrite quartile_edges_unfold. simpl. set (s := merge_sort Z.le xs).
  pose proof (quantile4_0 s) as H0.
  pose proof (quantile4_4 xs s eq_refl Hne) as H4.
  pose proof (sorted_cells_min xs s eq_refl x Hx).
  pose proof (sorted_cells_max xs s eq_refl x Hx).
  pose proof (bin_id_range (quantile4 s 0) (quantile4 s 1) (quantile4 s 2)
                (quantile4 s 3) (quantile4 s 4) x ltac:(lia)) as Hrange.
  split; [done|]. split.
  - unfold bin_label. simpl length. by rewrite decide_False by lia.
  - intros j y Hj Hxy. apply bin_id_mono; lia.
Qed.

(** X4. The labels follow the metric values: of two customers of an encoded
    table, the one with the smaller Recency has the smaller or the same R,
    and the one with the smaller Frequency (Monetary) has the greater or
    the same F (M); every label is a number from 1 to 4. *)
Theorem labels_are_monotone (data r : loc) (h h1 : store) :
  scale_rfm_columns data h = (Ok r, h1) →
  ∃ (f1 : frame) (xr xf xm : list Z) (rs fs ms : list (option string)),
    h1 !! r = Some f1 ∧
    get_col f1 "Recency" = Some (ColInt xr) ∧
    get_col f1 "Frequency" = Some (ColInt xf) ∧
    get_col f1 "Monetary" = Some (ColInt xm) ∧
    get_col f1 "R" = Some (ColCat ["1"; "2"; "3"; "4"] rs) ∧
    get_col f1 "F" = Some (ColCat ["4"; "3"; "2"; "1"] fs) ∧
    get_col f1 "M" = Some (ColCat ["4"; "3"; "2"; "1"] ms) ∧
    (∀ (i j : nat) (x y : Z), xr !! i = Some x → xr !! j = Some y → (x ≤ y)%Z →
       ∃ a b, rs !! i = Some (Some a) ∧ rs !! j = Some (Some b) ∧
              (1 ≤ label_digit a ≤ label_digit b)%Z ∧ (label_digit b ≤ 4)%Z) ∧
    (∀ (i j : nat) (x y : Z), xf !! i = Some x → xf !! j = Some y → (x ≤ y)%Z →
       ∃ a b, fs !! i = Some (Some a) ∧ fs !! j = Some (Some b) ∧
              (1 ≤ label_digit b ≤ label_digit a)%Z ∧ (label_digit a ≤ 4)%Z) ∧
    (∀ (i j : nat) (x y : Z), xm !! i = Some x → xm !! j = Some y → (x ≤ y)%Z →
       ∃ a b, ms !! i = Some (Some a) ∧ ms !! j = Some (Some b) ∧
              (1 ≤ label_digit b ≤ label_digit a)%Z ∧ (label_digit a ≤ 4)%Z).
Proof.
  intros (xr & xf & xm & cr & cf & cm & f & Hfdef & -> & Hr & Hf & Hm & Hcr & Hcf
          & Hcm & ->)%scale_rfm_columns_ok_inv.
  apply qcut_cell_by_bin in Hcr as (rs & -> & _ & Hrs).
  apply qcut_cell_by_bin in Hcf as (fs & -> & _ & Hfs).
  apply qcut_cell_by_bin in Hcm as (ms & -> & _ & Hms).
  eexists _, xr, xf, xm, rs, fs, ms. rewrite lookup_insert_eq.
  split; [done|].
  repeat (rewrite get_set_col_eq || rewrite get_set_col_ne by done).
  do 6 (split; [done|]).
  split; [|split]; intros i j x y Hi Hj Hxy.
  - destruct (Hrs i x Hi) as (Hbx & -> & Hmono).
    destruct (Hrs j y Hj) as (Hby & -> & _). specialize (Hmono j y Hj Hxy).
    destruct (label_of_bin _ Hbx) as [(a & -> & Ha) _].
    destruct (label_of_bin _ Hby) as [(b & -> & Hb) _].
    exists a, b. rewrite Ha, Hb. repeat split; try done; lia.
  - destruct (Hfs i x Hi) as (Hbx & -> & Hmono).
    destruct (Hfs j y Hj) as (Hby & -> & _). specialize (Hmono j y Hj Hxy).
    destruct (label_of_bin _ Hbx) as [_ (a & -> & Ha)].
    destruct (label_of_bin _ Hby) as [_ (b & -> & Hb)].
    exists a, b. rewrite Ha, Hb. repeat split; try done; lia.
  - destruct (Hms i x Hi) as (Hbx & -> & Hmono).
    destruct (Hms j y Hj) as (Hby & -> & _). specialize (Hmono j y Hj Hxy).
    destruct (label_of_bin _ Hbx) as [_ (a & -> & Ha)].
    destruct (label_of_bin _ Hby) as [_ (b & -> & Hb)].
    exists a, b. rewrite Ha, Hb. repeat split; try done; lia.
Qed.

Lemma labels_are_monotone_witness :
  ∃ (f1 : frame) (xr : list Z) (rs : list (option string)),
    (scale_rfm_columns 0%nat {[ 0%nat := example_metrics ]}).2 !! 0%nat = Some f1 ∧
    get_col f1 "Recency" = Some (ColInt xr) ∧
    get_col f1 "R" = Some (ColCat ["1"; "2"; "3"; "4"] rs) ∧
    ∀ (i j : nat) (x y : Z), xr !! i = Some x → xr !! j = Some y → (x ≤ y)%Z →
      ∃ a b, rs !! i = Some (Some a) ∧ rs !! j = Some (Some b) ∧
             (1 ≤ label_digit a ≤ label_digit b)%Z ∧ (label_digit b ≤ 4)%Z.
Proof.
  destruct (labels_are_monotone 0%nat 0%nat {[ 0%nat := example_metrics ]}
              (scale_rfm_columns 0%nat {[ 0%nat := example_metrics ]}).2)
    as (f1 & xr & xf & xm & rs & fs & ms & H1 & H2 & _ & _ & H3 & _ & _ & H4 & _).
  - vm_compute. reflexivity.
  - exists f1, xr, rs. repeat split; assumption.
Defined.

(** ** The metric table *)

Lemma zsum_cons (a : Z) (l : list Z) : zsum (a :: l) = (a + zsum l)%Z.
Proof. reflexivity. Qed.

Lemma zsum_fmap_add {A} (f g : A → Z) (l : list A) :
  zsum ((λ k, f k + g k)%Z <$> l) = (zsum (f <$> l) + zsum (g <$> l))%Z.
Proof.
  induction l as [|a l IH]; [done|]. rewrite !fmap_cons, !zsum_cons, IH. lia.
Qed.

Lemma zsum_ones {A} (l : list A) : zsum ((λ _, 1%Z) <$> l) = Z.of_nat (length l).
Proof.
  induction l as [|a l IH]; [done|]. rewrite fmap_cons, zsum_cons, IH.
  simpl length. lia.
Qed.

Section partition.
Context {K : Type} `{EqDecision K}.

Lemma zsum_indicator (gks : list K) (k0 : K) (z : Z) :
  NoDup gks → k0 ∈ gks →
  zsum ((λ k, if decide (k0 = k) then z else 0%Z) <$> gks) = z.
Proof.
  induction 1 as [|k gks Hk Hnd IH]; [by intros ?%elem_of_nil|].
  rewrite fmap_cons, zsum_cons. intros [->|Hin]%elem_of_cons.
  - rewrite decide_True by done.
    assert (zsum ((λ k0, if decide (k = k0) then z else 0%Z) <$> gks) = 0%Z) as ->; [|lia].
    clear IH Hnd. induction gks as [|k' gks IH]; [done|].
    rewrite fmap_cons, zsum_cons.
    rewrite decide_False by set_solver. rewrite IH; [done|set_solver].
  - rewrite decide_False by (intros ->; done). by rewrite IH.
Qed.

Lemma group_of_cons {V} (k0 : K) (ks : list K) (v0 : V) (vs : list V) (k : K) :
  group_of (k0 :: ks) (v0 :: vs) k =
  ((if decide (k0 = k) then [v0] else []) ++ group_of ks vs k)%list.
Proof.
  unfold group_of. simpl. rewrite filter_cons. simpl.
  by destruct (decide (k0 = k)).
Qed.

(** The groups of a key column split the rows: what is added up group by
    group is what is added up over all rows. *)
Lemma zsum_groups {V} (w : V → Z) (ks gks : list K) (vs : list V) :
  NoDup gks → (∀ k, k ∈ ks → k ∈ gks) → length ks = length vs →
  zsum ((λ k, zsum (w <$> group_of ks vs k)) <$> gks) = zsum (w <$> vs).
Proof.
  intros Hnd. revert vs. induction ks as [|k0 ks IH]; intros [|v0 vs] Hsub Hlen;
    try done.
  - clear. induction gks as [|k gks IH]; [done|].
    by rewrite fmap_cons, zsum_cons, IH.
  - erewrite list_fmap_ext.
    2:{ intros i k _. rewrite group_of_cons, fmap_app.
        instantiate (1 := λ k, ((if decide (k0 = k) then w v0 else 0) +
                                zsum (w <$> group_of ks vs k))%Z).
        simpl. clear. generalize (w <$> group_of ks vs k). intros l.
        destruct (decide (k0 = k)); simpl; lia. }
    rewrite (zsum_fmap_add (λ k, if decide (k0 = k) then w v0 else 0%Z)).
    rewrite zsum_indicator by (try done; apply Hsub; left).
    rewrite IH; [done| |by injection Hlen].
    intros k Hk. apply Hsub. by right.
Qed.

Lemma elem_of_group_of_lookup {V} (ks : list K) (vs : list V) (p : nat)
    (k : K) (v : V) :
  ks !! p = Some k → vs !! p = Some v → v ∈ group_of ks vs k.
Proof.
  intros Hk Hv. unfold group_of. apply list_elem_of_fmap. exists (k, v).
  split; [done|]. apply list_elem_of_filter. split; [done|].
  apply list_elem_of_lookup. exists p. by apply lookup_zip_Some.
Qed.
End partition.

(** The metric table of a well-formed transaction table, in closed form,
    for the three dtypes a key column can have. *)
Lemma create_rfm_columns_closed (h : store) (data : loc) (f : frame)
    (id dates revenue : string) (cid : column) (ds rs : list Z) :
  h !! data = Some f →
  NoDup [dates; id; revenue] →
  get_col f id = Some cid → (∀ cats xs, cid ≠ ColCat cats xs) →
  get_col f dates = Some (ColDate ds) →
  get_col f revenue = Some (ColInt rs) →
  col_len cid = length ds → col_len cid = length rs →
  ∃ (K : Type) (eqd : EqDecision K) (cell : K → value) (C : list K → column)
    (ks gks : list K),
    Inj (=) (=) cell ∧ (∀ l, col_values (C l) = cell <$> l) ∧ cid = C ks ∧
    length ks = length ds ∧ length ks = length rs ∧
    NoDup gks ∧ (∀ k, k ∈ gks ↔ k ∈ ks) ∧
    StronglySorted value_le (cell <$> gks) ∧
    create_rfm_columns data id dates revenue h =
      (if bool_decide (id ∈ rfm_column_names) then raise ValueError else
       alloc [(id, C gks);
              ("Recency",
               ColInt ((λ k, timedelta_days
                               (default 0 (zmax_list ds)
                                - default 0 (zmax_list (group_of ks ds k))))
                         <$> gks));
              ("Frequency",
               ColInt ((λ k, Z.of_nat (length (group_of ks ks k))) <$> gks));
              ("Monetary", ColInt ((λ k, zsum (group_of ks rs k)) <$> gks))]) h.
Proof.
  intros Hh Hnd Hcid Hcat Hdates Hrev Hl1 Hl2.
  erewrite create_rfm_columns_run by done.
  destruct cid as [ks|ks|ks|cats xs]; [| | |by destruct (Hcat cats xs)].
  - exists Z, _, VInt, ColInt, ks, (group_keys Z.le ks).
    assert (length ks = length ds) as Hds
      by (revert Hl1; unfold col_len; simpl; by rewrite length_fmap).
    assert (length ks = length rs) as Hrs
      by (revert Hl2; unfold col_len; simpl; by rewrite length_fmap).
    split; [apply _|]. do 4 (split; [done|]).
    split; [apply group_keys_NoDup|]. split; [apply elem_of_group_keys|].
    split.
    { apply (StronglySorted_fmap VInt Z.le); [done|].
      apply StronglySorted_merge_sort; apply _. }
    unfold bind, lift, groupby_agg. rewrite agg_three_run; [done|done| |].
    + intros k. apply elem_of_group_keys.
    + intros k. unfold col_len. simpl. by rewrite !length_fmap.
  - exists Z, _, VDate, ColDate, ks, (group_keys Z.le ks).
    assert (length ks = length ds) as Hds
      by (revert Hl1; unfold col_len; simpl; by rewrite length_fmap).
    assert (length ks = length rs) as Hrs
      by (revert Hl2; unfold col_len; simpl; by rewrite length_fmap).
    split; [apply _|]. do 4 (split; [done|]).
    split; [apply group_keys_NoDup|]. split; [apply elem_of_group_keys|].
    split.
    { apply (StronglySorted_fmap VDate Z.le); [done|].
      apply StronglySorted_merge_sort; apply _. }
    unfold bind, lift, groupby_agg. rewrite agg_three_run; [done|done| |].
    + intros k. apply elem_of_group_keys.
    + intros k. unfold col_len. simpl. by rewrite !length_fmap.
  - exists string, _, VStr, ColStr, ks, (group_keys String.le ks).
    assert (length ks = length ds) as Hds
      by (revert Hl1; unfold col_len; simpl; by rewrite length_fmap).
    assert (length ks = length rs) as Hrs
      by (revert Hl2; unfold col_len; simpl; by rewrite length_fmap).
    split; [apply _|]. do 4 (split; [done|]).
    split; [apply group_keys_NoDup|]. split; [apply elem_of_group_keys|].
    split.
    { apply (StronglySorted_fmap VStr String.le); [done|].
      apply StronglySorted_merge_sort; apply _. }
    unfold bind, lift, groupby_agg. rewrite agg_three_run; [done|done| |].
    + intros k. apply elem_of_group_keys.
    + intros k. unfold col_len. simpl. by rewrite !length_fmap.
Qed.

Lemma StronglySorted_lookup_2 {A} (R : relation A) (l : list A) (i j : nat)
    (a b : A) :
  StronglySorted R l → (i < j)%nat → l !! i = Some a → l !! j = Some b → R a b.
Proof.
  intros Hs. revert i j. induction Hs as [|x l Hs IH Hall]; intros i j Hij Ha Hb;
    [by rewrite lookup_nil in Ha|].
  destruct j as [|j]; [lia|]. destruct i as [|i]; simpl in *.
  - injection Ha as ->. eapply Forall_forall in Hall; [exact Hall|].
    by eapply list_elem_of_lookup_2.
  - eapply (IH i j); [lia|done|done].
Qed.

(** X5. The rows of the metric table are in strictly ascending order of
    the customer identifier (numbers and timestamps by value, strings
    lexicographically), whatever the order of the transactions. *)
Theorem metric_rows_ascend_by_id (h : store) (data : loc) (f : frame)
    (id dates revenue : string) (cid : column) (ds rs : list Z) :
  h !! data = Some f →
  NoDup [dates; id; revenue] → id ∉ rfm_column_names →
  get_col f id = Some cid → (∀ cats xs, cid ≠ ColCat cats xs) →
  get_col f dates = Some (ColDate ds) →
  get_col f revenue = Some (ColInt rs) →
  col_len cid = length ds → col_len cid = length rs →
  ∃ (l : loc) (key rec freq mon : column),
    create_rfm_columns data id dates revenue h =
      (Ok l, <[l := [(id, key); ("Recency", rec); ("Frequency", freq);
                     ("Monetary", mon)]]> h) ∧
    ∀ (i j : nat) (a b : value),
      (i < j)%nat → col_values key !! i = Some a → col_values key !! j = Some b →
      value_le a b ∧ a ≠ b.
Proof.
  intros Hh Hnd Hid Hcid Hcat Hdates Hrev Hl1 Hl2.
  destruct (create_rfm_columns_closed h data f id dates revenue cid ds rs)
    as (K & eqd & cell & C & ks & gks & Hinj & HC & -> & Hds & Hrs & Hnd' & Hin
        & Hsorted & ->); try done.
  rewrite bool_decide_eq_false_2 by done.
  edestruct alloc_fresh as (l & -> & _).
  eexists l, _, _, _, _. split; [reflexivity|].
  intros i j a b Hij Ha Hb. rewrite HC in Ha, Hb. split.
  - by eapply (StronglySorted_lookup_2 value_le).
  - intros ->. assert (i = j); [|lia].
    eapply NoDup_lookup; [|exact Ha|exact Hb]. by apply (NoDup_fmap_2 _).
Qed.

(** X6. The metric table accounts for every transaction: the Frequency
    column adds up to the number of transactions, the Monetary column to
    the sum of all revenues. *)
Theorem metric_table_conserves_totals (h : store) (data : loc) (f : frame)
    (id dates revenue : string) (cid : column) (ds rs : list Z) :
  h !! data = Some f →
  NoDup [dates; id; revenue] → id ∉ rfm_column_names →
  get_col f id = Some cid → (∀ cats xs, cid ≠ ColCat cats xs) →
  get_col f dates = Some (ColDate ds) →
  get_col f revenue = Some (ColInt rs) →
  col_len cid = length ds → col_len cid = length rs →
  ∃ (l : loc) (key rec : column) (freq mon : list Z),
    create_rfm_columns data id dates revenue h =
      (Ok l, <[l := [(id, key); ("Recency", rec); ("Frequency", ColInt freq);
                     ("Monetary", ColInt mon)]]> h) ∧
    zsum freq = Z.of_nat (length rs) ∧ zsum mon = zsum rs.
Proof.
  intros Hh Hnd Hid Hcid Hcat Hdates Hrev Hl1 Hl2.
  destruct (create_rfm_columns_closed h data f id dates revenue cid ds rs)
    as (K & eqd & cell & C & ks & gks & Hinj & HC & -> & Hds & Hrs & Hnd' & Hin
        & Hsorted & ->); try done.
  rewrite bool_decide_eq_false_2 by done.
  edestruct alloc_fresh as (l & -> & _).
  eexists l, _, _, _, _. split; [reflexivity|]. split.
  - rewrite <- Hrs, <- (zsum_ones ks).
    rewrite <- (zsum_groups (λ _, 1%Z) ks gks ks Hnd')
      by (try done; intros k; apply Hin).
    f_equal. apply list_fmap_ext. intros _ k _. by rewrite zsum_ones.
  - transitivity (zsum ((λ z : Z, z) <$> rs)); [|by rewrite list_fmap_id].
    rewrite <- (zsum_groups (λ z : Z, z) ks gks rs Hnd')
      by (try done; intros k; apply Hin).
    f_equal. apply list_fmap_ext. intros _ k _. by rewrite list_fmap_id.
Qed.

(** X7. In the metric table every Frequency is at least 1, and when there
    is a transaction at all some customer has Recency 0. *)
Theorem metric_table_frequency_and_recency (h : store) (data : loc) (f : frame)
    (id dates revenue : string) (cid : column) (ds rs : list Z) :
  h !! data = Some f →
  NoDup [dates; id; revenue] → id ∉ rfm_column_names →
  get_col f id = Some cid → (∀ cats xs, cid ≠ ColCat cats xs) →
  get_col f dates = Some (ColDate ds) →
  get_col f revenue = Some (ColInt rs) →
  col_len cid = length ds → col_len cid = length rs →
  ∃ (l : loc) (key mon : column) (rec freq : list Z),
    create_rfm_columns data id dates revenue h =
      (Ok l, <[l := [(id, key); ("Recency", ColInt rec); ("Frequency", ColInt freq);
                     ("Monetary", mon)]]> h) ∧
    (∀ c, c ∈ freq → (1 ≤ c)%Z) ∧
    (ds ≠ [] → 0%Z ∈ rec).
Proof.
  intros Hh Hnd Hid Hcid Hcat Hdates Hrev Hl1 Hl2.
  destruct (create_rfm_columns_closed h data f id dates revenue cid ds rs)
    as (K & eqd & cell & C & ks & gks & Hinj & HC & -> & Hds & Hrs & Hnd' & Hin
        & Hsorted & ->); try done.
  rewrite bool_decide_eq_false_2 by done.
  edestruct alloc_fresh as (l & -> & _).
  eexists l, _, _, _, _. split; [reflexivity|]. split.
  - intros c (k & -> & Hk%Hin)%list_elem_of_fmap.
    pose proof (group_of_nonempty ks ks k eq_refl Hk) as Hne.
    destruct (group_of ks ks k); [done|simpl; lia].
  - intros Hne. destruct (zmax_list_is_Some ds Hne) as [gmax Hg].
    pose proof Hg as [(p & Hp)%list_elem_of_lookup_1 Hmax]%zmax_list_spec.
    destruct (lookup_lt_is_Some_2 ks p) as [k Hk];
      [rewrite Hds; by eapply lookup_lt_Some|].
    assert (k ∈ ks) as Hin' by by eapply list_elem_of_lookup_2.
    pose proof (elem_of_group_of_lookup ks ds p k gmax Hk Hp) as Hgrp.
    destruct (zmax_list_is_Some (group_of ks ds k)) as [cmax Hc];
      [by intros E; rewrite E in Hgrp; apply elem_of_nil in Hgrp|].
    pose proof Hc as [Hcin Hcmax]%zmax_list_spec.
    assert (cmax = gmax) as ->.
    { specialize (Hcmax _ Hgrp). apply elem_of_group_of in Hcin.
      specialize (Hmax _ Hcin). lia. }
    apply list_elem_of_fmap. exists k. split; [|by apply Hin].
    rewrite Hg, Hc. simpl. by rewrite Z.sub_diag.
Qed.

(** X8. A customer identifier field called Recency, Frequency or Monetary
    is refused with a ValueError, and nothing is added to the store: after
    the renaming of the aggregates the key cannot be put back as a column. *)
Theorem metric_table_refuses_clashing_id (h : store) (data : loc) (f : frame)
    (id dates revenue : string) (cid : column) (ds rs : list Z) :
  h !! data = Some f →
  NoDup [dates; id; revenue] → id ∈ rfm_column_names →
  get_col f id = Some cid → (∀ cats xs, cid ≠ ColCat cats xs) →
  get_col f dates = Some (ColDate ds) →
  get_col f revenue = Some (ColInt rs) →
  col_len cid = length ds → col_len cid = length rs →
  create_rfm_columns data id dates revenue h = (Raise ValueError, h).
Proof.
  intros Hh Hnd Hid Hcid Hcat Hdates Hrev Hl1 Hl2.
  destruct (create_rfm_columns_closed h data f id dates revenue cid ds rs)
    as (K & eqd & cell & C & ks & gks & Hinj & HC & -> & Hds & Hrs & Hnd' & Hin
        & Hsorted & ->); try done.
  by rewrite bool_decide_eq_true_2 by done.
Qed.

Lemma metric_rows_ascend_by_id_witness :
  ∃ (l : loc) (key rec freq mon : column),
    create_rfm_columns 0%nat "customer" "date" "revenue"
      {[ 0%nat := example_transactions ]} =
      (Ok l, <[l := [("customer", key); ("Recency", rec); ("Frequency", freq);
                     ("Monetary", mon)]]> {[ 0%nat := example_transactions ]}) ∧
    ∀ (i j : nat) (a b : value),
      (i < j)%nat → col_values key !! i = Some a → col_values key !! j = Some b →
      value_le a b ∧ a ≠ b.
Proof.
  apply (metric_rows_ascend_by_id {[ 0%nat := example_transactions ]} 0%nat
           example_transactions "customer" "date" "revenue"
           (ColStr ["C1"; "C1"; "C2"])
           [timestamp 2023 1 1; timestamp 2023 2 1; timestamp 2023 2 10]
           [100; 50; 500]).
  - reflexivity.
  - apply (bool_decide_unpack _). vm_compute. exact I.
  - apply (bool_decide_unpack _). vm_compute. exact I.
  - reflexivity.
  - intros cats xs. discriminate.
  - reflexivity.
  - reflexivity.
  - reflexivity.
  - reflexivity.
Defined.

Lemma metric_table_conserves_totals_witness :
  ∃ (l : loc) (key rec : column) (freq mon : list Z),
    create_rfm_columns 0%nat "customer" "date" "revenue"
      {[ 0%nat := example_transactions ]} =
      (Ok l, <[l := [("customer", key); ("Recency", rec);
                     ("Frequency", ColInt freq); ("Monetary", ColInt mon)]]>
               {[ 0%nat := example_transactions ]}) ∧
    zsum freq = 3%Z ∧ zsum mon = 650%Z.
Proof.
  apply (metric_table_conserves_totals {[ 0%nat := example_transactions ]} 0%nat
           example_transactions "customer" "date" "revenue"
           (ColStr ["C1"; "C1"; "C2"])
           [timestamp 2023 1 1; timestamp 2023 2 1; timestamp 2023 2 10]
           [100; 50; 500]).
  - reflexivity.
  - apply (bool_decide_unpack _). vm_compute. exact I.
  - apply (bool_decide_unpack _). vm_compute. exact I.
  - reflexivity.
  - intros cats xs. discriminate.
  - reflexivity.
  - reflexivity.
  - reflexivity.
  - reflexivity.
Defined.

Lemma metric_table_frequency_and_recency_witness :
  ∃ (l : loc) (key mon : column) (rec freq : list Z),
    create_rfm_columns 0%nat "customer" "date" "revenue"
      {[ 0%nat := example_transactions ]} =
      (Ok l, <[l := [("customer", key); ("Recency", ColInt rec);
                     ("Frequency", ColInt freq); ("Monetary", mon)]]>
               {[ 0%nat := example_transactions ]}) ∧
    (∀ c, c ∈ freq → (1 ≤ c)%Z) ∧ 0%Z ∈ rec.
Proof.
  destruct (metric_table_frequency_and_recency
              {[ 0%nat := example_transactions ]} 0%nat
              example_transactions "customer" "date" "revenue"
              (ColStr ["C1"; "C1"; "C2"])
              [timestamp 2023 1 1; timestamp 2023 2 1; timestamp 2023 2 10]
              [100; 50; 500])
    as (l & key & mon & rec & freq & Hrun & Hfreq & Hrec).
  - reflexivity.
  - apply (bool_decide_unpack _). vm_compute. exact I.
  - apply (bool_decide_unpack _). vm_compute. exact I.
  - reflexivity.
  - intros cats xs. discriminate.
  - reflexivity.
  - reflexivity.
  - reflexivity.
  - reflexivity.
  - exists l, key, mon, rec, freq. split; [exact Hrun|]. split; [exact Hfreq|].
    apply Hrec. discriminate.
Defined.

Lemma metric_table_refuses_clashing_id_witness :
  create_rfm_columns 0%nat "Recency" "date" "revenue"
    {[ 0%nat := [("Recency", ColStr ["C1"; "C2"]);
                 ("date", ColDate [timestamp 2023 1 1; timestamp 2023 2 1]);
                 ("revenue", ColInt [100; 50])] ]} =
  (Raise ValueError,
   {[ 0%nat := [("Recency", ColStr ["C1"; "C2"]);
                ("date", ColDate [timestamp 2023 1 1; timestamp 2023 2 1]);
                ("revenue", ColInt [100; 50])] ]}).
Proof.
  apply (metric_table_refuses_clashing_id _ 0%nat
           [("Recency", ColStr ["C1"; "C2"]);
            ("date", ColDate [timestamp 2023 1 1; timestamp 2023 2 1]);
            ("revenue", ColInt [100; 50])]
           "Recency" "date" "revenue" (ColStr ["C1"; "C2"])
           [timestamp 2023 1 1; timestamp 2023 2 1] [100; 50]).
  - reflexivity.
  - apply (bool_decide_unpack _). vm_compute. exact I.
  - apply (bool_decide_unpack _). vm_compute. exact I.
  - reflexivity.
  - intros cats xs. discriminate.
  - reflexivity.
  - reflexivity.
  - reflexivity.
  - reflexivity.
Defined.

(** ** Failures of the score aggregator *)

Lemma bind_unmodelled {A B} (m : M A) (k : A → M B) (h h' : store) :
  m h = (Unmodelled, h') → bind m k h = (Unmodelled, h').
Proof. unfold bind. by intros ->. Qed.

Lemma getattr_missing (h : store) (l : loc) (f : frame) (n : string) :
  h !! l = Some f → get_col f n = None → getattr l n h = (Raise AttributeError, h).
Proof. intros Hl Hc. unfold getattr, bind, deref. simpl. rewrite Hl. simpl. by rewrite Hc. Qed.

Lemma py_int_raise (s : string) (e : exn) : py_int s = Raise e → e = ValueError.
Proof.
  unfold py_int. destruct (match s with EmptyString => _ | String _ _ => _ end);
    [done|]. destruct (has_lenient s); [done|]. by intros [= <-].
Qed.

Lemma astype_int_raise (c : column) (e : exn) :
  astype_int c = Raise e → e = ValueError.
Proof.
  destruct c as [xs|xs|xs|cats xs]; simpl; try done.
  - intros (s & _ & Hs)%rmap_raise_inv. by eapply py_int_raise.
  - case_bool_decide; [by intros [= <-]|]. case_decide; [done|].
    destruct (rmap py_int cats) as [cs|e'|] eqn:E; simpl; [| |done].
    + intros (s & _ & Hs)%rmap_raise_inv. by eapply py_int_raise.
    + intros [= ->]. apply rmap_raise_inv in E as (s & _ & Hs).
      by eapply py_int_raise.
Qed.

(** A column that converts to integers has a text for every cell. *)
Lemma astype_str_of_int (c : column) (zs : list Z) :
  astype_int c = Ok zs → ∃ ss, astype_str c = Ok ss.
Proof. destruct c; simpl; try done; eauto. Qed.

Section score_failures.
Context `{Argsort}.

(** X9. [rfm_scores] changes the table only when it succeeds, and it
    succeeds exactly when the table has the columns R, F and M and each of
    them converts to integers. Of the errors it raises, the AttributeError
    stands for a missing column and the ValueError for a cell that is no
    integer. *)
Theorem rfm_scores_all_or_nothing (data : loc) (h : store) (f : frame) :
  h !! data = Some f →
  ((∃ l, (rfm_scores data h).1 = Ok l) ↔
   ∃ r fc m ri fi mi,
     get_col f "R" = Some r ∧ get_col f "F" = Some fc ∧ get_col f "M" = Some m ∧
     astype_int r = Ok ri ∧ astype_int fc = Ok fi ∧ astype_int m = Ok mi) ∧
  ((∀ l, (rfm_scores data h).1 ≠ Ok l) → (rfm_scores data h).2 = h) ∧
  (∀ e, (rfm_scores data h).1 = Raise e →
     (e = AttributeError ∧
      (get_col f "R" = None ∨ get_col f "F" = None ∨ get_col f "M" = None)) ∨
     (e = ValueError ∧
      ∃ n c, n ∈ ["R"; "F"; "M"] ∧ get_col f n = Some c ∧
             astype_int c = Raise ValueError)).
Proof.
  intros Hh.
  assert ((∃ r fc m ri fi mi,
     get_col f "R" = Some r ∧ get_col f "F" = Some fc ∧ get_col f "M" = Some m ∧
     astype_int r = Ok ri ∧ astype_int fc = Ok fi ∧ astype_int m = Ok mi) →
     ∃ l, (rfm_scores data h).1 = Ok l) as Hok.
  { intros (r & fc & m & ri & fi & mi & HR & HF & HM & Hri & Hfi & Hmi).
    destruct (astype_str_of_int _ _ Hri) as [rs Hrs].
    destruct (astype_str_of_int _ _ Hfi) as [fs Hfs].
    destruct (astype_str_of_int _ _ Hmi) as [ms Hms].
    destruct (rfm_scores_run data h f r fc m ri fi mi rs fs ms)
      as (l & -> & _); try done. by exists l. }
  assert ((∃ r fc m ri fi mi,
     get_col f "R" = Some r ∧ get_col f "F" = Some fc ∧ get_col f "M" = Some m ∧
     astype_int r = Ok ri ∧ astype_int fc = Ok fi ∧ astype_int m = Ok mi) ∨
    ((rfm_scores data h).2 = h ∧ (∀ l, (rfm_scores data h).1 ≠ Ok l) ∧
     ∀ e, (rfm_scores data h).1 = Raise e →
     (e = AttributeError ∧
      (get_col f "R" = None ∨ get_col f "F" = None ∨ get_col f "M" = None)) ∨
     (e = ValueError ∧
      ∃ n c, n ∈ ["R"; "F"; "M"] ∧ get_col f n = Some c ∧
             astype_int c = Raise ValueError))) as Hcases.
  { unfold rfm_scores.
    destruct (get_col f "R") as [r|] eqn:HR; cycle 1.
    { right. rewrite (bind_raise _ _ h h AttributeError)
        by by eapply getattr_missing.
      simpl. repeat split; try done. intros e [= <-]. left. eauto. }
    rewrite (bind_run _ _ h h r) by by eapply getattr_run.
    destruct (astype_int r) as [ri|e|] eqn:Hri; cycle 1.
    { right. rewrite (bind_raise _ _ h h e) by done.
      simpl. repeat split; try done. intros e' [= <-]. right.
      apply astype_int_raise in Hri as E. subst e. split; [done|].
      exists "R", r. repeat split; try done. set_solver. }
    { right. rewrite (bind_unmodelled _ _ h h) by done.
      simpl. repeat split; done. }
    rewrite (bind_run _ _ h h ri) by done.
    destruct (get_col f "F") as [fc|] eqn:HF; cycle 1.
    { right. rewrite (bind_raise _ _ h h AttributeError)
        by by eapply getattr_missing.
      simpl. repeat split; try done. intros e [= <-]. left. eauto. }
    rewrite (bind_run _ _ h h fc) by by eapply getattr_run.
    destruct (astype_int fc) as [fi|e|] eqn:Hfi; cycle 1.
    { right. rewrite (bind_raise _ _ h h e) by done.
      simpl. repeat split; try done. intros e' [= <-]. right.
      apply astype_int_raise in Hfi as E. subst e. split; [done|].
      exists "F", fc. repeat split; try done. set_solver. }
    { right. rewrite (bind_unmodelled _ _ h h) by done.
      simpl. repeat split; done. }
    rewrite (bind_run _ _ h h fi) by done.
    destruct (get_col f "M") as [m|] eqn:HM; cycle 1.
    { right. rewrite (bind_raise _ _ h h AttributeError)
        by by eapply getattr_missing.
      simpl. repeat split; try done. intros e [= <-]. left. eauto. }
    rewrite (bind_run _ _ h h m) by by eapply getattr_run.
    destruct (astype_int m) as [mi|e|] eqn:Hmi; cycle 1.
    { right. rewrite (bind_raise _ _ h h e) by done.
      simpl. repeat split; try done. intros e' [= <-]. right.
      apply astype_int_raise in Hmi as E. subst e. split; [done|].
      exists "M", m. repeat split; try done. set_solver. }
    { right. rewrite (bind_unmodelled _ _ h h) by done.
      simpl. repeat split; done. }
    left. by exists r, fc, m, ri, fi, mi. }
  split; [split; [|done]|split].
  - intros [l Hl]. destruct Hcases as [?|(_ & Hno & _)]; [done|]. by destruct (Hno l).
  - intros Hno. destruct Hcases as [Hs|(? & _)]; [|done].
    destruct (Hok Hs) as [l Hl]. by destruct (Hno l).
  - intros e He. destruct Hcases as [Hs|(_ & _ & Herr)]; [|by apply Herr].
    destruct (Hok Hs) as [l Hl]. congruence.
Qed.

End score_failures.

Lemma rfm_scores_all_or_nothing_witness :
  (@rfm_scores stable_argsort 0%nat {[ 0%nat := example_metrics ]}).2
  = {[ 0%nat := example_metrics ]}.
Proof.
  destruct (@rfm_scores_all_or_nothing stable_argsort 0%nat
              {[ 0%nat := example_metrics ]} example_metrics) as (_ & Hkeep & _).
  - reflexivity.
  - apply Hkeep. intros l. vm_compute. discriminate.
Defined.

(** ** [top_customers] on any table *)

Section top_customers.
Context `{Argsort}.

(** X10. [top_customers] raises KeyError exactly when the table has no
    RFM_Segment column, and a call that returns no table leaves the store
    as it was. *)
Theorem top_customers_key_error (data : loc) (h : store) (f : frame) :
  h !! data = Some f →
  ((top_customers data h).1 = Raise KeyError ↔ get_col f "RFM_Segment" = None) ∧
  ((∀ l, (top_customers data h).1 ≠ Ok l) → (top_customers data h).2 = h).
Proof.
  intros Hh. split.
  - assert (sort_values data "RFM_Segment" false h =
            match get_col f "RFM_Segment" with
            | None => (Raise KeyError, h)
            | Some k =>
                match col_argsort k false with
                | Ok idx => alloc (frame_take f idx) h
                | Raise e => (Raise e, h)
                | Unmodelled => (Unmodelled, h)
                end
            end) as Hs.
    { unfold sort_values, deref.
      rewrite (bind_run _ _ h h f) by (by rewrite Hh).
      destruct (get_col f "RFM_Segment") as [k|] eqn:Hk.
      - rewrite (bind_run _ _ h h k) by by eapply getitem_run.
        unfold bind, lift. by destruct (col_argsort k false).
      - by rewrite (bind_raise _ _ h h KeyError) by by eapply getitem_missing. }
    unfold top_customers, bind. rewrite Hs.
    destruct (get_col f "RFM_Segment") as [k|]; [|done].
    destruct k; simpl; split; done.
  - intros Hno.
    destruct (top_customers_allocates_only data h) as [[E _]|(l & f' & E & _)];
      [done|]. rewrite E in Hno. by destruct (Hno l).
Qed.

(** X11. On a table with a text column RFM_Segment, [top_customers] returns
    a new table with the same columns and the same rows, put in descending
    order of RFM_Segment. *)
Theorem top_customers_sorts_rows (data : loc) (h : store) (f : frame) (n : nat)
    (sg : list string) :
  h !! data = Some f → wf_frame n f →
  get_col f "RFM_Segment" = Some (ColStr sg) →
  ∃ (l : loc) (f' : frame) (sg' : list string),
    top_customers data h = (Ok l, <[l := f']> h) ∧ h !! l = None ∧
    rows f' ≡ₚ rows f ∧ col_names f' = col_names f ∧ wf_frame n f' ∧
    get_col f' "RFM_Segment" = Some (ColStr sg') ∧ sg' ≡ₚ sg ∧
    ∀ (i j : nat) (a b : string),
      (i < j)%nat → sg' !! i = Some a → sg' !! j = Some b →
      String.leb b a = true.
Proof.
  intros Hh Hwf Hsg.
  destruct (sort_values_run data h f sg false Hh Hsg) as (l & Hrun & Hfresh).
  set (idx := nargsort String.le sg false) in *.
  assert (length sg = n) as Hn.
  { pose proof (wf_frame_col n f _ _ Hwf Hsg) as Hc.
    unfold col_len in Hc. simpl in Hc. by rewrite length_fmap in Hc. }
  assert (idx ≡ₚ seq 0 n) as Hperm by (rewrite <- Hn; apply nargsort_Permutation).
  exists l, (frame_take f idx), (take_idx sg idx).
  split; [unfold top_customers; by rewrite (bind_run _ _ _ _ _ Hrun)|].
  split; [done|]. split; [by apply (rows_frame_take n)|].
  split; [apply col_names_frame_take|]. split.
  { assert (length idx = n) as Hlen by (by rewrite Hperm, length_seq).
    pose proof (wf_frame_take n f idx Hwf) as Hw. rewrite Hlen in Hw.
    apply Hw. intros i. rewrite Hperm, elem_of_seq. lia. }
  split; [by rewrite get_col_frame_take, Hsg|].
  split; [apply nargsort_take_Permutation|].
  intros i j a b Hij Ha Hb. apply Is_true_true.
  change (flip String.le a b).
  eapply (StronglySorted_lookup_2 (flip String.le)); [|exact Hij|exact Ha|exact Hb].
  apply (Sorted_StronglySorted _), nargsort_descending; apply _.
Qed.

End top_customers.

Lemma top_customers_key_error_witness :
  (@top_customers stable_argsort 0%nat {[ 0%nat := example_metrics ]}).1
  = Raise KeyError.
Proof.
  destruct (@top_customers_key_error stable_argsort 0%nat
              {[ 0%nat := example_metrics ]} example_metrics) as [Hiff _].
  - reflexivity.
  - apply Hiff. reflexivity.
Defined.

Lemma top_customers_sorts_rows_witness :
  ∃ (l : loc) (f' : frame),
    @top_customers stable_argsort 0%nat
      {[ 0%nat := [("id", ColInt [1; 2; 3]);
                   ("RFM_Segment", ColStr ["144"; "411"; "233"])] ]} =
    (Ok l, <[l := f']>
             {[ 0%nat := [("id", ColInt [1; 2; 3]);
                          ("RFM_Segment", ColStr ["144"; "411"; "233"])] ]}) ∧
    rows f' ≡ₚ rows [("id", ColInt [1; 2; 3]);
                     ("RFM_Segment", ColStr ["144"; "411"; "233"])].
Proof.
  destruct (@top_customers_sorts_rows stable_argsort 0%nat
              {[ 0%nat := [("id", ColInt [1; 2; 3]);
                           ("RFM_Segment", ColStr ["144"; "411"; "233"])] ]}
              [("id", ColInt [1; 2; 3]);
               ("RFM_Segment", ColStr ["144"; "411"; "233"])]
              3%nat ["144"; "411"; "233"])
    as (l & f' & sg' & Hrun & _ & Hrows & _).
  - reflexivity.
  - repeat constructor.
  - reflexivity.
  - exists l, f'. split; [exact Hrun|exact Hrows].
Defined.

(** ** The segment classifier on a table *)

Lemma row_get_row_at_wf (n : nat) (f : frame) (name : string) (j : nat) :
  wf_frame n f → (j < n)%nat →
  row_get (row_at f j) name = get_col f name ≫= (λ c, col_values c !! j).
Proof.
  intros Hwf Hj. unfold row_at.
  induction Hwf as [|[n' c'] f Hc Hwf IH]; [done|].
  simpl in Hc. unfold col_len in Hc.
  destruct (lookup_lt_is_Some_2 (col_values c') j) as [v Hv]; [lia|].
  simpl. rewrite Hv. simpl.
  destruct (decide (n' = name)) as [->|Hne]; [simpl; by rewrite ?Hv|apply IH].
Qed.

Lemma rmap_fmap_ext {A B C} (f : B → result C) (g g' : A → B) (l : list A) :
  (∀ a, a ∈ l → f (g a) = f (g' a)) → rmap f (g <$> l) = rmap f (g' <$> l).
Proof.
  induction l as [|a l IH]; [done|]. intros Hf.
  rewrite !fmap_cons. simpl. rewrite (Hf a) by left.
  rewrite IH; [done|]. intros b Hb. apply Hf. by right.
Qed.

Lemma rows_wf (n : nat) (f : frame) :
  wf_frame n f → f ≠ [] → rows f = row_at f <$> seq 0 n.
Proof. intros Hwf Hne. unfold rows. by rewrite (nrows_wf n f Hwf Hne). Qed.

Lemma naming_cell (df : row) (v : value) :
  row_get df "RFM_Score" = Some v → naming df = naming [("RFM_Score", v)].
Proof. intros Hv. apply naming_score_only. by rewrite Hv. Qed.

Lemma naming_nan (df : row) :
  row_get df "RFM_Score" = Some VNaN → naming df = Ok "Demands Activation".
Proof. intros Hv. by rewrite (naming_cell df VNaN Hv). Qed.

(** [naming] on the rows of a table, by the cells of their RFM_Score. *)
Lemma rmap_naming_cells (rs : list row) (vs : list value) :
  Forall2 (λ r v, row_get r "RFM_Score" = Some v) rs vs →
  ((∀ v, v ∈ vs → (∃ z, v = VInt z) ∨ v = VNaN) →
     ∃ names, rmap naming rs = Ok names ∧
       Forall2 (λ v nm, naming [("RFM_Score", v)] = Ok nm) vs names) ∧
  ((∃ v, v ∈ vs ∧ ((∃ s, v = VStr s) ∨ (∃ d, v = VDate d))) →
     rmap naming rs = Raise TypeError).
Proof.
  induction 1 as [|r v rs vs Hv HF [IHok IHbad]].
  - split; [intros _; by exists []|]. by intros (v & Hv%elem_of_nil & _).
  - simpl. rewrite (naming_cell r v Hv). split.
    + intros Hnum. destruct IHok as (names & -> & Hnames).
      { intros v' Hv'. apply Hnum. by right. }
      destruct (Hnum v) as [[z ->]| ->]; [left| |].
      * rewrite (naming_int [("RFM_Score", VInt z)] z eq_refl). simpl.
        eexists. split; [done|]. constructor; [|done].
        by rewrite (naming_int [("RFM_Score", VInt z)] z eq_refl).
      * exists ("Demands Activation" :: names). split; [done|]. by constructor.
    + intros (v' & Hin & Hbad). apply elem_of_cons in Hin as [->|Hin].
      * by destruct Hbad as [[s ->]|[d ->]].
      * rewrite IHbad by (by exists v').
        destruct v as [z| | |]; try done.
        by rewrite (naming_int [("RFM_Score", VInt z)] z eq_refl).
Qed.

Lemma rows_score_cells (n : nat) (f : frame) (c : column) :
  wf_frame n f → get_col f "RFM_Score" = Some c →
  Forall2 (λ r v, row_get r "RFM_Score" = Some v) (rows f) (col_values c).
Proof.
  intros Hwf Hc.
  assert (f ≠ []) as Hne by (intros ->; done).
  pose proof (wf_frame_col n f _ _ Hwf Hc) as Hlen. unfold col_len in Hlen.
  rewrite (rows_wf n f Hwf Hne).
  apply Forall2_same_length_lookup_2.
  { by rewrite length_fmap, length_seq. }
  intros j r v Hr Hv. apply list_lookup_fmap_Some in Hr as (i & -> & Hi).
  apply lookup_seq in Hi as [-> Hj]. simpl.
  rewrite (row_get_row_at_wf n f _ j Hwf Hj), Hc. done.
Qed.

(** X12. On a table with rows, [give_names_to_segments] fails with KeyError
    when there is no RFM_Score column and with TypeError when some cell of
    RFM_Score is a string or a date, and both times leaves the table as it
    was; when every cell is an integer or NaN it succeeds and stores the
    name of each cell. A row whose score is NaN is named "Demands
    Activation". *)
Theorem give_names_to_segments_failures (data : loc) (h : store) (f : frame)
    (n : nat) :
  h !! data = Some f → wf_frame n f → f ≠ [] → (0 < n)%nat →
  (get_col f "RFM_Score" = None →
     give_names_to_segments data h = (Raise KeyError, h)) ∧
  (∀ c, get_col f "RFM_Score" = Some c →
     ((∃ v, v ∈ col_values c ∧ ((∃ s, v = VStr s) ∨ (∃ d, v = VDate d))) →
        give_names_to_segments data h = (Raise TypeError, h)) ∧
     ((∀ v, v ∈ col_values c → (∃ z, v = VInt z) ∨ v = VNaN) →
        ∃ names,
          give_names_to_segments data h =
            (Ok data, <[data := set_col f "Segment_Name" (ColStr names)]> h) ∧
          Forall2 (λ v nm, naming [("RFM_Score", v)] = Ok nm)
            (col_values c) names)) ∧
  (∀ df, row_get df "RFM_Score" = Some VNaN →
     naming df = Ok "Demands Activation").
Proof.
  intros Hh Hwf Hne Hn.
  assert (deref data h = (Ok f, h)) as Hderef by (unfold deref; by rewrite Hh).
  assert (nrows f ≠ 0%nat) as Hrows by (rewrite (nrows_wf n f Hwf Hne); lia).
  split; [|split; [|apply naming_nan]].
  - intros Hc. unfold give_names_to_segments.
    rewrite (bind_run _ _ h h f Hderef).
    apply bind_raise. unfold lift, apply_naming. rewrite decide_False by done.
    rewrite (rows_wf n f Hwf Hne).
    destruct n as [|n]; [lia|]. rewrite <- cons_seq, fmap_cons.
    erewrite rmap_cons_raise; [done|].
    unfold naming, row_getitem.
    by rewrite (row_get_row_at_wf (S n) f _ 0 Hwf Hn), Hc.
  - intros c Hc.
    destruct (rmap_naming_cells _ _ (rows_score_cells n f c Hwf Hc))
      as [Hok Hbad].
    split.
    + intros Hv. unfold give_names_to_segments.
      rewrite (bind_run _ _ h h f Hderef).
      apply bind_raise. unfold lift, apply_naming. rewrite decide_False by done.
      by rewrite (Hbad Hv).
    + intros Hv. destruct (Hok Hv) as (names & Hnames & HF).
      exists names. split; [|done]. unfold give_names_to_segments.
      rewrite (bind_run _ _ h h f Hderef).
      rewrite (bind_run _ _ h h (ColStr names))
        by (unfold lift, apply_naming; rewrite decide_False by done;
            by rewrite Hnames).
      by rewrite (bind_run _ _ h _ tt) by by apply setitem_run.
Qed.

Lemma give_names_to_segments_failures_witness :
  give_names_to_segments 0%nat {[ 0%nat := example_metrics ]} =
    (Raise KeyError, {[ 0%nat := example_metrics ]}).
Proof.
  apply (give_names_to_segments_failures 0%nat {[ 0%nat := example_metrics ]}
           example_metrics 8%nat).
  - reflexivity.
  - repeat constructor.
  - discriminate.
  - lia.
  - reflexivity.
Defined.

(** X13. [give_names_to_segments] on the table it has returned names every
    row as before: the second run succeeds and changes nothing. *)
Theorem give_names_to_segments_twice (data r : loc) (h h' : store) (f : frame)
    (n : nat) :
  h !! data = Some f → wf_frame n f →
  give_names_to_segments data h = (Ok r, h') →
  give_names_to_segments r h' = (Ok r, h').
Proof.
  intros Hh Hwf (names & -> & Hnames & ->)%give_names_to_segments_ok_inv.
  rewrite Hh in *. simpl in *.
  set (f' := set_col f "Segment_Name" (ColStr names)).
  assert (f ≠ []) as Hne.
  { intros ->. unfold apply_naming in Hnames. simpl in Hnames. done. }
  assert (nrows f = n) as Hrows by by apply nrows_wf.
  assert (n ≠ 0)%nat as Hn.
  { intros ->. unfold apply_naming in Hnames. by rewrite Hrows in Hnames. }
  assert (rmap naming (rows f) = Ok names) as Hrm.
  { unfold apply_naming in Hnames. rewrite decide_False in Hnames by lia.
    destruct (rmap naming (rows f)); simpl in Hnames; by simplify_eq. }
  assert (length names = n) as Hlen.
  { apply rmap_Forall2, Forall2_length in Hrm.
    rewrite <- Hrm, (rows_wf n f Hwf Hne). by rewrite length_fmap, length_seq. }
  assert (wf_frame n f') as Hwf'.
  { apply wf_frame_set_col; [done|]. unfold col_len. simpl.
    by rewrite length_fmap. }
  assert (f' ≠ []) as Hne' by (unfold f'; destruct f as [|[??] ?]; simpl;
                               [done|by case_decide]).
  assert (apply_naming f' = Ok (ColStr names)) as Hnames'.
  { unfold apply_naming. rewrite (nrows_wf n f' Hwf' Hne').
    rewrite decide_False by done.
    rewrite (rows_wf n f' Hwf' Hne').
    rewrite (rmap_fmap_ext naming (row_at f') (row_at f)).
    - by rewrite <- (rows_wf n f Hwf Hne), Hrm.
    - intros j [_ Hj]%elem_of_seq. apply naming_score_only.
      rewrite !(row_get_row_at_wf n) by (done || lia).
      unfold f'. by rewrite get_set_col_ne. }
  unfold give_names_to_segments.
  rewrite (bind_run _ _ _ _ f') by (unfold deref; by rewrite lookup_insert_eq).
  rewrite (bind_run _ _ _ _ (ColStr names)) by (unfold lift; by rewrite Hnames').
  rewrite (bind_run _ _ _ (<[data := set_col f' "Segment_Name" (ColStr names)]>
                            (<[data := f']> h)) tt)
    by (apply setitem_run, lookup_insert_eq).
  rewrite insert_insert_eq, set_col_same; [done|]. apply get_set_col_eq.
Qed.

Lemma give_names_to_segments_twice_witness :
  give_names_to_segments 0%nat
    {[ 0%nat := [("id", ColInt [1; 2]); ("RFM_Score", ColInt [4; 11]);
                 ("Segment_Name",
                  ColStr ["Requires Attention"; "Can't Loose Them"])] ]} =
    (Ok 0%nat,
     {[ 0%nat := [("id", ColInt [1; 2]); ("RFM_Score", ColInt [4; 11]);
                  ("Segment_Name",
                   ColStr ["Requires Attention"; "Can't Loose Them"])] ]}).
Proof.
  apply (give_names_to_segments_twice 0%nat 0%nat
           {[ 0%nat := [("id", ColInt [1; 2]); ("RFM_Score", ColInt [4; 11])] ]}
           _ [("id", ColInt [1; 2]); ("RFM_Score", ColInt [4; 11])] 2%nat).
  - reflexivity.
  - repeat constructor.
  - vm_compute. reflexivity.
Defined.

(** ** The stages in sequence *)

Lemma col_names_set_col (f : frame) (n : string) (c : column) :
  col_names (set_col f n c) =
  if decide (n ∈ col_names f) then col_names f else (col_names f ++ [n])%list.
Proof.
  unfold col_names. induction f as [|[n' c'] f IH]; simpl; [done|].
  destruct (decide (n' = n)) as [->|Hne].
  - rewrite decide_True by left. done.
  - rewrite fmap_cons, IH. simpl.
    destruct (decide (n ∈ f.*1)) as [Hin|Hin].
    + rewrite decide_True by (by right). done.
    + rewrite decide_False; [done|]. intros [?|?]%elem_of_cons; by simplify_eq.
Qed.

Lemma col_names_set_col_new (f : frame) (n : string) (c : column)
    (names : list string) :
  col_names f = names → n ∉ names →
  col_names (set_col f n c) = (names ++ [n])%list.
Proof.
  intros <- Hn. rewrite col_names_set_col. by rewrite decide_False.
Qed.

Local Ltac not_in_names :=
  simpl; rewrite !not_elem_of_cons; repeat split;
  first [done|congruence|apply not_elem_of_nil].

Section pipeline.
Context `{Argsort}.

(** The table at the end of the three stages that follow the metric
    deriver, in terms of the metric columns, the labels the encoder gives
    them, and the permutation of the sort. *)
Lemma pipeline_final_table (data r : loc) (h h1 : store) (f : frame) (n : nat) :
  h !! data = Some f → wf_frame n f →
  scale_rfm_columns data h = (Ok r, h1) →
  ∃ (l : loc) (h2 h3 : store) (f3 : frame) (idx : list nat)
    (xr xf xm : list Z) (lr lf lm : list string) (sc : list Z)
    (names : list string),
    rfm_scores r h1 = (Ok l, h2) ∧
    give_names_to_segments l h2 = (Ok l, h3) ∧ h3 !! l = Some f3 ∧
    idx ≡ₚ seq 0 n ∧ (0 < n)%nat ∧
    length xr = n ∧ length xf = n ∧ length xm = n ∧
    length lr = n ∧ length lf = n ∧ length lm = n ∧ length sc = n ∧
    qcut xr ["1"; "2"; "3"; "4"] = Ok (ColCat ["1"; "2"; "3"; "4"] (Some <$> lr)) ∧
    qcut xf ["4"; "3"; "2"; "1"] = Ok (ColCat ["4"; "3"; "2"; "1"] (Some <$> lf)) ∧
    qcut xm ["4"; "3"; "2"; "1"] = Ok (ColCat ["4"; "3"; "2"; "1"] (Some <$> lm)) ∧
    Forall (λ a, a ∈ ["1"; "2"; "3"; "4"]) lr ∧
    Forall (λ a, a ∈ ["4"; "3"; "2"; "1"]) lf ∧
    Forall (λ a, a ∈ ["4"; "3"; "2"; "1"]) lm ∧
    sc = zip3_with (λ a b c, a + b + c)%Z
           (label_digit <$> lr) (label_digit <$> lf) (label_digit <$> lm) ∧
    get_col f3 "Recency" = Some (ColInt (take_idx xr idx)) ∧
    get_col f3 "Frequency" = Some (ColInt (take_idx xf idx)) ∧
    get_col f3 "Monetary" = Some (ColInt (take_idx xm idx)) ∧
    get_col f3 "R" = Some (ColCat ["1"; "2"; "3"; "4"] (take_idx (Some <$> lr) idx)) ∧
    get_col f3 "F" = Some (ColCat ["4"; "3"; "2"; "1"] (take_idx (Some <$> lf) idx)) ∧
    get_col f3 "M" = Some (ColCat ["4"; "3"; "2"; "1"] (take_idx (Some <$> lm) idx)) ∧
    get_col f3 "RFM_Score" = Some (ColInt (take_idx sc idx)) ∧
    get_col f3 "Segment_Name" = Some (ColStr names) ∧ length names = n ∧
    (∀ (j : nat) (s : Z), take_idx sc idx !! j = Some s →
       ∃ nm, names !! j = Some nm ∧ naming [("RFM_Score", VInt s)] = Ok nm) ∧
    wf_frame n f3 ∧
    ∀ id : string,
      col_names f = [id; "Recency"; "Frequency"; "Monetary"] →
      id ∉ ["R"; "F"; "M"; "RFM_Score"; "RFM_Segment"; "Segment_Name"] →
      col_names f3 = [id; "Recency"; "Frequency"; "Monetary"; "R"; "F"; "M";
                      "RFM_Score"; "RFM_Segment"; "Segment_Name"].
Proof.
  intros Hh Hwf Hscale.
  apply scale_rfm_columns_ok_inv in Hscale
    as (xr & xf & xm & cr & cf & cm & f0 & Hf0 & -> & Hr & Hf & Hm & Hcr & Hcf
        & Hcm & ->).
  rewrite Hh in Hf0. simpl in Hf0. subst f0.
  destruct (qcut_cells _ _ _ Hcr) as (lr & -> & Hlr & Hner & Hallr).
  destruct (qcut_cells _ _ _ Hcf) as (lf & -> & Hlf & _ & Hallf).
  destruct (qcut_cells _ _ _ Hcm) as (lm & -> & Hlm & _ & Hallm).
  set (L1 := ["1"; "2"; "3"; "4"]) in *. set (L2 := ["4"; "3"; "2"; "1"]) in *.
  assert (length xr = n) as Hnr
    by (pose proof (wf_frame_col n f _ _ Hwf Hr) as E; unfold col_len in E;
        simpl in E; by rewrite length_fmap in E).
  assert (length xf = n) as Hnf
    by (pose proof (wf_frame_col n f _ _ Hwf Hf) as E; unfold col_len in E;
        simpl in E; by rewrite length_fmap in E).
  assert (length xm = n) as Hnm
    by (pose proof (wf_frame_col n f _ _ Hwf Hm) as E; unfold col_len in E;
        simpl in E; by rewrite length_fmap in E).
  assert (0 < n)%nat as Hpos by (destruct lr; [done|simpl in *; lia]).
  set (f1 := set_col (set_col (set_col f "R" (ColCat L1 (Some <$> lr))) "F"
                        (ColCat L2 (Some <$> lf))) "M" (ColCat L2 (Some <$> lm))).
  assert (wf_frame n f1) as Hwf1.
  { unfold f1. repeat apply wf_frame_set_col; try done;
      unfold col_len; simpl; rewrite !length_fmap; lia. }
  destruct (rfm_scores_run data (<[data := f1]> h) f1
              (ColCat L1 (Some <$> lr)) (ColCat L2 (Some <$> lf))
              (ColCat L2 (Some <$> lm))
              (label_digit <$> lr) (label_digit <$> lf) (label_digit <$> lm)
              lr lf lm) as (l & Hrun & Hfresh).
  { apply lookup_insert_eq. }
  { unfold f1. rewrite !get_set_col_ne by done. apply get_set_col_eq. }
  { unfold f1. rewrite !get_set_col_ne by done. apply get_set_col_eq. }
  { unfold f1. apply get_set_col_eq. }
  { apply astype_int_labels; [by left|done]. }
  { apply astype_int_labels; [by right|done]. }
  { apply astype_int_labels; [by right|done]. }
  { apply astype_str_labels. }
  { apply astype_str_labels. }
  { apply astype_str_labels. }
  rewrite insert_insert_eq in Hrun, Hfresh.
  set (sc := zip3_with (λ a b c, a + b + c)%Z (label_digit <$> lr)
               (label_digit <$> lf) (label_digit <$> lm)) in *.
  set (sg := zip3_with (λ a b c, a ++ b ++ c) lr lf lm) in *.
  set (f2' := set_col (set_col f1 "RFM_Score" (ColInt sc)) "RFM_Segment"
                (ColStr sg)) in *.
  set (idx := nargsort String.le sg false) in *.
  assert (length sc = n) as Hnsc
    by (apply zip3_with_length; rewrite length_fmap; lia).
  assert (length sg = n) as Hnsg by (apply zip3_with_length; lia).
  assert (wf_frame n f2') as Hwf2'.
  { unfold f2'. repeat apply wf_frame_set_col; try done;
      unfold col_len; simpl; rewrite !length_fmap; lia. }
  assert (idx ≡ₚ seq 0 n) as Hperm by (rewrite <- Hnsg; apply nargsort_Permutation).
  assert (∀ i, i ∈ idx → (i < n)%nat) as Hidx
    by (intros i; rewrite Hperm, elem_of_seq; lia).
  assert (length idx = n) as Hlidx by (by rewrite Hperm, length_seq).
  set (f2 := frame_take f2' idx) in *.
  assert (wf_frame n f2) as Hwf2.
  { pose proof (wf_frame_take n f2' idx Hwf2' Hidx) as Hw. by rewrite Hlidx in Hw. }
  set (h2 := <[l := f2]> (<[data := f2']> h)) in *.
  assert (h2 !! l = Some f2) as Hh2 by apply lookup_insert_eq.
  assert (get_col f2 "RFM_Score" = Some (ColInt (take_idx sc idx))) as Hsc2.
  { unfold f2, f2'. rewrite get_col_frame_take.
    rewrite get_set_col_ne by done. by rewrite get_set_col_eq. }
  assert (f2 ≠ []) as Hne2 by (intros E; by rewrite E in Hsc2).
  (* the names *)
  set (g := λ df : row, match naming df with Ok s => s | _ => "" end).
  assert (∀ j s, take_idx sc idx !! j = Some s →
            naming (row_at f2 j) = naming [("RFM_Score", VInt s)] ∧
            ∃ nm, naming [("RFM_Score", VInt s)] = Ok nm) as Hname.
  { intros j s Hs. split.
    - apply naming_score_only.
      assert (row_get [("RFM_Score", VInt s)] "RFM_Score" = Some (VInt s)) as ->
        by done.
      apply (row_get_row_at f2 "RFM_Score" _ j (VInt s) Hsc2).
      simpl. by rewrite list_lookup_fmap, Hs.
    - eexists. by apply naming_int. }
  assert (length (take_idx sc idx) = n) as Hltake.
  { rewrite take_idx_length; [done|]. intros i Hi. rewrite Hnsc. by apply Hidx. }
  assert (apply_naming f2 = Ok (ColStr (g <$> rows f2))) as Hnaming.
  { unfold apply_naming. rewrite (nrows_wf n f2 Hwf2 Hne2).
    rewrite decide_False by lia.
    rewrite (rmap_ok naming g); [done|].
    intros df [j [-> Hj%elem_of_seq]]%list_elem_of_fmap.
    rewrite (nrows_wf n f2 Hwf2 Hne2) in Hj.
    destruct (lookup_lt_is_Some_2 (take_idx sc idx) j) as [s Hs]; [lia|].
    destruct (Hname j s Hs) as [E [nm Hnam]]. unfold g. by rewrite E, Hnam. }
  set (names := g <$> rows f2) in *.
  exists l, h2, (<[l := set_col f2 "Segment_Name" (ColStr names)]> h2),
    (set_col f2 "Segment_Name" (ColStr names)), idx, xr, xf, xm, lr, lf, lm, sc,
    names.
  split; [exact Hrun|]. split.
  { unfold give_names_to_segments, deref.
    rewrite (bind_run _ _ h2 h2 f2) by (by rewrite Hh2).
    rewrite (bind_run _ _ h2 h2 (ColStr names)) by (unfold lift; by rewrite Hnaming).
    by rewrite (bind_run _ _ h2 _ tt) by by apply setitem_run. }
  split; [apply lookup_insert_eq|]. do 2 (split; [done|]).
  do 3 (split; [done|]). do 3 (split; [lia|]). do 8 (split; [done|]).
  unfold f2, f2', f1.
  repeat (rewrite get_set_col_eq || (rewrite get_set_col_ne by done)
          || rewrite get_col_frame_take).
  rewrite Hr, Hf, Hm. simpl. do 7 (split; [done|]).
  split; [done|]. split.
  { unfold names, rows. rewrite !length_fmap, length_seq.
    apply (nrows_wf n); [exact Hwf2|exact Hne2]. }
  assert (length names = n) as Hlnames.
  { unfold names, rows. rewrite !length_fmap, length_seq.
    apply (nrows_wf n); [exact Hwf2|exact Hne2]. }
  split.
  { intros j s Hs. destruct (Hname j s Hs) as [E [nm Hnam]].
    exists nm. split; [|done].
    unfold names, rows. rewrite !list_lookup_fmap.
    rewrite (nrows_wf n f2 Hwf2 Hne2).
    rewrite lookup_seq_lt by (apply lookup_lt_Some in Hs; lia). simpl.
    unfold g. by rewrite E, Hnam. }
  split.
  { apply wf_frame_set_col; [done|]. unfold col_len. simpl.
    by rewrite length_fmap. }
  intros id Hcols Hid.
  rewrite !not_elem_of_cons in Hid.
  destruct Hid as (HidR & HidF & HidM & HidSc & HidSg & HidNm & _).
  pose proof (col_names_set_col_new _ "R" (ColCat L1 (Some <$> lr)) _ Hcols) as E1.
  pose proof (col_names_set_col_new _ "F" (ColCat L2 (Some <$> lf)) _
                (E1 ltac:(not_in_names))) as E2.
  pose proof (col_names_set_col_new _ "M" (ColCat L2 (Some <$> lm)) _
                (E2 ltac:(not_in_names))) as E3.
  pose proof (col_names_set_col_new _ "RFM_Score" (ColInt sc) _
                (E3 ltac:(not_in_names))) as E4.
  pose proof (col_names_set_col_new _ "RFM_Segment" (ColStr sg) _
                (E4 ltac:(not_in_names))) as E5.
  specialize (E5 ltac:(not_in_names)).
  unfold f2.
  apply (col_names_set_col_new _ "Segment_Name" (ColStr names)
           [id; "Recency"; "Frequency"; "Monetary"; "R"; "F"; "M"; "RFM_Score";
            "RFM_Segment"]); [|not_in_names].
  rewrite col_names_frame_take. exact E5.
Qed.

(** X14. After a successful encoding of a metric table the two later
    stages cannot fail, and in the table they end with every customer has
    an RFM_Score from 3 to 12 and, as Segment_Name, the one of the seven
    names that [naming] gives this score. *)
Theorem pipeline_classifies_every_customer (data r : loc) (h h1 : store)
    (f : frame) (n : nat) :
  h !! data = Some f → wf_frame n f →
  scale_rfm_columns data h = (Ok r, h1) →
  ∃ (l : loc) (h2 h3 : store) (f3 : frame) (sc : list Z) (names : list string),
    rfm_scores r h1 = (Ok l, h2) ∧
    give_names_to_segments l h2 = (Ok l, h3) ∧ h3 !! l = Some f3 ∧
    get_col f3 "RFM_Score" = Some (ColInt sc) ∧
    get_col f3 "Segment_Name" = Some (ColStr names) ∧
    length sc = n ∧ length names = n ∧ (0 < n)%nat ∧
    ∀ j : nat, (j < n)%nat →
      ∃ (s : Z) (nm : string),
        sc !! j = Some s ∧ names !! j = Some nm ∧ (3 ≤ s ≤ 12)%Z ∧
        naming [("RFM_Score", VInt s)] = Ok nm ∧ nm ∈ segment_names.
Proof.
  intros Hh Hwf Hscale.
  destruct (pipeline_final_table data r h h1 f n Hh Hwf Hscale)
    as (l & h2 & h3 & f3 & idx & xr & xf & xm & lr & lf & lm & sc & names & Hrun
        & Hnames & Hf3 & Hperm & Hpos & Hxr & Hxf & Hxm & Hlr & Hlf & Hlm & Hsc
        & Hqr & Hqf & Hqm & Hallr & Hallf & Hallm & Hscdef & HR & HF & HM & HRl
        & HFl & HMl & HSc & HNm & Hlnames & Hnaming & _).
  assert (∀ i, i ∈ idx → (i < length sc)%nat) as Hidx
    by (intros i; rewrite Hperm, elem_of_seq; lia).
  exists l, h2, h3, f3, (take_idx sc idx), names.
  do 5 (split; [done|]).
  assert (length (take_idx sc idx) = n) as Hlt
    by (rewrite take_idx_length by done; by rewrite Hperm, length_seq).
  do 3 (split; [done|]).
  intros j Hj.
  destruct (lookup_lt_is_Some_2 (take_idx sc idx) j) as [s Hs]; [lia|].
  destruct (Hnaming j s Hs) as (nm & Hnm & Hnam).
  exists s, nm. do 2 (split; [done|]).
  assert (3 ≤ s ≤ 12)%Z as Hrange.
  { rewrite take_idx_lookup in Hs by done.
    destruct (idx !! j) as [i|]; [|done]. simpl in Hs. rewrite Hscdef in Hs.
    apply zip3_with_lookup in Hs as (a & b & c & Ha & Hb & Hc & ->).
    apply list_lookup_fmap_Some in Ha as (la & -> & Hla).
    apply list_lookup_fmap_Some in Hb as (lb & -> & Hlb).
    apply list_lookup_fmap_Some in Hc as (lc & -> & Hlc).
    eapply Forall_lookup_1 in Hallr; [|exact Hla].
    eapply Forall_lookup_1 in Hallf; [|exact Hlb].
    eapply Forall_lookup_1 in Hallm; [|exact Hlc].
    destruct (label_int _ la (or_introl eq_refl) Hallr) as (_ & ? & _).
    destruct (label_int _ lb (or_intror eq_refl) Hallf) as (_ & ? & _).
    destruct (label_int _ lc (or_intror eq_refl) Hallm) as (_ & ? & _). lia. }
  do 2 (split; [done|]).
  rewrite (naming_int [("RFM_Score", VInt s)] s eq_refl) in Hnam.
  injection Hnam as <-. unfold segment_names.
  repeat match goal with
  | |- context [(?a <=? ?b)%Z] => destruct (Z.leb_spec a b)
  | |- context [(?a =? ?b)%Z] => destruct (Z.eqb_spec a b)
  end; set_solver.
Qed.

(** X15. In the table the stages end with, a customer whose Recency is the
    least of the table and whose Frequency and Monetary are the greatest
    has RFM_Score 3 and the name "Demands Activation"; a customer whose
    Recency is the greatest and whose Frequency and Monetary are the least
    has RFM_Score 12 and the name "Can't Loose Them". *)
Theorem pipeline_extreme_customers (data r : loc) (h h1 : store)
    (f : frame) (n : nat) :
  h !! data = Some f → wf_frame n f →
  scale_rfm_columns data h = (Ok r, h1) →
  ∃ (l : loc) (h2 h3 : store) (f3 : frame) (xr xf xm sc : list Z)
    (names : list string),
    rfm_scores r h1 = (Ok l, h2) ∧
    give_names_to_segments l h2 = (Ok l, h3) ∧ h3 !! l = Some f3 ∧
    get_col f3 "Recency" = Some (ColInt xr) ∧
    get_col f3 "Frequency" = Some (ColInt xf) ∧
    get_col f3 "Monetary" = Some (ColInt xm) ∧
    get_col f3 "RFM_Score" = Some (ColInt sc) ∧
    get_col f3 "Segment_Name" = Some (ColStr names) ∧
    ∀ (j : nat) (x y z : Z),
      xr !! j = Some x → xf !! j = Some y → xm !! j = Some z →
      ((∀ x', x' ∈ xr → (x ≤ x')%Z) → (∀ y', y' ∈ xf → (y' ≤ y)%Z) →
       (∀ z', z' ∈ xm → (z' ≤ z)%Z) →
       sc !! j = Some 3%Z ∧ names !! j = Some "Demands Activation") ∧
      ((∀ x', x' ∈ xr → (x' ≤ x)%Z) → (∀ y', y' ∈ xf → (y ≤ y')%Z) →
       (∀ z', z' ∈ xm → (z ≤ z')%Z) →
       sc !! j = Some 12%Z ∧ names !! j = Some "Can't Loose Them").
Proof.
  intros Hh Hwf Hscale.
  destruct (pipeline_final_table data r h h1 f n Hh Hwf Hscale)
    as (l & h2 & h3 & f3 & idx & xr & xf & xm & lr & lf & lm & sc & names & Hrun
        & Hnames & Hf3 & Hperm & Hpos & Hxr & Hxf & Hxm & Hlr & Hlf & Hlm & Hsc
        & Hqr & Hqf & Hqm & Hallr & Hallf & Hallm & Hscdef & HR & HF & HM & HRl
        & HFl & HMl & HSc & HNm & Hlnames & Hnaming & _).
  assert (∀ (xs : list Z), length xs = n → ∀ i, i ∈ idx → (i < length xs)%nat)
    as Hidx by (intros xs Hl i; rewrite Hperm, elem_of_seq; lia).
  assert (∀ (xs : list Z), length xs = n → ∀ v, v ∈ take_idx xs idx ↔ v ∈ xs)
    as Helem.
  { intros xs Hl v. rewrite take_idx_Permutation; [done|]. by rewrite Hl. }
  exists l, h2, h3, f3, (take_idx xr idx), (take_idx xf idx), (take_idx xm idx),
    (take_idx sc idx), names.
  do 8 (split; [done|]).
  intros j x y z Hx Hy Hz.
  rewrite take_idx_lookup in Hx, Hy, Hz by by apply Hidx.
  destruct (idx !! j) as [i|] eqn:Hi; [|done]. simpl in Hx, Hy, Hz.
  destruct (qcut_extremes _ _ _ Hqr) as (rs & [= <-] & _ & Hrs).
  destruct (qcut_extremes _ _ _ Hqf) as (fs & [= <-] & _ & Hfs).
  destruct (qcut_extremes _ _ _ Hqm) as (ms & [= <-] & _ & Hms).
  destruct (Hrs i x Hx) as (Hr1 & Hr4 & _).
  destruct (Hfs i y Hy) as (Hf4 & Hf1 & _).
  destruct (Hms i z Hz) as (Hm4 & Hm1 & _).
  rewrite list_lookup_fmap in Hr1, Hr4, Hf1, Hf4, Hm1, Hm4.
  assert (∀ s, sc !! i = Some s → take_idx sc idx !! j = Some s) as Hsci.
  { intros s Hs. rewrite take_idx_lookup by by apply Hidx. by rewrite Hi. }
  split.
  - intros Hminx Hmaxy Hmaxz.
    assert (lr !! i = Some "1") as Hla.
    { specialize (Hr1 ltac:(intros; apply Hminx; by apply Helem)).
      destruct (lr !! i); simpl in Hr1; by simplify_eq. }
    assert (lf !! i = Some "1") as Hlb.
    { specialize (Hf1 ltac:(intros; apply Hmaxy; by apply Helem)).
      destruct (lf !! i); simpl in Hf1; by simplify_eq. }
    assert (lm !! i = Some "1") as Hlc.
    { specialize (Hm1 ltac:(intros; apply Hmaxz; by apply Helem)).
      destruct (lm !! i); simpl in Hm1; by simplify_eq. }
    assert (take_idx sc idx !! j = Some 3%Z) as Hs.
    { apply Hsci. rewrite Hscdef. apply zip3_with_lookup.
      exists 1%Z, 1%Z, 1%Z. rewrite !list_lookup_fmap, Hla, Hlb, Hlc. done. }
    split; [done|]. destruct (Hnaming j 3%Z Hs) as (nm & -> & Hnam).
    vm_compute in Hnam. by injection Hnam as <-.
  - intros Hmaxx Hminy Hminz.
    assert (lr !! i = Some "4") as Hla.
    { specialize (Hr4 ltac:(intros; apply Hmaxx; by apply Helem)).
      destruct (lr !! i); simpl in Hr4; by simplify_eq. }
    assert (lf !! i = Some "4") as Hlb.
    { specialize (Hf4 ltac:(intros; apply Hminy; by apply Helem)).
      destruct (lf !! i); simpl in Hf4; by simplify_eq. }
    assert (lm !! i = Some "4") as Hlc.
    { specialize (Hm4 ltac:(intros; apply Hminz; by apply Helem)).
      destruct (lm !! i); simpl in Hm4; by simplify_eq. }
    assert (take_idx sc idx !! j = Some 12%Z) as Hs.
    { apply Hsci. rewrite Hscdef. apply zip3_with_lookup.
      exists 4%Z, 4%Z, 4%Z. rewrite !list_lookup_fmap, Hla, Hlb, Hlc. done. }
    split; [done|]. destruct (Hnaming j 12%Z Hs) as (nm & -> & Hnam).
    vm_compute in Hnam. by injection Hnam as <-.
Qed.

(** X16. From a well-formed transaction table whose customer column is
    not named like a column the stages add, [create_rfm_columns] returns a
    new table of the four columns id, Recency, Frequency and Monetary, all
    of one length, with no more rows than there are transactions; and when
    the encoder accepts this table, the two later stages succeed and end
    with a table of the same number of rows and the ten columns id, Recency,
    Frequency, Monetary, R, F, M, RFM_Score, RFM_Segment, Segment_Name, in
    this order. *)
Theorem pipeline_from_transactions (h : store) (data : loc) (f : frame)
    (id dates revenue : string) (cid : column) (ds rs : list Z) :
  h !! data = Some f →
  NoDup [dates; id; revenue] →
  get_col f id = Some cid → (∀ cats xs, cid ≠ ColCat cats xs) →
  get_col f dates = Some (ColDate ds) →
  get_col f revenue = Some (ColInt rs) →
  col_len cid = length ds → col_len cid = length rs →
  id ∉ ["Recency"; "Frequency"; "Monetary"; "R"; "F"; "M"; "RFM_Score";
        "RFM_Segment"; "Segment_Name"] →
  ∃ (l0 : loc) (h0 : store) (f0 : frame) (m : nat),
    create_rfm_columns data id dates revenue h = (Ok l0, h0) ∧
    h0 !! l0 = Some f0 ∧ wf_frame m f0 ∧ (m ≤ length ds)%nat ∧
    col_names f0 = [id; "Recency"; "Frequency"; "Monetary"] ∧
    ∀ (r : loc) (h1 : store),
      scale_rfm_columns l0 h0 = (Ok r, h1) →
      ∃ (l : loc) (h2 h3 : store) (f3 : frame),
        rfm_scores r h1 = (Ok l, h2) ∧
        give_names_to_segments l h2 = (Ok l, h3) ∧ h3 !! l = Some f3 ∧
        wf_frame m f3 ∧
        col_names f3 = [id; "Recency"; "Frequency"; "Monetary"; "R"; "F"; "M";
                        "RFM_Score"; "RFM_Segment"; "Segment_Name"].
Proof.
  intros Hh Hnd Hcid Hcat Hdates Hrev Hl1 Hl2 Hid.
  destruct (create_rfm_columns_closed h data f id dates revenue cid ds rs
              Hh Hnd Hcid Hcat Hdates Hrev Hl1 Hl2)
    as (K & eqd & cell & C & ks & gks & Hinj & HC & -> & Hkd & Hkr & Hgnd & Hgks
        & _ & Hrun).
  rewrite !not_elem_of_cons in Hid.
  destruct Hid as (Hi1 & Hi2 & Hi3 & Hi4 & Hi5 & Hi6 & Hi7 & Hi8 & Hi9 & _).
  rewrite bool_decide_eq_false_2 in Hrun
    by (unfold rfm_column_names; rewrite !not_elem_of_cons; repeat split;
        first [done|apply not_elem_of_nil]).
  match type of Hrun with _ = alloc ?g h => set (f0 := g) in * end.
  destruct (alloc_fresh h f0) as (l0 & Halloc & Hfresh).
  rewrite Halloc in Hrun.
  assert (wf_frame (length gks) f0) as Hwf0.
  { unfold f0, wf_frame. repeat constructor; unfold col_len; simpl;
      rewrite ?HC, !length_fmap; done. }
  exists l0, (<[l0 := f0]> h), f0, (length gks).
  split; [exact Hrun|]. split; [apply lookup_insert_eq|]. split; [exact Hwf0|].
  split.
  { rewrite <- Hkd. apply submseteq_length, NoDup_submseteq; [done|].
    intros k. apply Hgks. }
  split; [done|].
  intros r h1 Hscale.
  destruct (pipeline_final_table l0 r (<[l0 := f0]> h) h1 f0 (length gks)
              (lookup_insert_eq _ _ _) Hwf0 Hscale)
    as (l & h2 & h3 & f3 & idx & xr & xf & xm & lr & lf & lm & sc & names & Hr
        & Hnames & Hf3 & Hperm & Hpos & Hxr & Hxf & Hxm & Hlr & Hlf & Hlm & Hsc
        & Hqr & Hqf & Hqm & Hallr & Hallf & Hallm & Hscdef & HR & HF & HM & HRl
        & HFl & HMl & HSc & HNm & Hlnames & Hnaming & Hwf3 & Hcols).
  exists l, h2, h3, f3. do 4 (split; [done|]).
  apply Hcols; [done|].
  rewrite !not_elem_of_cons; repeat split; first [done|apply not_elem_of_nil].
Qed.

End pipeline.

Lemma pipeline_classifies_every_customer_witness :
  ∃ (l : loc) (h2 h3 : store) (f3 : frame) (sc : list Z) (names : list string),
    @rfm_scores stable_argsort 0%nat
      (scale_rfm_columns 0%nat {[ 0%nat := example_metrics ]}).2 = (Ok l, h2) ∧
    give_names_to_segments l h2 = (Ok l, h3) ∧ h3 !! l = Some f3 ∧
    get_col f3 "RFM_Score" = Some (ColInt sc) ∧
    get_col f3 "Segment_Name" = Some (ColStr names) ∧
    length sc = 8%nat.
Proof.
  destruct (@pipeline_classifies_every_customer stable_argsort 0%nat 0%nat
              {[ 0%nat := example_metrics ]}
              (scale_rfm_columns 0%nat {[ 0%nat := example_metrics ]}).2
              example_metrics 8%nat)
    as (l & h2 & h3 & f3 & sc & names & H1 & H2 & H3 & H4 & H5 & H6 & _).
  - reflexivity.
  - repeat constructor.
  - vm_compute. reflexivity.
  - exists l, h2, h3, f3, sc, names. do 5 (split; [assumption|]). exact H6.
Defined.

Lemma pipeline_extreme_customers_witness :
  ∃ (l : loc) (h2 h3 : store) (f3 : frame) (sc : list Z) (names : list string),
    @rfm_scores stable_argsort 0%nat
      (scale_rfm_columns 0%nat {[ 0%nat := example_ranked ]}).2 = (Ok l, h2) ∧
    give_names_to_segments l h2 = (Ok l, h3) ∧ h3 !! l = Some f3 ∧
    get_col f3 "id" = Some (ColInt [4; 3; 2; 1]) ∧
    get_col f3 "Recency" = Some (ColInt [30; 20; 10; 0]) ∧
    get_col f3 "Frequency" = Some (ColInt [1; 2; 3; 4]) ∧
    get_col f3 "Monetary" = Some (ColInt [10; 20; 30; 40]) ∧
    get_col f3 "RFM_Score" = Some (ColInt sc) ∧
    get_col f3 "Segment_Name" = Some (ColStr names) ∧
    sc !! 3%nat = Some 3%Z ∧ names !! 3%nat = Some "Demands Activation" ∧
    sc !! 0%nat = Some 12%Z ∧ names !! 0%nat = Some "Can't Loose Them".
Proof.
  destruct (@pipeline_extreme_customers stable_argsort 0%nat 0%nat
              {[ 0%nat := example_ranked ]}
              (scale_rfm_columns 0%nat {[ 0%nat := example_ranked ]}).2
              example_ranked 4%nat)
    as (l & h2 & h3 & f3 & xr & xf & xm & sc & names & Hrun & Hnm & Hf3 & HR & HF
        & HM & HSc & HNm & Hext).
  - reflexivity.
  - repeat constructor.
  - vm_compute. reflexivity.
  - exists l, h2, h3, f3, sc, names.
    do 3 (split; [assumption|]).
    assert (l = 1%nat ∧ get_col f3 "id" = Some (ColInt [4; 3; 2; 1]) ∧
            xr = [30; 20; 10; 0] ∧ xf = [1; 2; 3; 4] ∧ xm = [10; 20; 30; 40])
      as (-> & Hid & -> & -> & ->).
    { pose proof Hrun as E1. vm_compute in E1. injection E1 as <- <-.
      pose proof Hnm as E2. vm_compute in E2. injection E2 as <-.
      pose proof Hf3 as E3. vm_compute in E3. injection E3 as <-.
      pose proof HR as E4. vm_compute in E4. injection E4 as <-.
      pose proof HF as E5. vm_compute in E5. injection E5 as <-.
      pose proof HM as E6. vm_compute in E6. injection E6 as <-.
      repeat split; reflexivity. }
    do 6 (split; [assumption|]).
    destruct (Hext 3%nat 0%Z 4%Z 40%Z eq_refl eq_refl eq_refl) as [Hbest _].
    destruct (Hext 0%nat 30%Z 1%Z 10%Z eq_refl eq_refl eq_refl) as [_ Hworst].
    destruct Hbest as [Hs3 Hn3];
      [intros v Hv; repeat (apply elem_of_cons in Hv as [->|Hv]); try lia;
       by apply elem_of_nil in Hv..|].
    destruct Hworst as [Hs0 Hn0];
      [intros v Hv; repeat (apply elem_of_cons in Hv as [->|Hv]); try lia;
       by apply elem_of_nil in Hv..|].
    repeat split; assumption.
Defined.

Lemma pipeline_from_transactions_witness :
  ∃ (l0 : loc) (h0 : store) (f0 : frame),
    create_rfm_columns 0%nat "customer" "date" "revenue"
      {[ 0%nat := example_transactions ]} = (Ok l0, h0) ∧
    h0 !! l0 = Some f0 ∧
    col_names f0 = ["customer"; "Recency"; "Frequency"; "Monetary"].
Proof.
  destruct (@pipeline_from_transactions stable_argsort
              {[ 0%nat := example_transactions ]} 0%nat example_transactions
              "customer" "date" "revenue" (ColStr ["C1"; "C1"; "C2"])
              [timestamp 2023 1 1; timestamp 2023 2 1; timestamp 2023 2 10]
              [100; 50; 500])
    as (l0 & h0 & f0 & m & Hrun & Hl0 & _ & _ & Hcols & _).
  - reflexivity.
  - repeat constructor; rewrite ?not_elem_of_cons; repeat split; try done;
      apply not_elem_of_nil.
  - reflexivity.
  - intros cats xs. discriminate.
  - reflexivity.
  - reflexivity.
  - reflexivity.
  - reflexivity.
  - rewrite !not_elem_of_cons; repeat split; try done. apply not_elem_of_nil.
  - exists l0, h0, f0. split; [exact Hrun|]. split; [exact Hl0|exact Hcols].
Defined.
